(** * Inference orchestration of the AI code-generation extension

    A shallow embedding of the TypeScript sources of the inference
    orchestration subsystem (error classification, retry with backoff,
    the local-inference concurrency cap, session persistence, code
    extraction, source selection and model loading), followed by the
    properties proved about them.

    Conventions of the embedding:
    - a JavaScript [number] that only ever holds an integer (HTTP status,
      counters, timestamps) is a [Z]; a number that is always finite
      is a rational [Q]; the other numbers are a [Js.Number]: a finite
      number is the exact rational it stands for (the rounding of the
      arithmetic of doubles is not modelled), and [NaN], the two
      infinities and the overflow to an infinity are kept;
    - a timer is the [setTimeout] of Node.js, which replaces by 1 ms the
      delays it cannot take;
    - a value of type [any] of which the code only tests the truthiness
      and takes the conversion to a number is the pair of the two
      ([Js.Any]);
    - a JavaScript string is a [string] of 8-bit code units;
    - an exception is the [Throw] constructor of [Js.Result];
    - [Date.now()], [uuidv4()], [Math.random()] and the outcomes of awaited
      collaborators are explicit arguments of the functions that use them;
    - calls to [Logger] and [console] have no effect on any value studied
      here and are left out. *)

From Stdlib Require Import ZArith List String Ascii Bool Lia.
From Stdlib Require Import QArith Qminmax Qpower Qround Lqa DecimalString.
From Stdlib Require Import Sorted Permutation.
Import ListNotations.

Open Scope string_scope.
Open Scope Z_scope.

(* ================================================================= *)
(** ** JavaScript values shared by all modules *)

Module Js.

(** Outcome of a call that may raise. *)
Inductive Result (E A : Type) : Type :=
| Ok (a : A)
| Throw (e : E).
Arguments Ok {E A} a.
Arguments Throw {E A} e.

Definition bind {E A B} (m : Result E A) (k : A -> Result E B) : Result E B :=
  match m with
  | Ok a => k a
  | Throw e => Throw e
  end.

(** [try { body } catch (e) { handler e }] *)
Definition try_catch {E A} (body : Result E A) (handler : E -> Result E A)
  : Result E A :=
  match body with
  | Ok a => Ok a
  | Throw e => handler e
  end.

Definition is_ok {E A} (m : Result E A) : bool :=
  match m with Ok _ => true | Throw _ => false end.

(** A JavaScript [number]: a finite number, given by its exact value,
    [NaN], or an infinity. *)
Inductive Number : Type :=
| Num (q : Q)
| NaN
| Infinity (negative : bool).

(** The least magnitude that a double rounds to an infinity:
    [2^1024 - 2^970], half an [ulp] above [Number.MAX_VALUE]. *)
Definition OVERFLOW : Z := 2 ^ 1024 - 2 ^ 970.

(** The number that an exact result gives. *)
Definition of_rational (q : Q) : Number :=
  if Qle_bool (inject_Z OVERFLOW) q then Infinity false
  else if Qle_bool q (inject_Z (- OVERFLOW)) then Infinity true
  else Num q.

(** The rationals that a finite number can stand for. *)
Definition finite (q : Q) : Prop :=
  (inject_Z (- OVERFLOW) < q < inject_Z OVERFLOW)%Q.

(** [a * b] *)
Definition times (a b : Number) : Number :=
  match a, b with
  | NaN, _ | _, NaN => NaN
  | Num x, Num y => of_rational (x * y)
  | Infinity s, Num y | Num y, Infinity s =>
      if Qeq_bool y 0 then NaN
      else Infinity (xorb s (negb (Qle_bool 0 y)))
  | Infinity s, Infinity t => Infinity (xorb s t)
  end.

(** [a / b], for a divisor that is not a zero: the sign of a zero is
    not kept. *)
Definition divide (a b : Number) : Number :=
  match a, b with
  | NaN, _ | _, NaN => NaN
  | Num x, Num y => if Qeq_bool y 0 then NaN else of_rational (x / y)
  | Num _, Infinity _ => Num 0
  | Infinity s, Num y => Infinity (xorb s (negb (Qle_bool 0 y)))
  | Infinity _, Infinity _ => NaN
  end.

(** [a + b] *)
Definition plus (a b : Number) : Number :=
  match a, b with
  | NaN, _ | _, NaN => NaN
  | Num x, Num y => of_rational (x + y)
  | Infinity s, Num _ | Num _, Infinity s => Infinity s
  | Infinity s, Infinity t => if Bool.eqb s t then Infinity s else NaN
  end.

(** [a < b] *)
Definition less (a b : Number) : bool :=
  match a, b with
  | NaN, _ | _, NaN => false
  | Num x, Num y => negb (Qle_bool y x)
  | Num _, Infinity t => negb t
  | Infinity s, Num _ => s
  | Infinity s, Infinity t => s && negb t
  end.

(** [Math.max(a, b)] *)
Definition max (a b : Number) : Number :=
  match a, b with
  | NaN, _ | _, NaN => NaN
  | Num x, Num y => Num (Qmax x y)
  | Infinity false, _ | _, Infinity false => Infinity false
  | Infinity true, other | other, Infinity true => other
  end.

(** The longest delay that the timers of Node.js take. *)
Definition TIMEOUT_MAX : Z := 2147483647.

(** [setTimeout(callback, ms)] of Node.js: the number of milliseconds
    after which the callback is due. A delay is truncated to an integer;
    a delay above [TIMEOUT_MAX], below 1 or [NaN] is set to 1. *)
Definition setTimeout (ms : Number) : Z :=
  match ms with
  | Num q =>
      if Qle_bool 1 q && Qle_bool q (inject_Z TIMEOUT_MAX) then Qfloor q
      else 1
  | _ => 1
  end.

(** A value of any type, as seen by code that only tests whether it is
    truthy and converts it to a number. *)
Record Any : Type := mkAny {
  is_truthy : bool;
  to_number : Number
}.

(** A value that is a number: falsy when it is 0 or [NaN]. *)
Definition of_number (n : Number) : Any :=
  mkAny match n with
        | Num q => negb (Qeq_bool q 0)
        | NaN => false
        | Infinity _ => true
        end
        n.

(** Truthiness of a string: every string but the empty one. *)
Definition truthy (s : string) : bool :=
  match s with
  | EmptyString => false
  | String _ _ => true
  end.

(** Truthiness of an optional string ([undefined] is falsy). *)
Definition truthy_opt (o : option string) : bool :=
  match o with
  | Some s => truthy s
  | None => false
  end.

(** [a || b] on optional strings. *)
Definition or_else (o : option string) (d : option string) : option string :=
  if truthy_opt o then o else d.

(** [String(n)] for an integer. *)
Definition string_of_Z (z : Z) : string :=
  NilZero.string_of_int (Z.to_int z).

Definition code (c : ascii) : nat := nat_of_ascii c.

(** [\s]: the white space and line terminator code units below 256. *)
Definition is_space (c : ascii) : bool :=
  let n := code c in
  ((9 <=? n) && (n <=? 13))%nat || (n =? 32)%nat || (n =? 160)%nat.

Definition is_digit (c : ascii) : bool :=
  let n := code c in ((48 <=? n) && (n <=? 57))%nat.

(** [\w]: letters, digits and the underscore. *)
Definition is_word (c : ascii) : bool :=
  let n := code c in
  ((48 <=? n) && (n <=? 57))%nat
  || ((65 <=? n) && (n <=? 90))%nat
  || ((97 <=? n) && (n <=? 122))%nat
  || (n =? 95)%nat.

Fixpoint trimStart (s : string) : string :=
  match s with
  | String c s' => if is_space c then trimStart s' else s
  | EmptyString => EmptyString
  end.

(** [trimEnd], written so that it recurses on the string itself: the
    tail is trimmed first, and the head is dropped when it is a space
    followed by nothing. *)
Fixpoint trimEnd (s : string) : string :=
  match s with
  | EmptyString => EmptyString
  | String c s' =>
      match trimEnd s' with
      | EmptyString => if is_space c then EmptyString else String c EmptyString
      | t => String c t
      end
  end.

Definition trim (s : string) : string := trimEnd (trimStart s).

Definition digit_value (c : ascii) : Z := Z.of_nat (code c - 48).

(** Longest prefix of decimal digits, as a number; [None] when the
    string does not start with a digit. *)
Fixpoint digits_prefix (s : string) (acc : option Z) : option Z :=
  match s with
  | String c s' =>
      if is_digit c
      then digits_prefix s'
             (Some (10 * match acc with Some a => a | None => 0 end
                    + digit_value c))
      else acc
  | EmptyString => acc
  end.

(** The integer that [parseInt(s, 10)] reads: an optional sign and the
    longest run of digits after the leading white space; [None] when
    there is no digit. *)
Definition mathInt (s : string) : option Z :=
  match trimStart s with
  | String "-"%char r => option_map Z.opp (digits_prefix r None)
  | String "+"%char r => digits_prefix r None
  | r => digits_prefix r None
  end.

(** [parseInt(s, 10)]: the integer read, as a number. *)
Definition parseInt (s : string) : Number :=
  match mathInt s with
  | Some n => of_rational (inject_Z n)
  | None => NaN
  end.

(** [obj[key]] on an object with string keys. *)
Fixpoint lookup {A} (key : string) (obj : list (string * A)) : option A :=
  match obj with
  | [] => None
  | (k, v) :: rest => if String.eqb k key then Some v else lookup key rest
  end.

(** [obj[key] = value] on an object, [map.set(key, value)] on a [Map]:
    an existing key keeps its place, a new one goes last. (The keys met
    here are UUIDs and words, never array indices, which an object
    would list first.) *)
Fixpoint assoc_set {A} (key : string) (value : A) (obj : list (string * A))
  : list (string * A) :=
  match obj with
  | [] => [(key, value)]
  | (k, v) :: rest =>
      if String.eqb k key then (key, value) :: rest
      else (k, v) :: assoc_set key value rest
  end.

Definition assoc_has {A} (key : string) (obj : list (string * A)) : bool :=
  match lookup key obj with Some _ => true | None => false end.

Fixpoint assoc_delete {A} (key : string) (obj : list (string * A))
  : list (string * A) :=
  match obj with
  | [] => []
  | (k, v) :: rest =>
      if String.eqb k key then rest else (k, v) :: assoc_delete key rest
  end.

Fixpoint starts_with (s prefix : string) : bool :=
  match prefix, s with
  | EmptyString, _ => true
  | String p prefix', String c s' => Ascii.eqb c p && starts_with s' prefix'
  | String _ _, EmptyString => false
  end.

(** [s.endsWith(suffix)] *)
Fixpoint ends_with (s suffix : string) : bool :=
  String.eqb s suffix
  || match s with
     | EmptyString => false
     | String _ s' => ends_with s' suffix
     end.

(** [s.includes(part)] *)
Fixpoint includes (s part : string) : bool :=
  starts_with s part
  || match s with
     | EmptyString => false
     | String _ s' => includes s' part
     end.

(** [s.split(sep)] for a separator of one code unit. *)
Fixpoint split (sep : ascii) (s : string) : list string :=
  match s with
  | EmptyString => [EmptyString]
  | String c s' =>
      if Ascii.eqb c sep then EmptyString :: split sep s'
      else match split sep s' with
           | part :: rest => String c part :: rest
           | [] => [String c EmptyString]
           end
  end.

(** [Math.round] *)
Definition round (q : Q) : Z := Qfloor (q + (1 # 2))%Q.

(** [`${Math.round(n)}`] *)
Definition show_rounded (n : Number) : string :=
  match n with
  | Num q => string_of_Z (round q)
  | NaN => "NaN"
  | Infinity false => "Infinity"
  | Infinity true => "-Infinity"
  end.

End Js.

(* ================================================================= *)
(** ** Regular expressions

    [RegExp.prototype.test] by Brzozowski derivatives, and the two
    searches with a capture that the sources make for a code fence. *)

Module Regex.
Import Js.

Inductive re : Type :=
| Void
| Eps
| Chr (p : ascii -> bool)
| Seq (a b : re)
| Alt (a b : re)
| Star (a : re).

Fixpoint nullable (r : re) : bool :=
  match r with
  | Void => false
  | Eps => true
  | Chr _ => false
  | Seq a b => nullable a && nullable b
  | Alt a b => nullable a || nullable b
  | Star _ => true
  end.

Definition seq (a b : re) : re :=
  match a, b with
  | Void, _ => Void
  | _, Void => Void
  | Eps, _ => b
  | _, Eps => a
  | _, _ => Seq a b
  end.

Definition alt (a b : re) : re :=
  match a, b with
  | Void, _ => b
  | _, Void => a
  | _, _ => Alt a b
  end.

Fixpoint deriv (c : ascii) (r : re) : re :=
  match r with
  | Void => Void
  | Eps => Void
  | Chr p => if p c then Eps else Void
  | Seq a b =>
      alt (seq (deriv c a) b) (if nullable a then deriv c b else Void)
  | Alt a b => alt (deriv c a) (deriv c b)
  | Star a => seq (deriv c a) (Star a)
  end.

(** Does [r] match a prefix of [s]? *)
Fixpoint prefix_matches (r : re) (s : string) : bool :=
  nullable r
  || match s with
     | String c s' => prefix_matches (deriv c r) s'
     | EmptyString => false
     end.

(** [r.test(s)]: does [r] match somewhere in [s]? *)
Fixpoint test (r : re) (s : string) : bool :=
  prefix_matches r s
  || match s with
     | String _ s' => test r s'
     | EmptyString => false
     end.

Definition plus (r : re) : re := Seq r (Star r).
Definition opt (r : re) : re := Alt Eps r.

Definition chr (c : ascii) : re := Chr (Ascii.eqb c).

Definition lower (c : ascii) : ascii :=
  let n := code c in
  if ((65 <=? n) && (n <=? 90))%nat then ascii_of_nat (n + 32) else c.

(** A character under the flag [i]. *)
Definition chri (c : ascii) : re := Chr (fun x => Ascii.eqb (lower x) (lower c)).

Fixpoint lit (s : string) : re :=
  match s with
  | EmptyString => Eps
  | String c s' => Seq (chr c) (lit s')
  end.

Fixpoint liti (s : string) : re :=
  match s with
  | EmptyString => Eps
  | String c s' => Seq (chri c) (liti s')
  end.

Definition space : re := Chr is_space.              (* \s *)
Definition word : re := Chr is_word.                (* \w *)
Definition any : re := Chr (fun _ => true).         (* [\s\S] *)
Definition dot : re :=                              (* . *)
  Chr (fun c => negb ((code c =? 10)%nat || (code c =? 13)%nat)).

Definition fence : string := "```".

(** The text before and after the first occurrence of the fence. *)
Fixpoint split_at_fence (s : string) : option (string * string) :=
  match s with
  | String "`" (String "`" (String "`" rest)) => Some (EmptyString, rest)
  | String c s' =>
      match split_at_fence s' with
      | Some (before, after) => Some (String c before, after)
      | None => None
      end
  | EmptyString => None
  end.

(** The longest prefix of word characters, and what follows it. *)
Fixpoint span_word (s : string) : string * string :=
  match s with
  | String c s' =>
      if is_word c then
        let (w, r) := span_word s' in (String c w, r)
      else (EmptyString, s)
  | EmptyString => (EmptyString, EmptyString)
  end.

(** The longest prefix of white space, and what follows it. *)
Fixpoint span_space (s : string) : string * string :=
  match s with
  | String c s' =>
      if is_space c then
        let (w, r) := span_space s' in (String c w, r)
      else (EmptyString, s)
  | EmptyString => (EmptyString, EmptyString)
  end.

(** What follows the last line feed of [s], if it has one. *)
Fixpoint after_last_newline (s : string) : option string :=
  match s with
  | EmptyString => None
  | String c s' =>
      match after_last_newline s' with
      | Some r => Some r
      | None => if (code c =? 10)%nat then Some s' else None
      end
  end.

(** First group of the first match of [/```(\w+)/]. *)
Fixpoint fence_word (s : string) : option string :=
  match s with
  | String "`" (String "`" (String "`" rest)) =>
      match span_word rest with
      | (String c w, _) => Some (String c w)
      | (EmptyString, _) =>
          match s with
          | String _ s' => fence_word s'
          | EmptyString => None
          end
      end
  | String _ s' => fence_word s'
  | EmptyString => None
  end.

(** [/```(\w+)?\s*[\s\S]*?```/] *)
Definition codeBlockRegex : re :=
  Seq (lit fence)
      (Seq (opt (plus word)) (Seq (Star space) (Seq (Star any) (lit fence)))).

End Regex.

(* ================================================================= *)
(** ** src/ai/apiConnector/apiErrorHandler.ts *)

Module APIErrorHandler.
Import Js.

(** The response part of an Axios error. *)
Record AxiosResponse : Type := mkAxiosResponse {
  status : Z;
  data : string;
  headers : list (string * string)
}.

(** Values that reach a [catch] clause. [AxiosErr] is an error for
    which [axios.isAxiosError] holds; [PlainErr] is any other instance
    of [Error]; [Thrown repr] is a value that is not an [Error], with
    [repr] the result of [String(value)] ([undefined] is
    [Thrown "undefined"]). *)
Inductive JsError : Type :=
| AxiosErr (message : string) (code : option string)
           (response : option AxiosResponse)
| PlainErr (message : string)
| Thrown (repr : string).

(** [error instanceof Error ? error.message : String(error)] *)
Definition error_text (error : JsError) : string :=
  match error with
  | AxiosErr m _ _ => m
  | PlainErr m => m
  | Thrown r => r
  end.

Inductive APIErrorType : Type :=
| network | timeout | rate_limit | authentication
| bad_request | server | unknown.

Inductive ErrorData : Type :=
| ToJSON (e : JsError)
| ResponseData (d : string)
| RawError (e : JsError).

Record APIErrorDetails : Type := mkDetails {
  type : APIErrorType;
  details_status : option Z;
  message : string;
  retryable : bool;
  errorData : ErrorData
}.

Definition MAX_RETRIES : Z := 3.
Definition BASE_DELAY : Q := 1000%Q.
Definition MAX_DELAY : Q := 10000%Q.

Definition code_is (c : option string) (name : string) : bool :=
  match c with
  | Some s => String.eqb s name
  | None => false
  end.

Definition categorizeError (error : JsError) : APIErrorDetails :=
  let default :=
    mkDetails unknown None (error_text error) false (RawError error) in
  match error with
  | AxiosErr msg code None =>
      mkDetails network None "Network error occurred" true (ToJSON error)
  | AxiosErr msg code (Some response) =>
      let status := status response in
      if (status =? 408) || code_is code "ECONNABORTED" then
        mkDetails timeout (Some status) "Request timed out" true
                  (ResponseData (data response))
      else if status =? 429 then
        mkDetails rate_limit (Some status) "Rate limit exceeded" true
                  (ResponseData (data response))
      else if (status =? 401) || (status =? 403) then
        mkDetails authentication (Some status) "Authentication failed" false
                  (ResponseData (data response))
      else if (400 <=? status) && (status <? 500) then
        mkDetails bad_request (Some status) ("Bad request: " ++ msg) false
                  (ResponseData (data response))
      else if 500 <=? status then
        mkDetails server (Some status) ("Server error: " ++ msg) true
                  (ResponseData (data response))
      else default
  | _ => default
  end.

(** [random] is the value returned by [Math.random()]. *)
Definition calculateBackoff (random : Q) (attempt : Z) : Q :=
  let exponentialDelay :=
    Qmin MAX_DELAY (BASE_DELAY * (2 ^ attempt))%Q in
  let jitter := (random * 0.6 - 0.3)%Q in
  let delay := (exponentialDelay * (1 + jitter))%Q in
  Qmin MAX_DELAY (Qmax BASE_DELAY delay).

(** Lines 204-211 of [retry]: the delay slept after a failed attempt. *)
Definition retryDelay (random : Q) (attempt : Z) (error : JsError)
  : Number :=
  let delayMs := Num (calculateBackoff random attempt) in
  match type (categorizeError error), error with
  | rate_limit, AxiosErr _ _ (Some response) =>
      match lookup "retry-after" (headers response) with
      | Some retryAfter =>
          if truthy retryAfter then times (parseInt retryAfter) (Num 1000)
          else delayMs
      | None => delayMs
      end
  | _, _ => delayMs
  end.

(** [delay(ms)]: the promise is resolved by the timer, after this many
    milliseconds. *)
Definition delay (ms : Number) : Z := setTimeout ms.

(** What a run of [retry] did: its result, the number of times [fn] was
    called and the delays slept between the calls (the arguments of
    [delay]), oldest first. *)
Record Run (T : Type) : Type := mkRun {
  result : Result JsError T;
  attempts : nat;
  delays : list Number
}.
Arguments mkRun {T}.
Arguments result {T}.
Arguments attempts {T}.
Arguments delays {T}.

(** The time that each sleep of a run lasted, in milliseconds. *)
Definition waits {T} (run : Run T) : list Z := map delay (delays run).

Section Retry.
Context {T : Type}.
(** [fn k] is the outcome of the call number [k] (from 0) of the
    wrapped operation; [random k] is what [Math.random()] returns
    during the iteration number [k]. *)
Variable fn : nat -> Result JsError T.
Variable random : nat -> Q.
Variable maxRetries : Z.

(** The error raised after the loop. *)
Definition finalError (lastError : JsError) : JsError :=
  PlainErr ("API request failed after " ++ string_of_Z (maxRetries + 1)
            ++ " attempts: " ++ message (categorizeError lastError)).

(** [retry_loop n attempt ...] runs the [for] loop when [n] iterations
    remain before [attempt <= maxRetries] fails. *)
Fixpoint retry_loop (n : nat) (attempt : Z) (calls : nat)
         (slept : list Number) (lastError : JsError) : Run T :=
  match n with
  | O => mkRun (Throw (finalError lastError)) calls slept
  | S n' =>
      match fn calls with
      | Ok v => mkRun (Ok v) (S calls) slept
      | Throw error =>
          let errorDetails := categorizeError error in
          if negb (retryable errorDetails) || (maxRetries <=? attempt)
          then mkRun (Throw (finalError error)) (S calls) slept
          else
            let delayMs := retryDelay (random calls) attempt error in
            retry_loop n' (attempt + 1) (S calls)
                       (slept ++ [delayMs]) error
      end
  end.

Definition retry : Run T :=
  retry_loop (Z.to_nat (maxRetries + 1)) 0 0%nat [] (Thrown "undefined").
End Retry.

Definition shouldRetry (error : JsError) : bool :=
  retryable (categorizeError error).

(** *** The classification as the specification words it

    The rules of the specification, tried in the order in which it
    lists them; the first one that applies gives the verdict. *)

Definition no_transport_response (e : JsError) : bool :=
  match e with
  | AxiosErr _ _ None => true
  | _ => false
  end.

Definition http_status (e : JsError) : option Z :=
  match e with
  | AxiosErr _ _ (Some r) => Some (status r)
  | _ => None
  end.

(** Timed out (status 408, Request Timeout) or aborted (the Axios code
    [ECONNABORTED]). *)
Definition timeout_or_aborted (e : JsError) : bool :=
  match e with
  | AxiosErr _ code (Some r) => (status r =? 408) || code_is code "ECONNABORTED"
  | _ => false
  end.

Definition status_in (e : JsError) (lo hi : Z) : bool :=
  match http_status e with
  | Some s => (lo <=? s) && (s <=? hi)
  | None => false
  end.

Definition status_is (e : JsError) (n : Z) : bool := status_in e n n.

Definition spec_rules : list ((JsError -> bool) * (APIErrorType * bool)) :=
  [ (no_transport_response, (network, true));
    (timeout_or_aborted, (timeout, true));
    (fun e => status_is e 429, (rate_limit, true));
    (fun e => status_is e 401 || status_is e 403, (authentication, false));
    (fun e => status_in e 400 499, (bad_request, false));
    (fun e => status_in e 500 599, (server, true)) ].

Fixpoint first_match (rules : list ((JsError -> bool) * (APIErrorType * bool)))
         (e : JsError) : APIErrorType * bool :=
  match rules with
  | [] => (unknown, false)
  | (applies, verdict) :: rest =>
      if applies e then verdict else first_match rest e
  end.

Definition classify_spec (e : JsError) : APIErrorType * bool :=
  first_match spec_rules e.

Definition verdict (e : JsError) : APIErrorType * bool :=
  (type (categorizeError e), retryable (categorizeError e)).

Definition status_from (e : JsError) (lo : Z) : bool :=
  match http_status e with
  | Some s => lo <=? s
  | None => false
  end.

(** The same rules, the last one taking every status from 500 up. *)
Definition amended_rules : list ((JsError -> bool) * (APIErrorType * bool)) :=
  [ (no_transport_response, (network, true));
    (timeout_or_aborted, (timeout, true));
    (fun e => status_is e 429, (rate_limit, true));
    (fun e => status_is e 401 || status_is e 403, (authentication, false));
    (fun e => status_in e 400 499, (bad_request, false));
    (fun e => status_from e 500, (server, true)) ].

(** A 429 response that carries the header [Retry-After]. *)
Definition rate_limited (retryAfter : string) : JsError :=
  AxiosErr "Request failed with status code 429" (Some "ERR_BAD_REQUEST")
           (Some (mkAxiosResponse 429 "" [("retry-after", retryAfter)])).

(** The header [Retry-After] of the response of an error, if any. *)
Definition retry_after (e : JsError) : option string :=
  match e with
  | AxiosErr _ _ (Some response) => lookup "retry-after" (headers response)
  | _ => None
  end.

(** An operation that is always refused with a 429 response carrying
    the header [Retry-After]. *)
Definition throttled (retryAfter : string) (k : nat) : Result JsError Z :=
  Throw (rate_limited retryAfter).

(** Sample operations: a 503 failure, a 401 failure, an operation that
    fails twice with a 503 and then returns 42, one that is refused
    with a 401, and one that always fails with a 503. *)
Definition http_failure (status : Z) : JsError :=
  AxiosErr "Request failed" (Some "ERR_BAD_RESPONSE")
           (Some (mkAxiosResponse status "" [])).

Definition flaky (k : nat) : Result JsError Z :=
  if (k <? 2)%nat then Throw (http_failure 503) else Ok 42.

Definition refused (k : nat) : Result JsError Z := Throw (http_failure 401).

Definition down (k : nat) : Result JsError Z := Throw (http_failure 503).

(** *** Expected backoff

    [Math.random()] returns one of finitely many equally likely values
    of [[0, 1)]; with [M] of them, evenly spaced, the expected delay is
    the mean of [calculateBackoff] over the grid. *)
Definition grid (M : positive) : list Q :=
  map (fun k => (Z.of_nat k # M)%Q) (seq 0 (Pos.to_nat M)).

Definition Qsum (l : list Q) : Q := fold_right Qplus 0%Q l.

Definition expectedBackoff (M : positive) (attempt : Z) : Q :=
  (Qsum (map (fun r => calculateBackoff r attempt) (grid M))
   / inject_Z (Z.pos M))%Q.

(** The calls made before call [k] all failed with a retryable error. *)
Definition failed_before {T} (fn : nat -> Result JsError T) (k : nat) : Prop :=
  forall j, (j < k)%nat ->
    exists e, fn j = Throw e /\ retryable (categorizeError e) = true.

(** A delay between [BASE_DELAY] and [MAX_DELAY]. *)
Definition within_bounds (d : Number) : Prop :=
  exists q, d = Num q /\ (1000 <= q <= 10000)%Q.

End APIErrorHandler.

(* ================================================================= *)
(** ** src/ai/models/llmRequest.ts and src/ai/models/llmResponse.ts *)

Module Models.

Inductive Role : Type := user | assistant | system.

Record ConversationMessage : Type := mkConversationMessage {
  role : Role;
  content : string;
  timestamp : option Z
}.

Record GenerationParams : Type := mkParams {
  maxTokens : option Z;
  temperature : option Q
}.

Record LLMRequest : Type := mkLLMRequest {
  prompt : string;
  params : option GenerationParams;
  requestId : option string
}.

Record ChatLLMRequest : Type := mkChatLLMRequest {
  chat_prompt : string;
  chat_params : option GenerationParams;
  chat_requestId : option string;
  chat_timestamp : option Z;
  conversationHistory : list ConversationMessage;
  systemMessage : option string
}.

Record TokenUsage : Type := mkTokenUsage {
  promptTokens : Z;
  completionTokens : Z;
  totalTokens : Z
}.

Inductive FinishReason : Type :=
| stop | length | content_filter | timeout | error.

Inductive SourceType : Type := local | api.

Record LLMResponse : Type := mkLLMResponse {
  generatedText : string;
  tokenUsage : option TokenUsage;
  finishReason : option FinishReason;
  model : option string;
  response_error : option string;
  response_timestamp : option Z;
  response_requestId : option string;
  latency : option Z
}.

Record ChatLLMResponse : Type := mkChatLLMResponse {
  base : LLMResponse;
  updatedConversation : list ConversationMessage;
  sourceType : SourceType
}.

Record CodeLLMResponse : Type := mkCodeLLMResponse {
  code_base : LLMResponse;
  language : string;
  explanation : option string
}.

End Models.

(* ================================================================= *)
(** ** src/ai/localLLM/localInference.ts *)

Module LocalInference.
Import Js.
Import APIErrorHandler (JsError, error_text).

Record State : Type := mkState {
  inferenceCount : Z;
  activeInferences : Z
}.

Definition MAX_CONCURRENT_INFERENCES : Z := 4.

Definition initial : State := mkState 0 0.

Definition busy_message : string :=
  "Maximum concurrent inferences limit reached. Please try again later.".

(** [text.split(' ').length] *)
Fixpoint split_count (text : string) : Z :=
  match text with
  | EmptyString => 1
  | String c rest =>
      (if Ascii.eqb c " " then 1 else 0) + split_count rest
  end.

Definition quote : string := String (ascii_of_nat 34) EmptyString.

(** What the statements of a [try] block compute before the response is
    built: the preprocessed prompt and the name found in the metadata of
    the loaded model; or the exception raised by [ensureModelLoaded],
    [loadConfig] or [getModel]. *)
Definition TryBlock : Type := Result JsError (string * option string).

(** The statements of [runInference] before the [try]: the request is
    counted, refused at the limit, admitted otherwise. *)
Definition runInference_enter (st : State) (request : Models.LLMRequest)
           (uuid : string) (now : Z)
  : State * string * option Models.LLMResponse :=
  let requestId :=
    match or_else (Models.requestId request) (Some uuid) with
    | Some r => r
    | None => uuid
    end in
  let st := mkState (inferenceCount st + 1) (activeInferences st) in
  if MAX_CONCURRENT_INFERENCES <=? activeInferences st then
    (st, requestId,
     Some (Models.mkLLMResponse "" None (Some Models.error) None
             (Some busy_message) (Some now) (Some requestId) (Some 0)))
  else
    (mkState (inferenceCount st) (activeInferences st + 1), requestId, None).

(** The [try], [catch] and [finally] of [runInference]. *)
Definition runInference_leave (st : State) (requestId : string)
           (startTime : Z) (block : TryBlock) (now : Z)
  : State * Models.LLMResponse :=
  let response :=
    match block with
    | Ok (processedPrompt, name) =>
        let generatedText :=
          "This is a mock generated response for prompt: " ++ quote
          ++ substring 0 30 processedPrompt ++ "..." ++ quote in
        Models.mkLLMResponse generatedText
          (Some (Models.mkTokenUsage
                   (split_count processedPrompt)
                   (split_count generatedText)
                   (split_count processedPrompt + split_count generatedText)))
          (Some Models.stop)
          (Some match or_else name (Some "local-model") with
                | Some n => n
                | None => "local-model"
                end)
          None (Some now) (Some requestId) (Some (now - startTime))
    | Throw e =>
        Models.mkLLMResponse "" None (Some Models.error) None
          (Some ("Local inference failed: " ++ error_text e))
          (Some now) (Some requestId) (Some (now - startTime))
    end in
  (mkState (inferenceCount st) (activeInferences st - 1), response).

(** A whole call of [runInference] that nothing interleaves with. *)
Definition runInference (st : State) (request : Models.LLMRequest)
           (uuid : string) (startTime : Z) (block : TryBlock) (now : Z)
  : State * Models.LLMResponse :=
  match runInference_enter st request uuid startTime with
  | (st', _, Some rejection) => (st', rejection)
  | (st', requestId, None) =>
      runInference_leave st' requestId startTime block now
  end.

Definition runChatInference_enter (st : State)
           (request : Models.ChatLLMRequest) (uuid : string) (now : Z)
  : State * string * option Models.ChatLLMResponse :=
  let requestId :=
    match or_else (Models.chat_requestId request) (Some uuid) with
    | Some r => r
    | None => uuid
    end in
  let st := mkState (inferenceCount st + 1) (activeInferences st) in
  if MAX_CONCURRENT_INFERENCES <=? activeInferences st then
    (st, requestId,
     Some (Models.mkChatLLMResponse
             (Models.mkLLMResponse "" None (Some Models.error) None
                (Some busy_message) (Some now) (Some requestId) (Some 0))
             (Models.conversationHistory request) Models.local))
  else
    (mkState (inferenceCount st) (activeInferences st + 1), requestId, None).

Definition runChatInference_leave (st : State)
           (request : Models.ChatLLMRequest) (requestId : string)
           (startTime : Z) (block : TryBlock) (now : Z)
  : State * Models.ChatLLMResponse :=
  let response :=
    match block with
    | Ok (processedPrompt, name) =>
        let generatedText :=
          "This is a mock chat response from the local model." in
        Models.mkChatLLMResponse
          (Models.mkLLMResponse generatedText
             (Some (Models.mkTokenUsage
                      (split_count processedPrompt)
                      (split_count generatedText)
                      (split_count processedPrompt
                       + split_count generatedText)))
             (Some Models.stop)
             (Some match or_else name (Some "local-model") with
                   | Some n => n
                   | None => "local-model"
                   end)
             None (Some now) (Some requestId) (Some (now - startTime)))
          (Models.conversationHistory request
           ++ [Models.mkConversationMessage Models.assistant generatedText
                 (Some now)])%list
          Models.local
    | Throw e =>
        Models.mkChatLLMResponse
          (Models.mkLLMResponse "" None (Some Models.error) None
             (Some ("Local chat inference failed: " ++ error_text e))
             (Some now) (Some requestId) (Some (now - startTime)))
          (Models.conversationHistory request) Models.local
    end in
  (mkState (inferenceCount st) (activeInferences st - 1), response).

Definition runChatInference (st : State) (request : Models.ChatLLMRequest)
           (uuid : string) (startTime : Z) (block : TryBlock) (now : Z)
  : State * Models.ChatLLMResponse :=
  match runChatInference_enter st request uuid startTime with
  | (st', _, Some rejection) => (st', rejection)
  | (st', requestId, None) =>
      runChatInference_leave st' request requestId startTime block now
  end.

Definition getStats (st : State) : Z * Z :=
  (inferenceCount st, activeInferences st).

(** *** Interleaved calls

    Calls of the two functions overlap only at their [await]s, all of
    which are inside the [try] block. A call therefore runs in two
    atomic pieces: the statements before the [try], and, some time
    later, the end of the [try] with its [catch] and [finally]. *)

Inductive Request : Type :=
| Text (request : Models.LLMRequest)
| Chat (request : Models.ChatLLMRequest).

Inductive Response : Type :=
| TextResponse (r : Models.LLMResponse)
| ChatResponse (r : Models.ChatLLMResponse).

Definition response_base (r : Response) : Models.LLMResponse :=
  match r with
  | TextResponse r => r
  | ChatResponse r => Models.base r
  end.

(** An admitted call suspended inside its [try] block. *)
Record Suspended : Type := mkSuspended {
  suspended_request : Request;
  suspended_id : string;
  suspended_start : Z
}.

Record System : Type := mkSystem {
  state : State;
  suspended : list Suspended;
  returned : list Response;
  admitted : nat;   (* calls that went past the limit check *)
  released : nat    (* executions of a [finally] block *)
}.

Definition boot : System := mkSystem initial [] [] 0 0.

Inductive Event : Type :=
| Arrive (request : Request) (uuid : string) (now : Z)
| Finish (index : nat) (block : TryBlock) (now : Z).

Fixpoint remove_nth {A} (n : nat) (l : list A) : list A :=
  match n, l with
  | _, [] => []
  | O, _ :: rest => rest
  | S n', x :: rest => x :: remove_nth n' rest
  end.

Definition arrive (sys : System) (request : Request) (uuid : string)
           (now : Z) : System :=
  match request with
  | Text req =>
      match runInference_enter (state sys) req uuid now with
      | (st, _, Some rejection) =>
          mkSystem st (suspended sys)
                   (returned sys ++ [TextResponse rejection])
                   (admitted sys) (released sys)
      | (st, requestId, None) =>
          mkSystem st (suspended sys ++ [mkSuspended request requestId now])
                   (returned sys) (S (admitted sys)) (released sys)
      end
  | Chat req =>
      match runChatInference_enter (state sys) req uuid now with
      | (st, _, Some rejection) =>
          mkSystem st (suspended sys)
                   (returned sys ++ [ChatResponse rejection])
                   (admitted sys) (released sys)
      | (st, requestId, None) =>
          mkSystem st (suspended sys ++ [mkSuspended request requestId now])
                   (returned sys) (S (admitted sys)) (released sys)
      end
  end.

Definition finish (sys : System) (index : nat) (block : TryBlock)
           (now : Z) : System :=
  match nth_error (suspended sys) index with
  | None => sys
  | Some call =>
      match suspended_request call with
      | Text _ =>
          let '(st, response) :=
            runInference_leave (state sys) (suspended_id call)
                               (suspended_start call) block now in
          mkSystem st (remove_nth index (suspended sys))
                   (returned sys ++ [TextResponse response])
                   (admitted sys) (S (released sys))
      | Chat req =>
          let '(st, response) :=
            runChatInference_leave (state sys) req (suspended_id call)
                                   (suspended_start call) block now in
          mkSystem st (remove_nth index (suspended sys))
                   (returned sys ++ [ChatResponse response])
                   (admitted sys) (S (released sys))
      end
  end.

Definition step (sys : System) (ev : Event) : System :=
  match ev with
  | Arrive request uuid now => arrive sys request uuid now
  | Finish index block now => finish sys index block now
  end.

Definition run (events : list Event) : System :=
  fold_left step events boot.

(** The error response of a refused call. *)
Definition is_busy_response (r : Models.LLMResponse) : Prop :=
  Models.response_error r = Some busy_message
  /\ Models.finishReason r = Some Models.error
  /\ Models.generatedText r = "".

Definition active (sys : System) : Z := activeInferences (state sys).

(** The counter is the number of calls suspended in their [try] block,
    which is the number of admissions not yet matched by a [finally]. *)
Definition invariant (sys : System) : Prop :=
  active sys = Z.of_nat (List.length (suspended sys))
  /\ active sys <= MAX_CONCURRENT_INFERENCES
  /\ admitted sys = (released sys + List.length (suspended sys))%nat.

(** Five requests arriving before any of them ends. *)
Definition sample_request : Request :=
  Text (Models.mkLLMRequest "Write a parser" None None).

Definition four_arrivals : list Event :=
  [ Arrive sample_request "u-1" 10; Arrive sample_request "u-2" 11;
    Arrive sample_request "u-3" 12; Arrive sample_request "u-4" 13 ].

(** The number of calls received among the events. *)
Definition arrivals (events : list Event) : nat :=
  List.length (filter (fun ev => match ev with Arrive _ _ _ => true
                                          | Finish _ _ _ => false end)
                      events).

(** The id under which a chat request is answered. *)
Definition answer_id (request : Models.ChatLLMRequest) (uuid : string)
  : string :=
  match Models.chat_requestId request with
  | Some r => if truthy r then r else uuid
  | None => uuid
  end.

End LocalInference.

(* ================================================================= *)
(** ** src/ai/localLLM/resourceManager.ts *)

Module ResourceManager.
Import Js.

(** What [os.totalmem()], [os.freemem()] (bytes) and [os.cpus().length]
    return. *)
Record Os : Type := mkOs {
  totalmem : Q;
  freemem : Q;
  cpus : Z
}.

(** The metadata of a model that is not [null]: the record that the
    loader builds, or whatever the file [metadata.json] holds. The
    manager takes it as [any]; it only tests and converts [size], which
    need not be a number. A field that [metadata.json] does not have is
    [undefined]: for [size], falsy and converted to [NaN]. The other
    fields, which the code only stores or prints, stand for their
    text. *)
Record ModelMetadata : Type := mkMetadata {
  name : string;
  version : string;
  type : string;
  quantization : string;
  size : Any;
  parameters : Z;
  modelFormat : string;
  lastModified : Z
}.

Record State : Type := mkState {
  resourcesAllocated : bool;
  reservedCores : Z;
  reservedMemory : Number;
  usingGPU : bool
}.

Definition initial : State := mkState false 0 (Num 0) false.

Definition MINIMUM_MEMORY_REQUIRED : Q := 2048.
Definition SYSTEM_MEMORY_BUFFER : Q := 1024.
Definition MAX_CPU_USAGE_PERCENT : Z := 75.

Record GpuInfo : Type := mkGpu {
  available : bool;
  memory : option Z
}.

Definition checkGPUAvailability : GpuInfo := mkGpu false (Some 0).

(** [modelMetadata] is [None] for [null]. *)
Definition calculateRequiredMemory (modelMetadata : option ModelMetadata)
  : Number :=
  match modelMetadata with
  | Some m =>
      if is_truthy (size m) then
        let sizeInMB :=
          divide (to_number (size m)) (Num (inject_Z (1024 * 1024))) in
        max (Num MINIMUM_MEMORY_REQUIRED) (times sizeInMB (Num 3))
      else Num MINIMUM_MEMORY_REQUIRED
  | None => Num MINIMUM_MEMORY_REQUIRED
  end.

Record Details : Type := mkDetails {
  availableMemory : Q;
  requiredMemory : Number;
  availableCores : Z;
  gpuAvailable : bool;
  gpuMemory : option Z
}.

Record ResourceCheckResult : Type := mkCheck {
  sufficient : bool;
  reason : option string;
  details : Details
}.

Definition checkResources (os : Os) (modelMetadata : option ModelMetadata)
  : ResourceCheckResult :=
  let freeMemory := (freemem os / inject_Z (1024 * 1024))%Q in
  let availableMemory := (freeMemory - SYSTEM_MEMORY_BUFFER)%Q in
  let requiredMemory := calculateRequiredMemory modelMetadata in
  let totalCores := cpus os in
  let availableCores := totalCores * MAX_CPU_USAGE_PERCENT / 100 in
  let gpuInfo := checkGPUAvailability in
  let details :=
    mkDetails availableMemory requiredMemory availableCores
              (available gpuInfo) (memory gpuInfo) in
  if less (Num availableMemory) requiredMemory then
    mkCheck false
      (Some ("Insufficient memory: " ++ string_of_Z (round availableMemory)
             ++ "MB available, " ++ show_rounded requiredMemory
             ++ "MB required"))
      details
  else mkCheck true None details.

Definition allocateResources (st : State) (os : Os)
           (modelMetadata : option ModelMetadata) : State :=
  if resourcesAllocated st then st
  else
    let requiredMemory := calculateRequiredMemory modelMetadata in
    let totalCores := cpus os in
    let coresToUse := totalCores * MAX_CPU_USAGE_PERCENT / 100 in
    let gpuInfo := checkGPUAvailability in
    mkState true coresToUse requiredMemory (available gpuInfo).

Definition releaseResources (st : State) : State :=
  if negb (resourcesAllocated st) then st
  else mkState false 0 (Num 0) false.

(** [getResourceAllocation]: allocated, memory, cores, gpu. *)
Definition getResourceAllocation (st : State) : bool * Number * Z * bool :=
  (resourcesAllocated st, reservedMemory st, reservedCores st, usingGPU st).

(** Calls of [allocateResources] and [releaseResources] in any order. *)
Inductive Op : Type :=
| Allocate (os : Os) (modelMetadata : option ModelMetadata)
| Release.

Definition apply (st : State) (op : Op) : State :=
  match op with
  | Allocate os modelMetadata => allocateResources st os modelMetadata
  | Release => releaseResources st
  end.

Definition run (ops : list Op) : State := fold_left apply ops initial.

(** What is reserved after a sequence of calls: at least the minimum,
    or [NaN] after the allocation for a size that is not a number. *)
Definition reserved_for (ops : list Op) (r : Number) : Prop :=
  (exists q, r = Num q /\ (2048 <= q)%Q)
  \/ r = Infinity false
  \/ (r = NaN
      /\ exists os meta,
           In (Allocate os (Some meta)) ops
           /\ is_truthy (size meta) = true
           /\ to_number (size meta) = NaN).

(** A size that is a number of bytes. *)
Definition bytes (n : Z) : Any := of_number (Num (inject_Z n)).

(** A machine with 8 cores and 16 GB of free memory, a model of 4 GB,
    one of 8 GB, and one whose [metadata.json] gives the size as the
    text ["7B"]: truthy, and [NaN] as a number. *)
Definition sample_os : Os :=
  mkOs (inject_Z 34359738368) (inject_Z 17179869184) 8.

Definition sample_model : ModelMetadata :=
  mkMetadata "llama-7b-int8" "1.0.0" "llama" "int8" (bytes 4294967296) 0
             "bin" 0.

Definition large_model : ModelMetadata :=
  mkMetadata "llama-13b-fp16" "1.0.0" "llama" "fp16" (bytes 8589934592) 0
             "bin" 0.

Definition unsized_model : ModelMetadata :=
  mkMetadata "llama-7b" "1.0.0" "llama" "int8" (mkAny true NaN) 0 "bin" 0.

(** A machine with no free memory at all. *)
Definition exhausted_os : Os := mkOs (inject_Z 34359738368) 0 8.

End ResourceManager.

(* ================================================================= *)
(** ** src/ai/localLLM/localModelLoader.ts *)

Module LocalModelLoader.
Import Js.
Import APIErrorHandler (JsError, PlainErr, error_text).
Import ResourceManager (ModelMetadata, mkMetadata).

(** The placeholder model object; its [predict] method is [predict]
    below. *)
Record ModelInstance : Type := mkModel {
  model_name : string;
  loaded : bool
}.

Definition predict (input : string) : string :=
  "Generated output for: " ++ input.

Record State : Type := mkState {
  currentModel : option ModelInstance;
  modelPath : string;
  modelMetadata : option ModelMetadata;
  isLoading : bool;
  lastLoadTime : Z
}.

Definition initial : State := mkState None "" None false 0.

(** The file system, the [path] module, the clock and the configuration
    as the loader sees them. [readMetadata p] is the result of reading
    the file [p] and parsing it as JSON, [None] when the file holds
    [null]; [stat p] gives the size and the modification time of
    [p]. *)
Record Env : Type := mkEnv {
  existsSync : string -> bool;
  readMetadata : string -> Result JsError (option ModelMetadata);
  readdir : string -> Result JsError (list string);
  stat : string -> Result JsError (Z * Z);
  join : string -> string -> string;
  extname : string -> string;
  basename : string -> string;
  basename_without : string -> string -> string;
  resolve : string -> string;
  now : Z;
  getModelPath : Result JsError string;
  os : ResourceManager.Os
}.

Definition isModelLoaded (st : State) : bool :=
  match currentModel st with Some _ => true | None => false end.

Definition getModel (st : State) : Result JsError ModelInstance :=
  match currentModel st with
  | Some m => Ok m
  | None => Throw (PlainErr "No model currently loaded. Call loadModel() first.")
  end.

Definition getModelMetadata (st : State) : option ModelMetadata :=
  modelMetadata st.

Definition list_includes (l : list string) (x : string) : bool :=
  existsb (String.eqb x) l.

(** The [try] block of [extractModelMetadata]; [None] is [null]. *)
Definition extractModelMetadata_try (env : Env) (modelDirectory : string)
  : Result JsError (option ModelMetadata) :=
  let metadataPath := join env modelDirectory "metadata.json" in
  if existsSync env metadataPath then readMetadata env metadataPath
  else
    bind (readdir env modelDirectory) (fun files =>
    let modelFiles :=
      filter (fun f => ends_with f ".bin" || ends_with f ".onnx"
                       || ends_with f ".pt" || ends_with f ".tensorrt")
             files in
    match modelFiles with
    | [] => Throw (PlainErr ("No valid model files found in " ++ modelDirectory))
    | mainModelFile :: _ =>
        bind (stat env (join env modelDirectory mainModelFile)) (fun stats =>
        let extension :=
          let e := extname env mainModelFile in
          substring 1 (String.length e - 1) e in
        let modelFormat := extension in
        let filename :=
          basename_without env mainModelFile (extname env mainModelFile) in
        let nameParts := split "-" filename in
        Ok (Some (mkMetadata filename "1.0.0"
              (match nameParts with
               | p :: _ => if truthy p then p else "unknown"
               | [] => "unknown"
               end)
              (if list_includes nameParts "int8" then "int8"
               else if list_includes nameParts "fp16" then "fp16"
               else "fp32")
              (of_number (Num (inject_Z (fst stats)))) 0 modelFormat
              (snd stats))))
    end).

(** [extractModelMetadata]: every failure of the [try] block is replaced
    by minimal metadata. *)
Definition extractModelMetadata (env : Env) (modelDirectory : string)
  : option ModelMetadata :=
  match extractModelMetadata_try env modelDirectory with
  | Ok m => m
  | Throw _ =>
      Some (mkMetadata (basename env modelDirectory) "1.0.0" "unknown"
                       "unknown" (of_number (Num 0)) 0 "unknown" (now env))
  end.

(** What reading the property [name] of [null] raises. *)
Definition name_of_null : JsError :=
  PlainErr "Cannot read properties of null (reading 'name')".

(** The [try] block of [loadModel], from the loader and the resource
    manager as they are once the guard has been set. *)
Definition loadModel_try (env : Env) (st : State)
           (rm : ResourceManager.State) (path : option string)
  : State * ResourceManager.State * Result JsError unit :=
  match (if truthy_opt path
         then Ok match path with Some p => p | None => "" end
         else getModelPath env) with
  | Throw e => (st, rm, Throw e)
  | Ok configPath =>
      if negb (truthy configPath) then
        (st, rm, Throw (PlainErr "No model path specified"))
      else if negb (existsSync env configPath) then
        (st, rm,
         Throw (PlainErr ("Model path does not exist: " ++ configPath)))
      else
        let st :=
          mkState (currentModel st) (resolve env configPath)
                  (modelMetadata st) (isLoading st) (lastLoadTime st) in
        let metadata := extractModelMetadata env (modelPath st) in
        let st :=
          mkState (currentModel st) (modelPath st) metadata
                  (isLoading st) (lastLoadTime st) in
        let resourceCheck :=
          ResourceManager.checkResources (os env) metadata in
        if negb (ResourceManager.sufficient resourceCheck) then
          (st, rm,
           Throw (PlainErr
                    ("Insufficient resources to load model: "
                     ++ match ResourceManager.reason resourceCheck with
                        | Some r => r
                        | None => "undefined"
                        end)))
        else
          let rm :=
            ResourceManager.allocateResources rm (os env) metadata in
          match metadata with
          | None => (st, rm, Throw name_of_null)
          | Some found =>
              let st :=
                mkState (Some (mkModel (ResourceManager.name found) true))
                        (modelPath st) (modelMetadata st) (isLoading st)
                        (now env) in
              (st, rm, Ok tt)
          end
  end.

Definition in_progress : JsError :=
  PlainErr "Model loading already in progress".

(** [loadModel]: the guard, then the [try] block with its [catch] and
    [finally]. *)
Definition loadModel (env : Env) (st : State) (rm : ResourceManager.State)
           (path : option string)
  : State * ResourceManager.State * Result JsError unit :=
  if isLoading st then (st, rm, Throw in_progress)
  else
    let st :=
      mkState (currentModel st) (modelPath st) (modelMetadata st) true
              (lastLoadTime st) in
    match loadModel_try env st rm path with
    | (st, rm, Ok tt) =>
        (mkState (currentModel st) (modelPath st) (modelMetadata st) false
                 (lastLoadTime st), rm, Ok tt)
    | (st, rm, Throw error) =>
        let rm := ResourceManager.releaseResources rm in
        (mkState None (modelPath st) None false (lastLoadTime st), rm,
         Throw error)
    end.

(** The first statements of [loadModel], up to its first [await]: the
    state in which a load that has started and not yet ended leaves the
    loader. *)
Definition loadModel_started (st : State) : State :=
  if isLoading st then st
  else mkState (currentModel st) (modelPath st) (modelMetadata st) true
               (lastLoadTime st).

Definition unloadModel (st : State) (rm : ResourceManager.State)
  : State * ResourceManager.State :=
  match currentModel st with
  | Some _ =>
      (mkState None (modelPath st) None (isLoading st) (lastLoadTime st),
       ResourceManager.releaseResources rm)
  | None => (st, rm)
  end.

(** A machine with no model directory and 16 GB of free memory. *)
Definition empty_env : Env :=
  mkEnv (fun _ => false)
        (fun _ => Throw (PlainErr "ENOENT"))
        (fun _ => Throw (PlainErr "ENOENT"))
        (fun _ => Throw (PlainErr "ENOENT"))
        (fun a b => a ++ "/" ++ b)
        (fun _ => "") (fun p => p) (fun p _ => p) (fun p => p)
        1700000000000
        (Ok "")
        (ResourceManager.mkOs (inject_Z 34359738368)
                              (inject_Z 17179869184) 8).

(** The same machine with one model directory, [/models/llama], that
    holds a 4 GB weight file and no [metadata.json]; and with a
    [metadata.json] whose content is [null]. *)
Definition model_env : Env :=
  mkEnv (fun p => String.eqb p "/models/llama")
        (fun _ => Throw (PlainErr "ENOENT"))
        (fun _ => Ok ["README.md"; "llama-7b-int8.bin"])
        (fun _ => Ok (4294967296, 1690000000000))
        (fun a b => a ++ "/" ++ b)
        (fun _ => ".bin") (fun _ => "llama")
        (fun _ _ => "llama-7b-int8") (fun p => p)
        1700000000000
        (Ok "/models/llama")
        (ResourceManager.mkOs (inject_Z 34359738368)
                              (inject_Z 17179869184) 8).

(** The loader and the resource manager after a first, successful load,
    and the loader once a second load has started. *)
Definition null_env : Env :=
  mkEnv (fun _ => true)
        (fun _ => Ok None)
        (fun _ => Ok ["metadata.json"; "llama-7b-int8.bin"])
        (fun _ => Ok (4294967296, 1690000000000))
        (fun a b => a ++ "/" ++ b)
        (fun _ => ".bin") (fun _ => "llama")
        (fun _ _ => "llama-7b-int8") (fun p => p)
        1700000000000
        (Ok "/models/llama")
        (ResourceManager.mkOs (inject_Z 34359738368)
                              (inject_Z 17179869184) 8).

Definition after_first_load : State * ResourceManager.State :=
  fst (loadModel model_env initial ResourceManager.initial None).

Definition reload_started : State :=
  loadModel_started (fst after_first_load).

(** The path that [loadModel] loads: its argument, or the configured
    path when the argument is missing or empty. *)
Definition requested_path (env : Env) (path : option string)
  : Result JsError string :=
  if truthy_opt path
  then Ok match path with Some p => p | None => "" end
  else getModelPath env.

(** [scanAvailableModels]. [getModelPath env] is the model path of the
    configuration that [loadConfig] resolves to, or what it rejects
    with; [dirname] is [path.dirname]; [entries p] is the result of
    [readdir(p, { withFileTypes: true })], each entry with its name and
    whether it is a directory. [extractModelMetadata] never raises, so
    the [catch] around it is never entered. *)
Definition scanAvailableModels (env : Env) (dirname : string -> string)
           (entries : string -> Result JsError (list (string * bool)))
           (baseDir : option string) : list (option ModelMetadata) :=
  match getModelPath env with
  | Throw _ => []
  | Ok configured =>
      let modelBaseDir :=
        if truthy_opt baseDir
        then match baseDir with Some b => b | None => "" end
        else dirname configured in
      if negb (existsSync env modelBaseDir) then []
      else
        match entries modelBaseDir with
        | Throw _ => []
        | Ok found =>
            map (fun dir =>
                   extractModelMetadata env (join env modelBaseDir (fst dir)))
                (filter snd found)
        end
  end.

(** The minimal metadata that [extractModelMetadata] gives for a
    directory it cannot read. *)
Definition minimal_metadata (env : Env) (modelDirectory : string)
  : option ModelMetadata :=
  Some (mkMetadata (basename env modelDirectory) "1.0.0" "unknown" "unknown"
                   (of_number (Num 0)) 0 "unknown" (now env)).

End LocalModelLoader.

(* ================================================================= *)
(** ** src/ai/chat/chatController.ts *)

Module ChatController.
Import Js.
Import APIErrorHandler (JsError, PlainErr, error_text).

Inductive Json : Type :=
| JNull
| JBool (b : bool)
| JNum (z : Z)
| JStr (s : string).

Record ChatMessage : Type := mkMessage {
  id : string;
  role : Models.Role;
  content : string;
  timestamp : Z;
  hasCode : option bool;
  codeLanguage : option string
}.

Record ChatSession : Type := mkSession {
  session_id : string;
  title : string;
  messages : list ChatMessage;
  createdAt : Z;
  updatedAt : Z;
  systemMessage : option string;
  metadata : list (string * Json)
}.

(** The fields of the controller that make the conversation store. *)
Record State : Type := mkState {
  sessions : list (string * ChatSession);   (* Map<string, ChatSession> *)
  activeSession : option string
}.

(** The two keys of [globalState] that the controller uses. *)
Record Memento : Type := mkMemento {
  chatSessions : option (list (string * ChatSession));
  stored_activeSession : option string
}.

(** A controller before [loadSessions] has run. *)
Definition fresh : State := mkState [] None.

Definition not_found (sessionId : string) : JsError :=
  PlainErr ("Chat session not found: " ++ sessionId).

(** [sessions.sort((a, b) => b.updatedAt - a.updatedAt)]: most recent
    first, the order of equally recent sessions kept. *)
Fixpoint insert_recent (s : ChatSession) (l : list ChatSession)
  : list ChatSession :=
  match l with
  | [] => [s]
  | x :: rest =>
      if updatedAt s <? updatedAt x then x :: insert_recent s rest
      else s :: x :: rest
  end.

Definition sort_recent (l : list ChatSession) : list ChatSession :=
  fold_right insert_recent [] l.

Definition getAllSessions (st : State) : list ChatSession :=
  sort_recent (map snd (sessions st)).

Definition loadSessions (storage : Memento) (st : State) : State :=
  let sessions :=
    match chatSessions storage with
    | Some savedSessions =>
        fold_left (fun m session => assoc_set (session_id session) session m)
                  (map snd savedSessions) (sessions st)
    | None => sessions st
    end in
  let most_recent :=
    match sort_recent (map snd sessions) with
    | first :: _ => Some (session_id first)
    | [] => activeSession st
    end in
  mkState sessions
    match stored_activeSession storage with
    | Some activeSessionId =>
        if truthy activeSessionId && assoc_has activeSessionId sessions
        then Some activeSessionId
        else most_recent
    | None => most_recent
    end.

Definition saveSessions (st : State) (storage : Memento) : Memento :=
  let sessionsObject :=
    fold_left (fun obj entry => assoc_set (fst entry) (snd entry) obj)
              (sessions st) [] in
  let storage := mkMemento (Some sessionsObject) (stored_activeSession storage) in
  if truthy_opt (activeSession st)
  then mkMemento (chatSessions storage) (activeSession st)
  else storage.

Definition createSession (st : State) (title systemMessage : option string)
           (sessionId messageId : string) (now : Z) : State * string :=
  let newSession :=
    mkSession sessionId
      (if truthy_opt title
       then match title with Some t => t | None => "" end
       else "Chat Session "
            ++ string_of_Z (Z.of_nat (List.length (sessions st)) + 1))
      (if truthy_opt systemMessage
       then [mkMessage messageId Models.system
               match systemMessage with Some m => m | None => "" end
               now None None]
       else [])
      now now systemMessage [] in
  (mkState (assoc_set sessionId newSession (sessions st)) (Some sessionId),
   sessionId).

Definition getSession (st : State) (sessionId : string) : option ChatSession :=
  lookup sessionId (sessions st).

Definition getActiveSession (st : State) : option ChatSession :=
  match activeSession st with
  | Some a => if truthy a then lookup a (sessions st) else None
  | None => None
  end.

Definition setActiveSession (st : State) (sessionId : string)
  : State * Result JsError unit :=
  if negb (assoc_has sessionId (sessions st))
  then (st, Throw (not_found sessionId))
  else (mkState (sessions st) (Some sessionId), Ok tt).

Record Updates : Type := mkUpdates {
  new_title : option string;
  new_systemMessage : option string;
  new_metadata : option (list (string * Json))
}.

Definition is_system (m : ChatMessage) : bool :=
  match role m with Models.system => true | _ => false end.

(** [messages[findIndex(system)].content = text] *)
Fixpoint set_system_content (text : string) (l : list ChatMessage)
  : list ChatMessage :=
  match l with
  | [] => []
  | m :: rest =>
      if is_system m
      then mkMessage (id m) (role m) text (timestamp m) (hasCode m)
                     (codeLanguage m) :: rest
      else m :: set_system_content text rest
  end.

(** [messages.splice(findIndex(system), 1)] *)
Fixpoint remove_system (l : list ChatMessage) : list ChatMessage :=
  match l with
  | [] => []
  | m :: rest => if is_system m then rest else m :: remove_system rest
  end.

Definition updateSession (st : State) (sessionId : string)
           (updates : Updates) (messageId : string) (now : Z)
  : State * Result JsError unit :=
  match lookup sessionId (sessions st) with
  | None => (st, Throw (not_found sessionId))
  | Some session =>
      let title1 :=
        if truthy_opt (new_title updates)
        then match new_title updates with Some t => t | None => "" end
        else title session in
      let '(systemMessage1, messages1) :=
        match new_systemMessage updates with
        | None => (systemMessage session, messages session)
        | Some text =>
            (Some text,
             if truthy text then
               if existsb is_system (messages session)
               then set_system_content text (messages session)
               else mkMessage messageId Models.system text now None None
                    :: messages session
             else remove_system (messages session))
        end in
      let metadata1 :=
        match new_metadata updates with
        | Some extra =>
            fold_left (fun obj entry => assoc_set (fst entry) (snd entry) obj)
                      extra (metadata session)
        | None => metadata session
        end in
      let session :=
        mkSession (session_id session) title1 messages1 (createdAt session)
                  now systemMessage1 metadata1 in
      (mkState (assoc_set sessionId session (sessions st)) (activeSession st),
       Ok tt)
  end.

Definition deleteSession (st : State) (sessionId : string)
  : State * Result JsError unit :=
  if negb (assoc_has sessionId (sessions st))
  then (st, Throw (not_found sessionId))
  else
    let st := mkState (assoc_delete sessionId (sessions st)) (activeSession st) in
    let active :=
      match activeSession st with
      | Some a =>
          if String.eqb a sessionId then
            match getAllSessions st with
            | first :: _ => Some (session_id first)
            | [] => None
            end
          else Some a
      | None => None
      end in
    (mkState (sessions st) active, Ok tt).

(** A message with the marks [hasCode] and [codeLanguage] that
    [addUserMessage] and [handleMessage] compute from its text. *)
Definition tagged (messageId : string) (r : Models.Role) (text : string)
           (now : Z) : ChatMessage :=
  if Regex.test Regex.codeBlockRegex text
  then mkMessage messageId r text now (Some true) (Regex.fence_word text)
  else mkMessage messageId r text now None None.

(** [session.messages.push(message); session.updatedAt = message.timestamp] *)
Definition push (session : ChatSession) (message : ChatMessage) : ChatSession :=
  mkSession (session_id session) (title session)
            (messages session ++ [message])%list
            (createdAt session) (timestamp message)
            (systemMessage session) (metadata session).

Definition addUserMessage (st : State) (sessionId text messageId : string)
           (now : Z) : State * Result JsError ChatMessage :=
  match lookup sessionId (sessions st) with
  | None => (st, Throw (not_found sessionId))
  | Some session =>
      let message := tagged messageId Models.user text now in
      (mkState (assoc_set sessionId (push session message) (sessions st))
               (activeSession st),
       Ok message)
  end.

(** [processed] is what [chatService.processMessage] gives: the text of
    its response, or the exception it raises. *)
Definition handleMessage (st : State) (sessionId text : string)
           (userId : string) (now1 : Z)
           (processed : Result JsError string)
           (replyId : string) (now2 : Z)
  : State * Result JsError ChatMessage :=
  match addUserMessage st sessionId text userId now1 with
  | (st, Throw e) => (st, Throw e)
  | (st, Ok _) =>
      match lookup sessionId (sessions st) with
      | None => (st, Throw (not_found sessionId))
      | Some session =>
          let reply :=
            match processed with
            | Ok generatedText =>
                tagged replyId Models.assistant generatedText now2
            | Throw error =>
                mkMessage replyId Models.assistant
                  ("I'm sorry, I encountered an error while processing your message: "
                   ++ error_text error)
                  now2 None None
            end in
          (mkState (assoc_set sessionId (push session reply) (sessions st))
                   (activeSession st),
           Ok reply)
      end
  end.

(** [generated] is what [codeGenerator.generateCode] gives. *)
Definition handleCodeGeneration (st : State) (sessionId prompt : string)
           (userId : string) (now1 : Z)
           (generated : Result JsError Models.CodeLLMResponse)
           (replyId : string) (now2 : Z)
  : State * Result JsError Models.CodeLLMResponse :=
  match lookup sessionId (sessions st) with
  | None => (st, Throw (not_found sessionId))
  | Some _ =>
      let st := fst (addUserMessage st sessionId prompt userId now1) in
      match lookup sessionId (sessions st) with
      | None => (st, Throw (not_found sessionId))
      | Some session =>
          match generated with
          | Ok response =>
              let text := Models.generatedText (Models.code_base response) in
              let formattedResponse :=
                if truthy (Models.language response) && truthy text then
                  Regex.fence ++ Models.language response
                  ++ String (ascii_of_nat 10) text
                  ++ String (ascii_of_nat 10) Regex.fence
                  ++ (if truthy_opt (Models.explanation response)
                      then String (ascii_of_nat 10)
                             (String (ascii_of_nat 10)
                                match Models.explanation response with
                                | Some e => e
                                | None => ""
                                end)
                      else "")
                else text in
              let reply :=
                mkMessage replyId Models.assistant formattedResponse now2
                          (Some true) (Some (Models.language response)) in
              (mkState (assoc_set sessionId (push session reply) (sessions st))
                       (activeSession st),
               Ok response)
          | Throw error =>
              let reply :=
                mkMessage replyId Models.assistant
                  ("I'm sorry, I encountered an error while generating code: "
                   ++ error_text error)
                  now2 None None in
              (mkState (assoc_set sessionId (push session reply) (sessions st))
                       (activeSession st),
               Throw error)
          end
      end
  end.

Definition clearSessionHistory (st : State) (sessionId : string) (now : Z)
  : State * Result JsError unit :=
  match lookup sessionId (sessions st) with
  | None => (st, Throw (not_found sessionId))
  | Some session =>
      let session :=
        mkSession (session_id session) (title session)
                  match find is_system (messages session) with
                  | Some systemMessage => [systemMessage]
                  | None => []
                  end
                  (createdAt session) now
                  (systemMessage session) (metadata session) in
      (mkState (assoc_set sessionId session (sessions st)) (activeSession st),
       Ok tt)
  end.

(** *** Reachable stores

    The public operations that change the store; every one of them ends
    with [saveSessions]. [uuidv4()] never returns the empty string. *)
Inductive Op : Type :=
| CreateSession (title systemMessage : option string)
                (sessionId messageId : string) (now : Z)
| SetActiveSession (sessionId : string)
| UpdateSession (sessionId : string) (updates : Updates)
                (messageId : string) (now : Z)
| DeleteSession (sessionId : string)
| AddUserMessage (sessionId text messageId : string) (now : Z)
| HandleMessage (sessionId text userId : string) (now1 : Z)
                (processed : Result JsError string)
                (replyId : string) (now2 : Z)
| HandleCodeGeneration (sessionId prompt userId : string) (now1 : Z)
                       (generated : Result JsError Models.CodeLLMResponse)
                       (replyId : string) (now2 : Z)
| ClearSessionHistory (sessionId : string) (now : Z).

Definition apply (st : State) (op : Op) : State :=
  match op with
  | CreateSession t m sid mid now => fst (createSession st t m sid mid now)
  | SetActiveSession sid => fst (setActiveSession st sid)
  | UpdateSession sid u mid now => fst (updateSession st sid u mid now)
  | DeleteSession sid => fst (deleteSession st sid)
  | AddUserMessage sid text mid now => fst (addUserMessage st sid text mid now)
  | HandleMessage sid text uid n1 p rid n2 =>
      fst (handleMessage st sid text uid n1 p rid n2)
  | HandleCodeGeneration sid text uid n1 g rid n2 =>
      fst (handleCodeGeneration st sid text uid n1 g rid n2)
  | ClearSessionHistory sid now => fst (clearSessionHistory st sid now)
  end.

Definition valid (op : Op) : Prop :=
  match op with
  | CreateSession _ _ sessionId _ _ => truthy sessionId = true
  | _ => True
  end.

Inductive reachable : State -> Prop :=
| reach_fresh : reachable fresh
| reach_apply st op : reachable st -> valid op -> reachable (apply st op).

(** What holds of every reachable store: the keys of the map are
    distinct, non-empty, and each is the [id] of its session; the active
    session, when there is one, is in the map, and there is one as soon
    as the map is not empty. *)
Definition well_formed (st : State) : Prop :=
  NoDup (map fst (sessions st))
  /\ Forall (fun entry => session_id (snd entry) = fst entry
                          /\ truthy (fst entry) = true) (sessions st)
  /\ match activeSession st with
     | Some a => truthy a = true /\ assoc_has a (sessions st) = true
     | None => sessions st = []
     end.

(** A store with two sessions, the first of which has been written to
    and then made active again. *)
Definition sample_ops : list Op :=
  [ CreateSession (Some "Parser") (Some "Be brief")
                  "3f0c1d52-8a3e-4b1f-9c57-2e6d1a4b7c90" "m-1" 1000;
    CreateSession None None
                  "b7e2a9d4-1c3f-4e8a-a5d6-0f9b8c7e6d5a" "m-2" 2000;
    AddUserMessage "3f0c1d52-8a3e-4b1f-9c57-2e6d1a4b7c90"
                   "How do I parse JSON?" "m-3" 3000;
    SetActiveSession "3f0c1d52-8a3e-4b1f-9c57-2e6d1a4b7c90" ].

Definition sample_store : State := fold_left apply sample_ops fresh.

(** The number of system messages of a list. *)
Definition count_system (l : list ChatMessage) : nat :=
  List.length (filter is_system l).

(** Several calls of [addUserMessage] on one session, each with its
    text, message id and time. *)
Definition addUserMessages (st : State) (sessionId : string)
           (batch : list (string * string * Z)) : State :=
  fold_left (fun st entry =>
               fst (addUserMessage st sessionId (fst (fst entry))
                                   (snd (fst entry)) (snd entry)))
            batch st.

(** [a] was updated no earlier than [b]. *)
Definition not_older (a b : ChatSession) : Prop := updatedAt b <= updatedAt a.

(** The texts of the system messages of a transcript, in order. *)
Definition system_texts (s : ChatSession) : list string :=
  map content (filter is_system (messages s)).

(** The only system message of the transcript is the non-empty
    [systemMessage] of the session. *)
Definition mirrored (s : ChatSession) : Prop :=
  system_texts s
  = match systemMessage s with
    | Some text => if truthy text then [text] else []
    | None => []
    end.

End ChatController.

(* ================================================================= *)
(** ** src/ai/generator/responsePostProcessor.ts *)

Module ResponsePostProcessor.
Import Js Regex.
Import APIErrorHandler (JsError).

Definition nl : string := String (ascii_of_nat 10) EmptyString.
Definition dquote : ascii := ascii_of_nat 34.

(** [codeBlockRegex.exec(text)] from index 0, for
    [/```(?:(\w+)\n)?([\s\S]*?)```/g]: the two groups of the leftmost
    match. At a fence the language group is tried first; the body runs
    to the next fence. *)
Fixpoint exec_codeBlock (text : string) : option (option string * string) :=
  match text with
  | String "`" (String "`" (String "`" rest)) =>
      let with_language :=
        match span_word rest with
        | (String c w, String n body) =>
            if (code n =? 10)%nat then
              match split_at_fence body with
              | Some (inner, _) => Some (Some (String c w), inner)
              | None => None
              end
            else None
        | _ => None
        end in
      match with_language with
      | Some m => Some m
      | None =>
          match split_at_fence rest with
          | Some (inner, _) => Some (None, inner)
          | None =>
              match text with
              | String _ text' => exec_codeBlock text'
              | EmptyString => None
              end
          end
      end
  | String _ text' => exec_codeBlock text'
  | EmptyString => None
  end.

Definition codeIndicators : list re :=
  [ (* /function\s+\w+\s*\(/i *)
    Seq (liti "function") (Seq (plus space) (Seq (plus word)
      (Seq (Star space) (chr "("))));
    (* /class\s+\w+/i *)
    Seq (liti "class") (Seq (plus space) (plus word));
    (* /if\s*\(.+\)\s*\{/i *)
    Seq (liti "if") (Seq (Star space) (Seq (chr "(") (Seq (plus dot)
      (Seq (chr ")") (Seq (Star space) (chr "{"))))));
    (* /for\s*\(.+\)\s*\{/i *)
    Seq (liti "for") (Seq (Star space) (Seq (chr "(") (Seq (plus dot)
      (Seq (chr ")") (Seq (Star space) (chr "{"))))));
    (* /while\s*\(.+\)\s*\{/i *)
    Seq (liti "while") (Seq (Star space) (Seq (chr "(") (Seq (plus dot)
      (Seq (chr ")") (Seq (Star space) (chr "{"))))));
    (* /import\s+.+\s+from/i *)
    Seq (liti "import") (Seq (plus space) (Seq (plus dot)
      (Seq (plus space) (liti "from"))));
    (* /export\s+(default\s+)?/i *)
    Seq (liti "export") (Seq (plus space)
      (opt (Seq (liti "default") (plus space))));
    (* /const\s+\w+\s*=/i *)
    Seq (liti "const") (Seq (plus space) (Seq (plus word)
      (Seq (Star space) (chr "="))));
    (* /let\s+\w+\s*=/i *)
    Seq (liti "let") (Seq (plus space) (Seq (plus word)
      (Seq (Star space) (chr "="))));
    (* /var\s+\w+\s*=/i *)
    Seq (liti "var") (Seq (plus space) (Seq (plus word)
      (Seq (Star space) (chr "="))));
    (* /return\s+.+;/i *)
    Seq (liti "return") (Seq (plus space) (Seq (plus dot) (chr ";")));
    (* an object literal: an opening brace, white space, a run of word
       characters and quotes of either kind, white space, a colon *)
    Seq (chr "{") (Seq (Star space)
      (Seq (plus (Chr (fun c => is_word c || Ascii.eqb c "'"
                                || Ascii.eqb c dquote)))
           (Seq (Star space) (chr ":"))));
    (* a tag: [<], a name, any number of attributes (white space, a
       name, [=] and a value between double quotes), white space, [>] *)
    Seq (chr "<") (Seq (plus word)
      (Seq (Star (Seq (plus space) (Seq (plus word) (Seq (chr "=")
             (Seq (chr dquote) (Seq (Star dot) (chr dquote)))))))
           (Seq (Star space) (chr ">")))) ].

Definition count {A} (p : A -> bool) (l : list A) : Z :=
  Z.of_nat (List.length (filter p l)).

(** The two ratios are compared with 0.3 exactly: [a / b > 0.3] is
    [10 * a > 3 * b]. *)
Definition looksLikeCode (text : string) : bool :=
  if existsb (fun regex => test regex text) codeIndicators then true
  else
    let lines :=
      filter (fun line => negb (String.eqb (trim line) ""))
             (split (ascii_of_nat 10) text) in
    let len := Z.of_nat (List.length lines) in
    let semicolonLines := count (fun line => ends_with (trim line) ";") lines in
    if (3 <? len) && (3 * len <? 10 * semicolonLines) then true
    else
      let indentedLines :=
        count (fun line => starts_with line "  "
                           || starts_with line (String (ascii_of_nat 9) ""))
              lines in
      (3 <? len) && (3 * len <? 10 * indentedLines).

Record Extracted : Type := mkExtracted {
  code : string;
  language : option string
}.

Definition extractCodeFromResponse (responseText : string)
           (defaultLanguage : option string) : Extracted :=
  match exec_codeBlock responseText with
  | Some (group1, group2) =>
      mkExtracted (trim group2) (or_else group1 defaultLanguage)
  | None =>
      if looksLikeCode responseText
      then mkExtracted (trim responseText) defaultLanguage
      else mkExtracted (trim responseText) defaultLanguage
  end.

Definition toLowerCase (s : string) : string :=
  string_of_list_ascii (map lower (list_ascii_of_string s)).

Definition parserMapping : list (string * string) :=
  [ ("javascript", "babel"); ("typescript", "typescript");
    ("jsx", "babel"); ("tsx", "typescript"); ("html", "html");
    ("css", "css"); ("json", "json"); ("markdown", "markdown");
    ("yaml", "yaml"); ("graphql", "graphql") ].

Definition one_of (l : list string) (x : string) : bool :=
  existsb (String.eqb x) l.

Definition getParserForLanguage (language : option string) : option string :=
  if negb (truthy_opt language) then None
  else
    let normalizedLanguage :=
      toLowerCase match language with Some l => l | None => "" end in
    match lookup normalizedLanguage parserMapping with
    | Some parser => Some parser
    | None =>
        if one_of ["js"; "jsx"; "javascript"] normalizedLanguage
        then Some "babel"
        else if one_of ["ts"; "tsx"; "typescript"] normalizedLanguage
        then Some "typescript"
        else if one_of ["md"; "markdown"] normalizedLanguage
        then Some "markdown"
        else if one_of ["yml"; "yaml"] normalizedLanguage
        then Some "yaml"
        else None
    end.

(** [prettier code parser] is the outcome of [prettier.format]. *)
Definition Prettier : Type := string -> string -> Result JsError string.

Definition formatCode (prettier : Prettier) (code : string)
           (language : option string) : string :=
  if negb (truthy code) || negb (truthy_opt language) then code
  else
    match getParserForLanguage language with
    | None => code
    | Some parser =>
        match prettier code parser with
        | Ok formattedCode => formattedCode
        | Throw _ => code
        end
    end.

Record ProcessingOptions : Type := mkOptions {
  prompt : string;
  options_language : option string;
  options_formatCode : option bool;
  explainCode : option bool;
  validateCode : option bool;
  checkSecurity : option bool
}.

(** [validateCode] and [checkSecurityIssues] only feed the log, and
    cannot raise; they are left out. *)
Definition processResponse (prettier : Prettier)
           (response : Models.LLMResponse) (options : ProcessingOptions)
  : Models.LLMResponse :=
  if truthy_opt (Models.response_error response)
     || negb (truthy (Models.generatedText response))
  then response
  else
    let extractedCode :=
      extractCodeFromResponse (Models.generatedText response)
                              (options_language options) in
    if negb (truthy (code extractedCode)) then response
    else
      let processedCode :=
        match options_formatCode options with
        | Some false => code extractedCode
        | _ =>
            formatCode prettier (code extractedCode)
              (or_else (language extractedCode) (options_language options))
        end in
      Models.mkLLMResponse processedCode (Models.tokenUsage response)
        (Models.finishReason response) (Models.model response)
        (Models.response_error response)
        (Models.response_timestamp response)
        (Models.response_requestId response) (Models.latency response).

(** The fenced block of the specification's scenario, and a sentence of
    prose between two spaces. *)
Definition scenario : string :=
  "```python" ++ nl ++ "def f():" ++ nl ++ "    return 1" ++ nl ++ "```".

Definition prose : string := " Hello there. ".

(** A formatter that fails on everything. *)
Definition no_prettier : Prettier :=
  fun _ _ => Throw (APIErrorHandler.PlainErr "SyntaxError").

(** What follows a fence at the start of [s]. *)
Definition starts_fence (s : string) : option string :=
  match s with
  | String "`" (String "`" (String "`" rest)) => Some rest
  | _ => None
  end.

(** The text holds no fence. *)
Definition fence_free (s : string) : Prop := split_at_fence s = None.

(** The text matched by the language group and its line feed. *)
Definition language_line (group1 : option string) : string :=
  match group1 with
  | Some w => w ++ nl
  | None => ""
  end.

End ResponsePostProcessor.

(* ================================================================= *)
(** ** src/ai/chat/chatService.ts *)

Module ChatService.
Import Js Regex.
Import APIErrorHandler (JsError, PlainErr, error_text).

(** [codeBlockRegex.exec(message)] for
    [/```(\w+)?\s*\n([\s\S]*?)```/g]. After the optional word, the white
    space is taken as far as it goes and given back to its last line
    feed; the body runs to the next fence. *)
Fixpoint exec_codeBlock (message : string)
  : option (option string * string) :=
  match message with
  | String "`" (String "`" (String "`" rest)) =>
      let (w, after_word) := span_word rest in
      let (ws, after_space) := span_space after_word in
      let here :=
        match after_last_newline ws with
        | Some kept =>
            match split_at_fence (kept ++ after_space) with
            | Some (inner, _) =>
                Some (if truthy w then Some w else None, inner)
            | None => None
            end
        | None => None
        end in
      match here with
      | Some m => Some m
      | None =>
          match message with
          | String _ message' => exec_codeBlock message'
          | EmptyString => None
          end
      end
  | String _ message' => exec_codeBlock message'
  | EmptyString => None
  end.

Definition extractCodeFromMessage (message : string)
  : string * option string :=
  match exec_codeBlock message with
  | Some (group1, group2) => (trim group2, or_else group1 None)
  | None => ("", None)
  end.

(** The part of the configuration that [processMessage] reads. *)
Record EnvConfig : Type := mkEnvConfig {
  inference_maxTokens : Z;
  inference_temperature : Q
}.

Definition history_of (messages : list ChatController.ChatMessage)
  : list Models.ConversationMessage :=
  map (fun msg =>
         Models.mkConversationMessage (ChatController.role msg)
           (ChatController.content msg)
           (Some (ChatController.timestamp msg)))
      messages.

Definition createChatRequest (session : ChatController.ChatSession)
           (newMessage : string) (uuid : string) (now : Z)
  : Models.ChatLLMRequest :=
  let conversationHistory :=
    history_of (filter (fun msg => negb (ChatController.is_system msg))
                       (ChatController.messages session)) in
  let systemMessage :=
    option_map ChatController.content
      (find ChatController.is_system (ChatController.messages session)) in
  Models.mkChatLLMRequest newMessage None (Some uuid) (Some now)
                          conversationHistory systemMessage.

Definition codeKeywords : list string :=
  [ "code"; "function"; "class"; "method"; "write a"; "create a";
    "implement"; "generate"; "script"; "program"; "algorithm" ].

(** [/function\s*\(|class\s+\w+|def\s+\w+\s*\(|import\s+/] *)
Definition codePattern : re :=
  Alt (Seq (lit "function") (Seq (Star space) (chr "(")))
      (Alt (Seq (lit "class") (Seq (plus space) (plus word)))
           (Alt (Seq (lit "def") (Seq (plus space) (Seq (plus word)
                   (Seq (Star space) (chr "(")))))
                (Seq (lit "import") (plus space)))).

Definition isCodeRequest (message : string) : bool :=
  let lowercaseMsg := ResponsePostProcessor.toLowerCase message in
  if existsb (fun keyword => includes lowercaseMsg keyword) codeKeywords
  then true
  else test codePattern message.

Definition apology : string :=
  "I'm sorry, I encountered an error while processing your message: ".

Section ProcessMessage.
(** The awaited collaborators: [envManager.loadConfig()],
    [localInference.runChatInference] and
    [externalConnector.sendChatRequest], each with the response it
    resolves to or the exception it rejects with. *)
Variable loadConfig : Result JsError EnvConfig.
Variable runChatInference :
  Models.ChatLLMRequest -> Result JsError Models.ChatLLMResponse.
Variable sendChatRequest :
  Models.ChatLLMRequest -> Result JsError Models.ChatLLMResponse.

(** The [try] block of [processMessage]. *)
Definition processMessage_try (session : ChatController.ChatSession)
           (message : string) (useLocalModel : bool)
           (uuid : string) (now : Z)
  : Result JsError Models.ChatLLMResponse :=
  let chatRequest := createChatRequest session message uuid now in
  let isCodeRequest := isCodeRequest message in
  bind loadConfig (fun config =>
  let params :=
    if isCodeRequest
    then Models.mkParams (Some 1024) (Some 0.3%Q)
    else Models.mkParams (Some (inference_maxTokens config)) (Some 0.7%Q) in
  let chatRequest :=
    Models.mkChatLLMRequest
      (Models.chat_prompt chatRequest) (Some params)
      (Models.chat_requestId chatRequest)
      (Models.chat_timestamp chatRequest)
      (Models.conversationHistory chatRequest)
      (Models.systemMessage chatRequest) in
  bind (if useLocalModel then runChatInference chatRequest
        else sendChatRequest chatRequest) (fun response =>
  if truthy_opt (Models.response_error (Models.base response))
  then Throw (PlainErr match Models.response_error (Models.base response) with
                       | Some e => e
                       | None => ""
                       end)
  else Ok response)).

(** The response built by the [catch] clause. *)
Definition error_response (session : ChatController.ChatSession)
           (useLocalModel : bool) (error : JsError)
           (uuid : string) (now : Z) : Models.ChatLLMResponse :=
  Models.mkChatLLMResponse
    (Models.mkLLMResponse (apology ++ error_text error) None
       (Some Models.error) None None (Some now) (Some uuid) None)
    (history_of (ChatController.messages session))
    (if useLocalModel then Models.local else Models.api).

Definition processMessage (session : ChatController.ChatSession)
           (message : string) (useLocalModel : bool)
           (uuid1 : string) (now1 : Z) (uuid2 : string) (now2 : Z)
  : Result JsError Models.ChatLLMResponse :=
  try_catch
    (processMessage_try session message useLocalModel uuid1 now1)
    (fun error =>
       Ok (error_response session useLocalModel error uuid2 now2)).
End ProcessMessage.

Definition suggestion_prompt : string :=
  "Based on the conversation, suggest 3 brief follow-up messages the user might want to send. Only output the suggestions, one per line, without numbering or extra text. Each suggestion should be short and to the point.".

(** [getSuggestedResponses]: [sendChatRequest] is the awaited call of
    the external connector. *)
Definition getSuggestedResponses
           (sendChatRequest :
              Models.ChatLLMRequest -> Result JsError Models.ChatLLMResponse)
           (session : ChatController.ChatSession) (uuid : string) (now : Z)
  : list string :=
  if (List.length (ChatController.messages session) <? 2)%nat then []
  else
    match List.last (map Some (ChatController.messages session)) None with
    | None => []
    | Some lastMessage =>
        match ChatController.role lastMessage with
        | Models.user =>
            let chatRequest :=
              createChatRequest session suggestion_prompt uuid now in
            let chatRequest :=
              Models.mkChatLLMRequest
                (Models.chat_prompt chatRequest)
                (Some (Models.mkParams (Some 150) (Some 0.7%Q)))
                (Models.chat_requestId chatRequest)
                (Models.chat_timestamp chatRequest)
                (Models.conversationHistory chatRequest)
                (Models.systemMessage chatRequest) in
            match sendChatRequest chatRequest with
            | Throw _ => []
            | Ok response =>
                if truthy_opt (Models.response_error (Models.base response))
                   || negb (truthy (Models.generatedText (Models.base response)))
                then []
                else
                  firstn 3
                    (filter (fun line => (0 <? String.length line)%nat)
                       (map trim
                          (split (ascii_of_nat 10)
                             (Models.generatedText (Models.base response)))))
            end
        | _ => []
        end
    end.

(** A connector that answers every request with the given text. *)
Definition answering (text : string)
  : Models.ChatLLMRequest -> Result JsError Models.ChatLLMResponse :=
  fun request =>
    Ok (Models.mkChatLLMResponse
          (Models.mkLLMResponse text None (Some Models.stop) None None None
                                (Models.chat_requestId request) None)
          (Models.conversationHistory request) Models.api).

End ChatService.

(* ================================================================= *)
(** ** src/ai/generator/codeGenerator.ts *)

Module CodeGenerator.
Import Js.
Import APIErrorHandler (JsError, PlainErr, error_text).

Record CodeGenerationOptions : Type := mkOptions {
  useLocalModel : option bool;
  language : option string;
  fileContext : option string;
  filePath : option string;
  explainCode : option bool;
  formatCode : option bool
}.

Definition default_options : CodeGenerationOptions :=
  mkOptions None None None None None None.

Section GenerateCode.
(** The collaborators: [promptParser.parsePrompt] and
    [promptParser.detectLanguage], [localInference.runInference],
    [externalConnector.sendCompletionRequest] and [prettier.format]. *)
Variable parsePrompt :
  string -> CodeGenerationOptions -> string ->
  Result JsError Models.LLMRequest.
Variable detectLanguage : string -> option string.
Variable runInference :
  Models.LLMRequest -> Result JsError Models.LLMResponse.
Variable sendCompletionRequest :
  Models.LLMRequest -> Result JsError Models.LLMResponse.
Variable prettier : ResponsePostProcessor.Prettier.

Definition with_latency (r : Models.LLMResponse) (latency : Z)
  : Models.LLMResponse :=
  Models.mkLLMResponse (Models.generatedText r) (Models.tokenUsage r)
    (Models.finishReason r) (Models.model r) (Models.response_error r)
    (Models.response_timestamp r) (Models.response_requestId r)
    (Some latency).

(** The [try] block of [generateCode]. *)
Definition generateCode_try (prompt : string)
           (options : CodeGenerationOptions) (requestId : string)
           (startTime now : Z) : Result JsError Models.CodeLLMResponse :=
  bind (parsePrompt prompt options requestId) (fun request =>
  let useLocalModel :=
    match useLocalModel options with Some b => b | None => false end in
  bind (if useLocalModel then runInference request
        else sendCompletionRequest request) (fun response =>
  let processedResponse :=
    ResponsePostProcessor.processResponse prettier response
      (ResponsePostProcessor.mkOptions prompt (language options)
         (Some match formatCode options with Some b => b | None => true end)
         (Some match explainCode options with Some b => b | None => false end)
         None None) in
  let latency := now - startTime in
  Ok (Models.mkCodeLLMResponse
        (with_latency processedResponse latency)
        match or_else (or_else (language options) (detectLanguage prompt))
                      (Some "plaintext") with
        | Some l => l
        | None => "plaintext"
        end
        None))).

Definition failure_response (options : CodeGenerationOptions)
           (error : JsError) (requestId : string) (startTime now : Z)
  : Models.CodeLLMResponse :=
  Models.mkCodeLLMResponse
    (Models.mkLLMResponse "" None (Some Models.error) None
       (Some ("Code generation failed: " ++ error_text error))
       (Some now) (Some requestId) (Some (now - startTime)))
    match or_else (language options) (Some "plaintext") with
    | Some l => l
    | None => "plaintext"
    end
    None.

Definition generateCode (prompt : string) (options : CodeGenerationOptions)
           (requestId : string) (startTime now : Z)
  : Result JsError Models.CodeLLMResponse :=
  try_catch
    (generateCode_try prompt options requestId startTime now)
    (fun error =>
       Ok (failure_response options error requestId startTime now)).
End GenerateCode.

(** Collaborators for the examples: a configuration that loads, a local
    inference that is at its concurrency limit, for chat and for text
    requests, and a prompt parser that keeps the prompt. *)
Definition config_loaded : Result JsError ChatService.EnvConfig :=
  Ok (ChatService.mkEnvConfig 2048 0.7%Q).

Definition local_at_capacity (request : Models.ChatLLMRequest)
  : Result JsError Models.ChatLLMResponse :=
  Ok (snd (LocalInference.runChatInference (LocalInference.mkState 9 4)
             request "0b9d4c1e-5a6f-4d2b-8e3c-7f1a2b3c4d5e" 50
             (Throw (PlainErr "not reached")) 60)).

Definition inference_at_capacity (request : Models.LLMRequest)
  : Result JsError Models.LLMResponse :=
  Ok (snd (LocalInference.runInference (LocalInference.mkState 9 4)
             request "0b9d4c1e-5a6f-4d2b-8e3c-7f1a2b3c4d5e" 50
             (Throw (PlainErr "not reached")) 60)).

Definition keep_prompt (prompt : string) (options : CodeGenerationOptions)
           (requestId : string) : Result JsError Models.LLMRequest :=
  Ok (Models.mkLLMRequest prompt None (Some requestId)).

Definition empty_session : ChatController.ChatSession :=
  ChatController.mkSession "3f0c1d52-8a3e-4b1f-9c57-2e6d1a4b7c90" "Parser"
                           [] 1000 1000 None [].

End CodeGenerator.

(* ================================================================= *)
(** ** The code generator of the implementation guide

    The guide shipped with the repository carries its own, simpler
    [src/ai/generator/codeGenerator.ts], with the source selection
    [determineSource]. *)

Module Guide.
Import Js.
Import APIErrorHandler (JsError, PlainErr, error_text).

Record EnvConfig : Type := mkEnvConfig {
  apiKey : string;
  endpoint : string;
  model : string;
  modelPath : string;
  useGPU : bool;
  timeout : Z;
  maxTokens : Z
}.

(** The configuration returned when there is no settings file. *)
Definition default_config : EnvConfig :=
  mkEnvConfig "" "https://api.openai.com/v1/chat/completions" "gpt-4"
              "" true 30000 150.

(** [EnvManager]: the configuration kept in memory and the secret
    storage of the editor, [None] when the manager was created without
    one; of the storage, only the value kept under [apiKey] is used,
    [None] when nothing is stored there. The calls of the storage are
    taken to succeed. *)
Record EnvManager : Type := mkEnvManager {
  config : EnvConfig;
  secretStorage : option (option string)
}.

(** [getConfig]: a copy of the configuration in memory. *)
Definition getConfig (envManager : EnvManager) : EnvConfig :=
  config envManager.

Definition getApiKey (envManager : EnvManager) : string :=
  match secretStorage envManager with
  | Some (Some stored) =>
      if truthy stored then stored else apiKey (config envManager)
  | _ => apiKey (config envManager)
  end.

Definition setApiKey (envManager : EnvManager) (key : string) : EnvManager :=
  match secretStorage envManager with
  | Some _ => mkEnvManager (config envManager) (Some (Some key))
  | None =>
      let c := config envManager in
      mkEnvManager
        (mkEnvConfig key (endpoint c) (model c) (modelPath c) (useGPU c)
                     (timeout c) (maxTokens c))
        None
  end.

(** The manager that the activation of the extension creates, with the
    secret storage of the editor, when there is no settings file. *)
Definition activated : EnvManager := mkEnvManager default_config (Some None).

Inductive CodeGenerationSource : Type := AUTO | LOCAL | API.

Record CodeGenerationOptions : Type := mkOptions {
  source : option CodeGenerationSource;
  language : option string;
  options_maxTokens : option Z;
  temperature : option Q;
  includeComments : option bool
}.

Record LLMRequest : Type := mkLLMRequest {
  prompt : string;
  request_maxTokens : option Z;
  request_temperature : option Q
}.

Record ChatMessage : Type := mkChatMessage {
  role : Models.Role;
  content : string
}.

Record ChatLLMRequest : Type := mkChatLLMRequest {
  messages : list ChatMessage;
  chat_maxTokens : option Z;
  chat_temperature : option Q
}.

Record LLMResponse : Type := mkLLMResponse {
  text : string;
  usage : option Models.TokenUsage;
  error : option string
}.

Record ChatLLMResponse : Type := mkChatLLMResponse {
  message : ChatMessage;
  chat_usage : option Models.TokenUsage;
  chat_error : option string
}.

Definition no_source : JsError :=
  PlainErr "No local model or API key configured for code generation".

(** [determineSource]; [config] is what [this.envManager.getConfig()]
    returns. *)
Definition determineSource (config : EnvConfig)
           (requestedSource : option CodeGenerationSource)
  : Result JsError CodeGenerationSource :=
  match requestedSource with
  | Some LOCAL => Ok LOCAL
  | Some API => Ok API
  | _ =>
      let hasLocalModel := truthy (modelPath config) in
      let hasApiKey := truthy (apiKey config) in
      if hasLocalModel then Ok LOCAL
      else if hasApiKey then Ok API
      else Throw no_source
  end.

Definition nl : string := String (ascii_of_nat 10) EmptyString.

(** [PromptParser.parsePrompt] *)
Definition parsePrompt (prompt : string) (language : option string) : string :=
  let enhancedPrompt := trim prompt in
  let enhancedPrompt :=
    if truthy_opt language
    then "Write the following in "
         ++ match language with Some l => l | None => "" end
         ++ ":" ++ nl ++ enhancedPrompt
    else enhancedPrompt in
  if negb (includes enhancedPrompt "code")
     && negb (includes enhancedPrompt "function")
  then "Write code that " ++ enhancedPrompt
  else enhancedPrompt.

(** [PromptParser.getSystemPrompt] *)
Definition getSystemPrompt (language : option string) : string :=
  "You are an expert programmer that writes clean, efficient code. "
  ++ (if truthy_opt language
      then "You primarily write "
           ++ match language with Some l => l | None => "" end
           ++ " code and follow best practices for this language. "
      else "")
  ++ nl ++ "When asked to generate code, please follow these guidelines:"
  ++ nl ++ nl ++ "1. Write clean, readable, and well-documented code."
  ++ nl ++ "2. Add helpful comments to explain complex parts."
  ++ nl ++ "3. Follow standard conventions and best practices."
  ++ nl ++ "4. Include proper error handling."
  ++ nl ++ "5. Be concise but complete."
  ++ nl ++ "6. Focus only on the code without unnecessary explanations unless requested."
  ++ nl ++ nl
  ++ "Respond with only the code itself, properly formatted and indented.".

Section GenerateCode.
(** The collaborators, none of which raises: [runInference] and
    [sendChatRequest] turn every failure into a response with an
    [error], and [processCode] returns its input when it fails. *)
Variable config : EnvConfig.
Variable runInference : LLMRequest -> LLMResponse.
Variable sendChatRequest : ChatLLMRequest -> ChatLLMResponse.
Variable processCode : string -> option string -> bool -> string.

(** The [try] block of [generateCode]. *)
Definition generateCode_try (prompt : string)
           (options : CodeGenerationOptions) : Result JsError string :=
  bind (determineSource config (source options)) (fun source =>
  let parsedPrompt := parsePrompt prompt (language options) in
  let response :=
    match source with
    | LOCAL =>
        runInference
          (mkLLMRequest parsedPrompt (options_maxTokens options)
                        (temperature options))
    | _ =>
        let systemPrompt := getSystemPrompt (language options) in
        let messages :=
          [ mkChatMessage Models.system systemPrompt;
            mkChatMessage Models.user parsedPrompt ] in
        let chatResponse :=
          sendChatRequest
            (mkChatLLMRequest messages (options_maxTokens options)
                              (temperature options)) in
        mkLLMResponse (content (message chatResponse))
                      (chat_usage chatResponse) (chat_error chatResponse)
    end in
  if truthy_opt (error response)
  then Throw (PlainErr match error response with
                       | Some e => e
                       | None => ""
                       end)
  else Ok (processCode (text response) (language options)
             match includeComments options with
             | Some b => b
             | None => true
             end)).

(** [generateCode]: the [catch] clause logs the error and raises it
    again. *)
Definition generateCode (prompt : string) (options : CodeGenerationOptions)
  : Result JsError string :=
  try_catch (generateCode_try prompt options) (fun error => Throw error).
End GenerateCode.

(** The request sent to the remote service for a prompt. *)
Definition remote_request (prompt : string) (options : CodeGenerationOptions)
  : ChatLLMRequest :=
  mkChatLLMRequest
    [ mkChatMessage Models.system (getSystemPrompt (language options));
      mkChatMessage Models.user (parsePrompt prompt (language options)) ]
    (options_maxTokens options) (temperature options).

(** Collaborators for the examples: a local model that answers, a
    remote service that is unreachable, a post-processor that returns
    the text as it is. *)
Definition local_answers (request : LLMRequest) : LLMResponse :=
  mkLLMResponse "function f() {}" None None.

Definition remote_unreachable (request : ChatLLMRequest) : ChatLLMResponse :=
  mkChatLLMResponse (mkChatMessage Models.assistant "") None
    (Some "Network error: No response received from the AI service").

Definition keep_text (code : string) (language : option string)
           (includeComments : bool) : string := code.

Definition auto_options : CodeGenerationOptions :=
  mkOptions (Some AUTO) None None None None.

(** A configuration with remote credentials and no local model. *)
Definition remote_only : EnvConfig :=
  mkEnvConfig "sk-test" "https://api.openai.com/v1/chat/completions" "gpt-4"
              "" true 30000 150.

End Guide.


(* ================================================================= *)
(** ** src/ai/apiConnector/externalLLMConnector.ts *)

Module ExternalLLMConnector.
Import Js.
Import APIErrorHandler (JsError, PlainErr, error_text).

Section SendChatRequest.
(** [D] is the type of the responses of the HTTP client. The
    collaborators: [ensure_config] is the outcome of the statements
    before the [try] (the configuration is there, or [initialize] loads
    it or raises); [post k] is the outcome of the HTTP call number [k];
    [complete] is the rest of the [try] block once a call has succeeded
    (the data is checked against its schema, the result is built and
    validated); [is_uuid] is the check of [z.string().uuid()], and
    [zodError r] what [parse] raises for a response [r] that fails its
    schema. The request data built from typed values always passes
    [OpenAIRequestDataSchema]. *)
Context {D : Type}.
Variable ensure_config : Result JsError unit.
Variable post : nat -> Result JsError D.
Variable random : nat -> Q.
Variable complete :
  Models.ChatLLMRequest -> string -> Z -> D ->
  Result JsError Models.ChatLLMResponse.
Variable is_uuid : string -> bool.
Variable zodError : Models.ChatLLMResponse -> JsError.

(** [ChatLLMResponseSchema.parse]: the constraints that typed values can
    fail are the three [min(0)] of the token usage, the format of
    [requestId] and the [min(0)] of [latency]. *)
Definition validateChatLLMResponse (response : Models.ChatLLMResponse)
  : Result JsError Models.ChatLLMResponse :=
  let r := Models.base response in
  let usage_ok :=
    match Models.tokenUsage r with
    | Some u =>
        (0 <=? Models.promptTokens u) && (0 <=? Models.completionTokens u)
        && (0 <=? Models.totalTokens u)
    | None => true
    end in
  let id_ok :=
    match Models.response_requestId r with
    | Some id => is_uuid id
    | None => true
    end in
  let latency_ok :=
    match Models.latency r with
    | Some l => 0 <=? l
    | None => true
    end in
  if usage_ok && id_ok && latency_ok then Ok response
  else Throw (zodError response).

(** [request.requestId || uuidv4()] *)
Definition request_id (request : Models.ChatLLMRequest) (uuid : string)
  : string :=
  match or_else (Models.chat_requestId request) (Some uuid) with
  | Some r => r
  | None => uuid
  end.

(** The response built by the [catch] clause. *)
Definition errorResponse (request : Models.ChatLLMRequest)
           (requestId : string) (error : JsError) (startTime now1 now2 : Z)
  : Models.ChatLLMResponse :=
  Models.mkChatLLMResponse
    (Models.mkLLMResponse "" None (Some Models.error) None
       (Some ("Chat API request failed: " ++ error_text error))
       (Some now1) (Some requestId) (Some (now2 - startTime)))
    (Models.conversationHistory request) Models.api.

Definition sendChatRequest (request : Models.ChatLLMRequest)
           (uuid : string) (startTime now1 now2 : Z)
  : Result JsError Models.ChatLLMResponse :=
  bind ensure_config (fun _ =>
  let requestId := request_id request uuid in
  match bind (APIErrorHandler.result
                (APIErrorHandler.retry post random
                                       APIErrorHandler.MAX_RETRIES))
             (complete request requestId startTime) with
  | Ok response => Ok response
  | Throw error =>
      validateChatLLMResponse
        (errorResponse request requestId error startTime now1 now2)
  end).

(** The [try] block of [sendChatRequest]. *)
Definition sendChatRequest_try (request : Models.ChatLLMRequest)
           (requestId : string) (startTime : Z)
  : Result JsError Models.ChatLLMResponse :=
  bind (APIErrorHandler.result
          (APIErrorHandler.retry post random APIErrorHandler.MAX_RETRIES))
       (complete request requestId startTime).
End SendChatRequest.

Section SendCompletionRequest.
(** [sendCompletionRequest], with the same collaborators; [prepare] is
    the outcome of the first statements of the [try] block, which build
    the request data and check it against its schema. *)
Context {D : Type}.
Variable ensure_config : Result JsError unit.
Variable prepare : Models.LLMRequest -> Result JsError unit.
Variable post : nat -> Result JsError D.
Variable random : nat -> Q.
Variable complete :
  Models.LLMRequest -> string -> Z -> D -> Result JsError Models.LLMResponse.
Variable is_uuid : string -> bool.
Variable zodError : Models.LLMResponse -> JsError.

(** [LLMResponseSchema.parse] *)
Definition validateLLMResponse (response : Models.LLMResponse)
  : Result JsError Models.LLMResponse :=
  let usage_ok :=
    match Models.tokenUsage response with
    | Some u =>
        (0 <=? Models.promptTokens u) && (0 <=? Models.completionTokens u)
        && (0 <=? Models.totalTokens u)
    | None => true
    end in
  let id_ok :=
    match Models.response_requestId response with
    | Some id => is_uuid id
    | None => true
    end in
  let latency_ok :=
    match Models.latency response with
    | Some l => 0 <=? l
    | None => true
    end in
  if usage_ok && id_ok && latency_ok then Ok response
  else Throw (zodError response).

(** [request.requestId || uuidv4()] *)
Definition completion_id (request : Models.LLMRequest) (uuid : string)
  : string :=
  match or_else (Models.requestId request) (Some uuid) with
  | Some r => r
  | None => uuid
  end.

(** The response built by the [catch] clause. *)
Definition completion_errorResponse (requestId : string) (error : JsError)
           (startTime now1 now2 : Z) : Models.LLMResponse :=
  Models.mkLLMResponse "" None (Some Models.error) None
    (Some ("API request failed: " ++ error_text error))
    (Some now1) (Some requestId) (Some (now2 - startTime)).

(** The [try] block. *)
Definition sendCompletionRequest_try (request : Models.LLMRequest)
           (requestId : string) (startTime : Z)
  : Result JsError Models.LLMResponse :=
  bind (prepare request) (fun _ =>
  bind (APIErrorHandler.result
          (APIErrorHandler.retry post random APIErrorHandler.MAX_RETRIES))
       (complete request requestId startTime)).

Definition sendCompletionRequest (request : Models.LLMRequest)
           (uuid : string) (startTime now1 now2 : Z)
  : Result JsError Models.LLMResponse :=
  bind ensure_config (fun _ =>
  let requestId := completion_id request uuid in
  match sendCompletionRequest_try request requestId startTime with
  | Ok response => Ok response
  | Throw error =>
      validateLLMResponse
        (completion_errorResponse requestId error startTime now1 now2)
  end).
End SendCompletionRequest.

(** A check that accepts the strings of 36 characters. *)
Definition sample_is_uuid (s : string) : bool :=
  (String.length s =? 36)%nat.

(** A service that cannot be reached, and the two requests of a
    configured connector to it. *)
Definition unreachable (k : nat) : Result JsError unit :=
  Throw (APIErrorHandler.AxiosErr "Network Error" (Some "ERR_NETWORK") None).

Definition chat_unreachable (request : Models.ChatLLMRequest)
  : Result JsError Models.ChatLLMResponse :=
  sendChatRequest (Ok tt) unreachable (fun _ => 0.5%Q)
    (fun _ _ _ _ => Throw (PlainErr "not reached"))
    sample_is_uuid (fun _ => PlainErr "ZodError")
    request "5c1e7a90-3b2d-4f6a-9e8c-1d0f2a3b4c5d" 100 9000 9000.

Definition completion_unreachable (request : Models.LLMRequest)
  : Result JsError Models.LLMResponse :=
  sendCompletionRequest (Ok tt) (fun _ => Ok tt) unreachable (fun _ => 0.5%Q)
    (fun _ _ _ _ => Throw (PlainErr "not reached"))
    sample_is_uuid (fun _ => PlainErr "ZodError")
    request "5c1e7a90-3b2d-4f6a-9e8c-1d0f2a3b4c5d" 100 9000 9000.

End ExternalLLMConnector.

(* ================================================================= *)
(** ** The connector and the error handler of the implementation guide *)

Module GuideConnector.
Import Js.
Import APIErrorHandler (JsError, PlainErr).

(** What the [catch] clauses of the connector receive. For an Axios
    error, [response] is the status and [JSON.stringify] of the data of
    the response, when there is one, and [request] tells whether the
    request was made. *)
Inductive Failure : Type :=
| AxiosError (message : string) (response : option (Z * string))
             (request : bool)
| ErrorObject (message : string)
| OtherValue.

Definition handleAPIError (error : Failure) : string :=
  match error with
  | AxiosError message (Some (status, data)) _ =>
      if status =? 401 then "Authentication error: Invalid API key"
      else if status =? 403
      then "Authorization error: You do not have permission to use this API"
      else if status =? 404 then "The requested resource was not found"
      else if status =? 429 then "Rate limit exceeded: Too many requests"
      else if (status =? 500) || (status =? 502) || (status =? 503)
              || (status =? 504)
      then "Server error (" ++ string_of_Z status
           ++ "): The AI service is experiencing issues"
      else "API error (" ++ string_of_Z status ++ "): " ++ data
  | AxiosError message None true =>
      "Network error: No response received from the AI service"
  | AxiosError message None false => "Request setup error: " ++ message
  | ErrorObject message => "Error: " ++ message
  | OtherValue => "Unknown error occurred"
  end.

(** [sendChatRequest]: [attempt] is the outcome of the [try] block, the
    message and the usage read from the response or what was raised on
    the way. *)
Definition sendChatRequest
           (attempt : Result Failure (Guide.ChatMessage * Models.TokenUsage))
  : Guide.ChatLLMResponse :=
  match attempt with
  | Ok (message, usage) => Guide.mkChatLLMResponse message (Some usage) None
  | Throw error =>
      Guide.mkChatLLMResponse (Guide.mkChatMessage Models.assistant "") None
                              (Some (handleAPIError error))
  end.

(** The run of [retryWithBackoff]: its outcome, the number of calls of
    [fn], and the delays asked of [setTimeout], in order. *)
Record Run (E T : Type) : Type := mkRun {
  result : Result E T;
  attempts : nat;
  delays : list Number
}.
Arguments mkRun {E T}.
Arguments result {E T}.
Arguments attempts {E T}.
Arguments delays {E T}.

(** The time that each sleep of a run lasted, in milliseconds. *)
Definition waits {E T} (run : Run E T) : list Z :=
  map setTimeout (delays run).

(** The counter [retries] is a double: from [2^53] on, [retries++]
    leaves it as it is. *)
Definition MAX_COUNT : Z := 2 ^ 53.

Definition increment (retries : Z) : Z :=
  if retries <? MAX_COUNT then retries + 1 else retries.

Section RetryWithBackoff.
Context {E T : Type}.
(** [fn k] is the outcome of the call number [k] (from 0); [random k] is
    what [Math.random()] returns after the failure of that call. The
    arguments [maxRetries] and [initialDelay] are any numbers. *)
Variable fn : nat -> Result E T.
Variable random : nat -> Q.
Variable maxRetries : Number.
Variable initialDelay : Number.

(** The delay asked of the timer after the failure number [retries]:
    [initialDelay * Math.pow(2, retries - 1) + Math.random() * 100]. *)
Definition backoff (retries : Z) (random : Q) : Number :=
  let delay :=
    times initialDelay (of_rational (inject_Z (2 ^ (retries - 1)))) in
  let jitter := Num (random * 100) in
  plus delay jitter.

(** The [while (true)] loop, run for [fuel] iterations at most: [None]
    when it has not ended by then. *)
Fixpoint retryWithBackoff_loop (fuel : nat) (retries : Z) (calls : nat)
         (slept : list Number) : option (Run E T) :=
  match fuel with
  | O => None
  | S fuel' =>
      match fn calls with
      | Ok v => Some (mkRun (Ok v) (S calls) slept)
      | Throw error =>
          let retries := increment retries in
          if less maxRetries (Num (inject_Z retries))
          then Some (mkRun (Throw error) (S calls) slept)
          else
            retryWithBackoff_loop fuel' retries (S calls)
              (slept ++ [backoff retries (random calls)])
      end
  end.

Definition retryWithBackoff (fuel : nat) : option (Run E T) :=
  retryWithBackoff_loop fuel 0 0%nat [].
End RetryWithBackoff.

(** An operation that never gets a response. *)
Definition always_down (k : nat) : Result Failure Z :=
  Throw (AxiosError "timeout of 30000ms exceeded" None true).

End GuideConnector.

(* ================================================================= *)
(** ** src/ai/localLLM/localInference.ts: the prompt formats *)

Module LocalInferencePrompts.
Import Js.
Import ResponsePostProcessor (toLowerCase).

Definition nl : string := String (ascii_of_nat 10) EmptyString.

(** [metadata?.type || 'unknown'] *)
Definition modelType (metadata : option ResourceManager.ModelMetadata)
  : string :=
  match metadata with
  | Some m =>
      if truthy (ResourceManager.type m) then ResourceManager.type m
      else "unknown"
  | None => "unknown"
  end.

Definition preprocessPrompt (metadata : option ResourceManager.ModelMetadata)
           (request : Models.LLMRequest) : string :=
  let prompt := trim (Models.prompt request) in
  let t := toLowerCase (modelType metadata) in
  if String.eqb t "llama" || String.eqb t "llama2" then
    "<s>[INST] " ++ prompt ++ " [/INST]"
  else if String.eqb t "mistral" then
    "<s>[INST] " ++ prompt ++ " [/INST]"
  else if String.eqb t "phi" then
    "Prompt: " ++ prompt ++ nl ++ "Output:"
  else if String.eqb t "gpt" || String.eqb t "gptj" then
    prompt ++ nl ++ "Answer:"
  else prompt.

(** The loop over the conversation history of the Llama and Mistral
    formats. *)
Definition instruct_turns (history : list Models.ConversationMessage)
           (formattedPrompt : string) : string :=
  fold_left
    (fun formattedPrompt message =>
       match Models.role message with
       | Models.user => formattedPrompt ++ Models.content message ++ " [/INST] "
       | Models.assistant =>
           formattedPrompt ++ Models.content message ++ " </s><s>[INST] "
       | Models.system => formattedPrompt
       end)
    history formattedPrompt.

Definition last_is_user (history : list Models.ConversationMessage) : bool :=
  match List.last (map Some history) None with
  | Some message =>
      match Models.role message with Models.user => true | _ => false end
  | None => false
  end.

(** The statements after the loop of the Llama and Mistral formats. *)
Definition close_instruction (history : list Models.ConversationMessage)
           (formattedPrompt : string) : string :=
  if last_is_user history then trimEnd formattedPrompt
  else substring 0 (String.length formattedPrompt - 7) formattedPrompt.

(** The loop of the generic format. *)
Definition generic_turns (history : list Models.ConversationMessage)
           (formattedPrompt : string) : string :=
  fold_left
    (fun formattedPrompt message =>
       match Models.role message with
       | Models.user =>
           formattedPrompt ++ "User: " ++ Models.content message ++ nl
       | Models.assistant =>
           formattedPrompt ++ "Assistant: " ++ Models.content message ++ nl
       | Models.system =>
           formattedPrompt ++ "System: " ++ Models.content message ++ nl
       end)
    history formattedPrompt.

Definition preprocessChatPrompt
           (metadata : option ResourceManager.ModelMetadata)
           (request : Models.ChatLLMRequest) : string :=
  let systemMessage :=
    match Models.systemMessage request with Some text => text | None => "" end in
  let given := truthy_opt (Models.systemMessage request) in
  let history := Models.conversationHistory request in
  let formattedPrompt := if given then systemMessage ++ nl ++ nl else "" in
  let t := toLowerCase (modelType metadata) in
  if String.eqb t "llama" || String.eqb t "llama2" then
    let formattedPrompt :=
      if given
      then "<s>[INST] <<SYS>>" ++ nl ++ systemMessage ++ nl ++ "<</SYS>>"
           ++ nl ++ nl
      else "<s>[INST] " in
    close_instruction history (instruct_turns history formattedPrompt)
  else if String.eqb t "mistral" then
    let formattedPrompt :=
      if given then "<s>[INST] " ++ systemMessage ++ nl ++ nl
      else "<s>[INST] " in
    close_instruction history (instruct_turns history formattedPrompt)
  else
    generic_turns history formattedPrompt ++ "Assistant: ".

(** The model types that get the instruction format. *)
Definition instruct_type (metadata : option ResourceManager.ModelMetadata)
  : bool :=
  let t := toLowerCase (modelType metadata) in
  String.eqb t "llama" || String.eqb t "llama2" || String.eqb t "mistral".

(** The prompt of the instruction formats before the history is added. *)
Definition instruct_header (metadata : option ResourceManager.ModelMetadata)
           (request : Models.ChatLLMRequest) : string :=
  let systemMessage :=
    match Models.systemMessage request with Some text => text | None => "" end in
  let t := toLowerCase (modelType metadata) in
  if truthy_opt (Models.systemMessage request) then
    if String.eqb t "llama" || String.eqb t "llama2"
    then "<s>[INST] <<SYS>>" ++ nl ++ systemMessage ++ nl ++ "<</SYS>>"
         ++ nl ++ nl
    else "<s>[INST] " ++ systemMessage ++ nl ++ nl
  else "<s>[INST] ".

(** Metadata of a model of the given type. *)
Definition of_type (t : string) : option ResourceManager.ModelMetadata :=
  Some (ResourceManager.mkMetadata "model" "1.0.0" t "int8"
          (ResourceManager.bytes 0) 0 "bin" 0).

End LocalInferencePrompts.

(* ================================================================= *)
(** * Properties *)

(* ================================================================= *)
(** ** Error classification *)

Section Classification.
Import Js APIErrorHandler.

Lemma network_rule e :
  no_transport_response e = true -> verdict e = (network, true).
Proof.
  destruct e as [m c [r|] | m | r]; simpl; try discriminate; reflexivity.
Qed.

Lemma timeout_rule e :
  timeout_or_aborted e = true -> verdict e = (timeout, true).
Proof.
  destruct e as [m c [r|] | m | r]; simpl; try discriminate.
  unfold verdict, categorizeError. intros ->. reflexivity.
Qed.

(** The rules on the status, once the response is known not to be a
    timeout or an abort. *)
Lemma status_rules m c r :
  timeout_or_aborted (AxiosErr m c (Some r)) = false ->
  verdict (AxiosErr m c (Some r)) =
  let s := status r in
  if s =? 429 then (rate_limit, true)
  else if (s =? 401) || (s =? 403) then (authentication, false)
  else if (400 <=? s) && (s <? 500) then (bad_request, false)
  else if 500 <=? s then (server, true)
  else (unknown, false).
Proof.
  unfold verdict, categorizeError. simpl. intros ->.
  destruct (status r =? 429); [reflexivity|].
  destruct ((status r =? 401) || (status r =? 403)); [reflexivity|].
  destruct ((400 <=? status r) && (status r <? 500)); [reflexivity|].
  destruct (500 <=? status r); reflexivity.
Qed.

Lemma rate_limit_rule m c r :
  timeout_or_aborted (AxiosErr m c (Some r)) = false ->
  status r = 429 ->
  verdict (AxiosErr m c (Some r)) = (rate_limit, true).
Proof. intros H E. rewrite (status_rules _ _ _ H), E. reflexivity. Qed.

Lemma authentication_rule m c r :
  timeout_or_aborted (AxiosErr m c (Some r)) = false ->
  status r = 401 \/ status r = 403 ->
  verdict (AxiosErr m c (Some r)) = (authentication, false).
Proof.
  intros H [E|E]; rewrite (status_rules _ _ _ H), E; reflexivity.
Qed.

Lemma bad_request_rule m c r :
  timeout_or_aborted (AxiosErr m c (Some r)) = false ->
  400 <= status r < 500 ->
  status r <> 429 -> status r <> 401 -> status r <> 403 ->
  verdict (AxiosErr m c (Some r)) = (bad_request, false).
Proof.
  intros H R N1 N2 N3. rewrite (status_rules _ _ _ H). cbv zeta.
  destruct (Z.eqb_spec (status r) 429); [contradiction|].
  destruct (Z.eqb_spec (status r) 401); [contradiction|].
  destruct (Z.eqb_spec (status r) 403); [contradiction|].
  simpl.
  destruct (Z.leb_spec 400 (status r)); [|lia].
  destruct (Z.ltb_spec (status r) 500); [|lia].
  reflexivity.
Qed.

(** Every status from 500 up is a server error, 5xx or beyond. *)
Lemma server_rule m c r :
  timeout_or_aborted (AxiosErr m c (Some r)) = false ->
  500 <= status r ->
  verdict (AxiosErr m c (Some r)) = (server, true).
Proof.
  intros H R. rewrite (status_rules _ _ _ H). cbv zeta.
  destruct (Z.eqb_spec (status r) 429); [lia|].
  destruct (Z.eqb_spec (status r) 401); [lia|].
  destruct (Z.eqb_spec (status r) 403); [lia|].
  simpl.
  destruct (Z.leb_spec 400 (status r)); [|lia].
  destruct (Z.ltb_spec (status r) 500); [lia|].
  simpl. destruct (Z.leb_spec 500 (status r)); [reflexivity|lia].
Qed.

Lemma unknown_rule_not_axios e :
  http_status e = None -> no_transport_response e = false ->
  verdict e = (unknown, false).
Proof.
  destruct e as [m c [r|] | m | r]; simpl; try discriminate; reflexivity.
Qed.

Lemma unknown_rule_below_400 m c r :
  timeout_or_aborted (AxiosErr m c (Some r)) = false ->
  status r < 400 ->
  verdict (AxiosErr m c (Some r)) = (unknown, false).
Proof.
  intros H R. rewrite (status_rules _ _ _ H). cbv zeta.
  destruct (Z.eqb_spec (status r) 429); [lia|].
  destruct (Z.eqb_spec (status r) 401); [lia|].
  destruct (Z.eqb_spec (status r) 403); [lia|].
  simpl.
  destruct (Z.leb_spec 400 (status r)); [lia|].
  simpl. destruct (Z.leb_spec 500 (status r)); [lia|reflexivity].
Qed.

(** C3. [categorizeError] is a total function (it is a Rocq function, and
    depends on nothing but its argument) whose category and
    retryability are those of these rules tried in order: no transport
    response gives network, retryable; a timed out or aborted call
    (status 408, or the Axios code ECONNABORTED on an error that has a
    response) gives timeout, retryable; 429 gives rate_limit,
    retryable; 401 and 403 give authentication, not retryable; the
    other 4xx give bad_request, not retryable; every status from 500 up,
    5xx or beyond, gives server, retryable; everything else gives
    unknown, not retryable. *)
Theorem categorizeError_mapping e :
  verdict e = first_match amended_rules e.
Proof.
  unfold amended_rules, first_match.
  destruct (no_transport_response e) eqn:Hn.
  { now apply network_rule. }
  destruct (timeout_or_aborted e) eqn:Ht.
  { now apply timeout_rule. }
  destruct e as [m c [r|] | m | r]; try discriminate; try reflexivity.
  rewrite (status_rules _ _ _ Ht).
  unfold status_is, status_in, status_from, http_status. cbv zeta.
  destruct (Z.eqb_spec (status r) 429) as [E|N1].
  { rewrite E. reflexivity. }
  replace ((429 <=? status r) && (status r <=? 429)) with false by
    (symmetry; apply andb_false_iff; destruct (Z.leb_spec 429 (status r));
     [right; apply Z.leb_gt; lia | now left]).
  destruct (Z.eqb_spec (status r) 401) as [E|N2].
  { rewrite E. reflexivity. }
  destruct (Z.eqb_spec (status r) 403) as [E|N3].
  { rewrite E. reflexivity. }
  replace ((401 <=? status r) && (status r <=? 401)) with false by
    (symmetry; apply andb_false_iff; destruct (Z.leb_spec 401 (status r));
     [right; apply Z.leb_gt; lia | now left]).
  replace ((403 <=? status r) && (status r <=? 403)) with false by
    (symmetry; apply andb_false_iff; destruct (Z.leb_spec 403 (status r));
     [right; apply Z.leb_gt; lia | now left]).
  simpl.
  destruct (Z.leb_spec 400 (status r)), (Z.ltb_spec (status r) 500),
    (Z.leb_spec (status r) 499), (Z.leb_spec 500 (status r));
    simpl; try reflexivity; lia.
Qed.

(** A response with status 600 is a retryable server error for
    [categorizeError], where the rules of the specification, whose
    server rule stops at 599, make it unknown and not retryable. *)
Lemma server_beyond_5xx :
  verdict (http_failure 600) = (server, true) /\
  shouldRetry (http_failure 600) = true /\
  classify_spec (http_failure 600) = (unknown, false).
Proof. repeat split. Qed.

End Classification.

(* ================================================================= *)
(** ** Backoff *)

Section Backoff.
Import Js APIErrorHandler.
Open Scope Q_scope.

#[local] Instance calculateBackoff_Proper :
  Proper (Qeq ==> eq ==> Qeq) calculateBackoff.
Proof.
  intros r r' Hr N N' <-. unfold calculateBackoff. now rewrite Hr.
Qed.

Lemma backoff_in_range r N :
  BASE_DELAY <= calculateBackoff r N <= MAX_DELAY.
Proof.
  unfold calculateBackoff. split.
  - apply Q.min_glb.
    + unfold BASE_DELAY, MAX_DELAY. lra.
    + apply Q.le_max_l.
  - apply Q.le_min_l.
Qed.

Lemma jitter_range r :
  0 <= r -> r < 1 -> -0.3 <= r * 0.6 - 0.3 <= 0.3.
Proof. intros. lra. Qed.

Lemma pow2_succ (N : Z) : 2 ^ (N + 1) == 2 ^ N * 2.
Proof. rewrite Qpower_plus by lra. reflexivity. Qed.

Lemma pow2_pos (N : Z) : 0 < 2 ^ N.
Proof. apply Qpower_0_lt. lra. Qed.

Lemma exponential_mono (N : Z) :
  Qmin MAX_DELAY (BASE_DELAY * 2 ^ N)
  <= Qmin MAX_DELAY (BASE_DELAY * 2 ^ (N + 1)).
Proof.
  apply Q.min_le_compat_l. rewrite pow2_succ.
  pose proof (pow2_pos N). unfold BASE_DELAY. nra.
Qed.

Lemma exponential_pos (N : Z) :
  0 < Qmin MAX_DELAY (BASE_DELAY * 2 ^ N).
Proof.
  pose proof (pow2_pos N).
  destruct (Q.min_spec MAX_DELAY (BASE_DELAY * 2 ^ N)) as [[_ E]|[_ E]];
    rewrite E; unfold MAX_DELAY, BASE_DELAY; nra.
Qed.

(** For a fixed draw the delay never decreases with the attempt. *)
Lemma backoff_mono r N :
  0 <= r -> calculateBackoff r N <= calculateBackoff r (N + 1).
Proof.
  intros Hr. unfold calculateBackoff.
  apply Q.min_le_compat_l, Q.max_le_compat_l.
  pose proof (exponential_mono N). pose proof (exponential_pos N).
  nra.
Qed.

(** Before the cap is reached the lowest draw gives strictly growing
    delays: 1000, 1400, 2800, 5600, 7000. *)
Lemma backoff_strict_at_0 r N :
  r == 0 -> (0 <= N < 4)%Z ->
  calculateBackoff r N < calculateBackoff r (N + 1).
Proof.
  intros Hr HN. rewrite Hr.
  assert (C : N = 0%Z \/ N = 1%Z \/ N = 2%Z \/ N = 3%Z) by lia.
  destruct C as [->|[->|[->| ->]]]; reflexivity.
Qed.

(** From attempt 4 on the exponential part is capped, and so is the
    delay. *)
Lemma backoff_capped r N :
  (4 <= N)%Z -> calculateBackoff r N == calculateBackoff r (N + 1).
Proof.
  intros HN. unfold calculateBackoff.
  assert (P : forall K, (4 <= K)%Z ->
              Qmin MAX_DELAY (BASE_DELAY * 2 ^ K) == MAX_DELAY).
  { intros K HK. apply Q.min_l.
    assert (2 ^ 4 <= 2 ^ K) by (apply Qpower_le_compat_l; [lia | lra]).
    assert (E : 2 ^ 4 == 16) by reflexivity.
    unfold MAX_DELAY, BASE_DELAY. rewrite E in *. lra. }
  rewrite (P N HN), (P (N + 1)%Z) by lia. reflexivity.
Qed.

Lemma Qsum_le (f g : Q -> Q) (l : list Q) :
  (forall r, In r l -> f r <= g r) ->
  Qsum (map f l) <= Qsum (map g l).
Proof.
  induction l as [|a l IH]; intros H; simpl.
  - lra.
  - assert (f a <= g a) by (apply H; now left).
    assert (Qsum (map f l) <= Qsum (map g l)) by (apply IH; intros; apply H; now right).
    lra.
Qed.

Lemma Qsum_eq (f g : Q -> Q) (l : list Q) :
  (forall r, In r l -> f r == g r) ->
  Qsum (map f l) == Qsum (map g l).
Proof.
  induction l as [|a l IH]; intros H; simpl.
  - reflexivity.
  - rewrite (H a) by now left. rewrite IH; [reflexivity|].
    intros; apply H; now right.
Qed.

Lemma grid_nonneg M r : In r (grid M) -> 0 <= r.
Proof.
  unfold grid. rewrite in_map_iff. intros (k & <- & _).
  unfold Qle. simpl. lia.
Qed.

Lemma grid_below_1 M r : In r (grid M) -> r < 1.
Proof.
  unfold grid. rewrite in_map_iff. intros (k & <- & Hk).
  apply in_seq in Hk. unfold Qlt. simpl. lia.
Qed.

Lemma grid_head M : exists l, grid M = (0 # M) :: l.
Proof.
  unfold grid. destruct (Pos2Nat.is_succ M) as [n ->].
  simpl. eexists. reflexivity.
Qed.

Lemma expected_strict M N :
  (0 <= N < 4)%Z -> expectedBackoff M N < expectedBackoff M (N + 1).
Proof.
  intros HN. unfold expectedBackoff.
  assert (S : Qsum (map (fun r => calculateBackoff r N) (grid M))
              < Qsum (map (fun r => calculateBackoff r (N + 1)) (grid M))).
  { pose proof (grid_nonneg M) as G.
    destruct (grid_head M) as [l E]. rewrite E in *. simpl.
    assert (calculateBackoff (0 # M) N < calculateBackoff (0 # M) (N + 1))
      by (apply backoff_strict_at_0; [reflexivity | exact HN]).
    assert (Qsum (map (fun r => calculateBackoff r N) l)
            <= Qsum (map (fun r => calculateBackoff r (N + 1)) l)).
    { apply Qsum_le. intros r Hr. apply backoff_mono, G. now right. }
    lra. }
  assert (0 < inject_Z (Z.pos M)) by (unfold Qlt; simpl; lia).
  apply Qmult_lt_compat_r; [|exact S].
  now apply Qinv_lt_0_compat.
Qed.

Lemma expected_capped M N :
  (4 <= N)%Z -> expectedBackoff M N == expectedBackoff M (N + 1).
Proof.
  intros HN. unfold expectedBackoff.
  rewrite (Qsum_eq (fun r => calculateBackoff r N)
                   (fun r => calculateBackoff r (N + 1))).
  - reflexivity.
  - intros r _. now apply backoff_capped.
Qed.

(** C6. For an attempt [N >= 0] and a draw [r] of [Math.random()] in
    [[0, 1)], the delay is [min(10000, 1000 * 2^N)] scaled by [1 + j] for
    a jitter [j] within [-0.3, 0.3], then clamped to [1000, 10000]; so
    it lies within [1000, 10000]. Its mean over the draws grows
    strictly with [N] up to attempt 4, where the cap is reached, and
    stays constant from there on. *)
Theorem calculateBackoff_spec (N : Z) (r : Q) (M : positive) :
  (0 <= N)%Z -> 0 <= r -> r < 1 ->
  (exists j, -0.3 <= j <= 0.3 /\
     calculateBackoff r N ==
     Qmin 10000 (Qmax 1000 (Qmin 10000 (1000 * 2 ^ N) * (1 + j))))
  /\ 1000 <= calculateBackoff r N <= 10000
  /\ ((N < 4)%Z -> expectedBackoff M N < expectedBackoff M (N + 1))
  /\ ((4 <= N)%Z -> expectedBackoff M N == expectedBackoff M (N + 1)).
Proof.
  intros HN H0 H1. repeat split.
  - exists (r * 0.6 - 0.3). split.
    + now apply jitter_range.
    + reflexivity.
  - apply (backoff_in_range r N).
  - apply (backoff_in_range r N).
  - intros. apply expected_strict. lia.
  - apply expected_capped.
Qed.

Lemma calculateBackoff_spec_witness :
  1000 <= calculateBackoff 0.5 2 <= 10000
  /\ expectedBackoff 8 2 < expectedBackoff 8 3.
Proof.
  assert (A : (0 <= 2)%Z) by lia.
  assert (B : 0 <= 0.5) by (unfold Qle; simpl; lia).
  assert (C : 0.5 < 1) by (unfold Qlt; simpl; lia).
  destruct (calculateBackoff_spec 2 0.5 8 A B C) as (_ & R & S & _).
  split; [exact R|].
  apply S. lia.
Defined.

End Backoff.

(* ================================================================= *)
(** ** Retry *)

Section RetryProperties.
Import Js APIErrorHandler.

Context {T : Type}.
Variable fn : nat -> Result JsError T.
Variable random : nat -> Q.
Variable maxRetries : Z.

#[local] Abbreviation loop := (retry_loop fn random maxRetries).
#[local] Abbreviation final := (finalError maxRetries).

(** The categories that are retried, and those that are not. *)
Lemma retried_categories e :
  type (categorizeError e) = network \/ type (categorizeError e) = timeout
  \/ type (categorizeError e) = server \/ type (categorizeError e) = rate_limit ->
  retryable (categorizeError e) = true.
Proof.
  unfold categorizeError.
  destruct e as [m c [r|] | m | r]; simpl;
    try (intros [H|[H|[H|H]]]; discriminate H); try reflexivity.
  destruct ((status r =? 408) || code_is c "ECONNABORTED"); [reflexivity|].
  destruct (status r =? 429); [reflexivity|].
  destruct ((status r =? 401) || (status r =? 403));
    [intros [H|[H|[H|H]]]; discriminate H|].
  destruct ((400 <=? status r) && (status r <? 500));
    [intros [H|[H|[H|H]]]; discriminate H|].
  destruct (500 <=? status r); [reflexivity|].
  intros [H|[H|[H|H]]]; discriminate H.
Qed.

Lemma refused_categories e :
  type (categorizeError e) = authentication
  \/ type (categorizeError e) = bad_request ->
  retryable (categorizeError e) = false.
Proof.
  unfold categorizeError.
  destruct e as [m c [r|] | m | r]; simpl;
    try (intros [H|H]; discriminate H); try reflexivity.
  destruct ((status r =? 408) || code_is c "ECONNABORTED");
    [intros [H|H]; discriminate H|].
  destruct (status r =? 429); [intros [H|H]; discriminate H|].
  destruct ((status r =? 401) || (status r =? 403)); [reflexivity|].
  destruct ((400 <=? status r) && (status r <? 500)); [reflexivity|].
  destruct (500 <=? status r); intros [H|H]; discriminate H.
Qed.

(** One iteration that succeeds. *)
Lemma loop_success n attempt calls slept last v :
  fn calls = Ok v ->
  loop (S n) attempt calls slept last = mkRun (Ok v) (S calls) slept.
Proof. intros H. simpl. now rewrite H. Qed.

(** One iteration that fails for good. *)
Lemma loop_give_up n attempt calls slept last e :
  fn calls = Throw e ->
  retryable (categorizeError e) = false \/ maxRetries <= attempt ->
  loop (S n) attempt calls slept last
  = mkRun (Throw (final e)) (S calls) slept.
Proof.
  intros H C. simpl. rewrite H.
  destruct C as [-> | C]; [reflexivity|].
  apply Z.leb_le in C. rewrite C, orb_true_r. reflexivity.
Qed.

(** One iteration that fails and is retried. *)
Lemma loop_retry n attempt calls slept last e :
  fn calls = Throw e ->
  retryable (categorizeError e) = true -> attempt < maxRetries ->
  loop (S n) attempt calls slept last
  = loop n (attempt + 1) (S calls)
      (slept ++ [retryDelay (random calls) attempt e])%list e.
Proof.
  intros H R C. simpl. rewrite H, R.
  apply Z.leb_gt in C. rewrite C. reflexivity.
Qed.

(** The operation is called at most once per iteration. *)
Lemma loop_attempts_le n : forall attempt calls slept last,
  (attempts (loop n attempt calls slept last) <= calls + n)%nat.
Proof.
  induction n as [|n IH]; intros attempt calls slept last; simpl.
  - lia.
  - destruct (fn calls) as [v|e]; simpl; [lia|].
    destruct (negb (retryable (categorizeError e)) || (maxRetries <=? attempt));
      simpl; [lia|].
    specialize (IH (attempt + 1) (S calls)
                   (slept ++ [retryDelay (random calls) attempt e])%list e).
    lia.
Qed.

(** When every call fails with a retried category, the loop makes all
    its iterations and raises the error built from the last failure. *)
Lemma loop_exhausts n : forall attempt calls slept last,
  attempt + Z.of_nat n = maxRetries ->
  (forall k, (calls <= k <= calls + n)%nat ->
     exists e, fn k = Throw e /\ retryable (categorizeError e) = true) ->
  exists e, fn (calls + n)%nat = Throw e /\
    loop (S n) attempt calls slept last
    = mkRun (Throw (final e)) (S (calls + n))
        (delays (loop (S n) attempt calls slept last))
    /\ List.length (delays (loop (S n) attempt calls slept last))
       = (List.length slept + n)%nat.
Proof.
  induction n as [|n IH]; intros attempt calls slept last Hn Hall.
  - destruct (Hall calls) as (e & He & Hr); [lia|].
    exists e. replace (calls + 0)%nat with calls by lia.
    rewrite (loop_give_up 0 attempt calls slept last e He) by (right; lia).
    simpl. repeat split; [exact He | lia].
  - destruct (Hall calls) as (e & He & Hr); [lia|].
    rewrite (loop_retry (S n) attempt calls slept last e He Hr) by lia.
    destruct (IH (attempt + 1) (S calls)
                 (slept ++ [retryDelay (random calls) attempt e])%list e)
      as (e' & He' & Hrun & Hlen).
    + lia.
    + intros k Hk. apply Hall. lia.
    + exists e'. replace (calls + S n)%nat with (S calls + n)%nat by lia.
      repeat split; [exact He' | exact Hrun |].
      rewrite Hlen, length_app. simpl. lia.
Qed.

(** C4. [retry] calls the operation for the attempts 0 to [maxRetries]
    at most. A first failure classified authentication or bad_request
    raises the wrapped error after exactly one call. When every call
    fails with a network, timeout, server or rate_limit classification,
    all the [maxRetries + 1] calls are made, and the error raised
    reports that number of attempts. An operation that fails twice
    with a server classification and then succeeds returns its value
    after exactly 3 calls. *)
Theorem retry_spec :
  0 <= maxRetries ->
  (attempts (retry fn random maxRetries) <= Z.to_nat (maxRetries + 1))%nat
  /\ (forall e,
        fn 0%nat = Throw e ->
        type (categorizeError e) = authentication
        \/ type (categorizeError e) = bad_request ->
        retry fn random maxRetries = mkRun (Throw (final e)) 1 [])
  /\ ((forall k, (k <= Z.to_nat maxRetries)%nat ->
         exists e, fn k = Throw e /\
           (type (categorizeError e) = network
            \/ type (categorizeError e) = timeout
            \/ type (categorizeError e) = server
            \/ type (categorizeError e) = rate_limit)) ->
      exists e,
        fn (Z.to_nat maxRetries) = Throw e
        /\ attempts (retry fn random maxRetries) = Z.to_nat (maxRetries + 1)
        /\ List.length (delays (retry fn random maxRetries)) = Z.to_nat maxRetries
        /\ result (retry fn random maxRetries)
           = Throw (PlainErr
               ("API request failed after "
                ++ string_of_Z
                     (Z.of_nat (attempts (retry fn random maxRetries)))
                ++ " attempts: " ++ message (categorizeError e))))
  /\ (forall e0 e1 v,
        2 <= maxRetries ->
        fn 0%nat = Throw e0 -> type (categorizeError e0) = server ->
        fn 1%nat = Throw e1 -> type (categorizeError e1) = server ->
        fn 2%nat = Ok v ->
        result (retry fn random maxRetries) = Ok v
        /\ attempts (retry fn random maxRetries) = 3%nat).
Proof.
  intros Hm. unfold retry.
  assert (En : Z.to_nat (maxRetries + 1) = S (Z.to_nat maxRetries))
    by (rewrite Z2Nat.inj_add by lia; simpl; lia).
  repeat split.
  - pose proof (loop_attempts_le (Z.to_nat (maxRetries + 1)) 0 0%nat []
                  (Thrown "undefined")). lia.
  - intros e He Hc. rewrite En.
    apply loop_give_up; [exact He|]. left. now apply refused_categories.
  - intros Hall. rewrite En.
    destruct (loop_exhausts (Z.to_nat maxRetries) 0 0%nat []
                (Thrown "undefined")) as (e & He & Hrun & Hlen).
    + lia.
    + intros k Hk. destruct (Hall k) as (e & He & Hc); [lia|].
      exists e. split; [exact He|]. now apply retried_categories.
    + exists e. change (0 + Z.to_nat maxRetries)%nat with (Z.to_nat maxRetries) in *.
      split; [exact He|].
      remember (loop (S (Z.to_nat maxRetries)) 0 0%nat [] (Thrown "undefined"))
        as run eqn:Erun.
      change (List.length (A:=Number) [] + Z.to_nat maxRetries)%nat
        with (Z.to_nat maxRetries) in Hlen.
      split; [rewrite Hrun; reflexivity|]. split; [exact Hlen|].
      rewrite Hrun. cbn [attempts result]. unfold finalError.
      replace (Z.of_nat (S (Z.to_nat maxRetries))) with (maxRetries + 1)
        by lia.
      reflexivity.
  - rewrite En.
    destruct (Z.to_nat maxRetries) as [|[|n]] eqn:E; try lia.
    rewrite (loop_retry _ _ _ _ _ e0) by
      (try assumption; try lia; apply retried_categories; tauto).
    rewrite (loop_retry _ _ _ _ _ e1) by
      (try assumption; try lia; apply retried_categories; tauto).
    now rewrite (loop_success _ _ _ _ _ v).
  - rewrite En.
    destruct (Z.to_nat maxRetries) as [|[|n]] eqn:E; try lia.
    rewrite (loop_retry _ _ _ _ _ e0) by
      (try assumption; try lia; apply retried_categories; tauto).
    rewrite (loop_retry _ _ _ _ _ e1) by
      (try assumption; try lia; apply retried_categories; tauto).
    now rewrite (loop_success _ _ _ _ _ v).
Qed.

End RetryProperties.

Section RetryWitness.
Import Js APIErrorHandler.

Lemma retry_spec_witness :
  (result (retry flaky (fun _ => 0.5%Q) 3) = Ok 42
   /\ attempts (retry flaky (fun _ => 0.5%Q) 3) = 3%nat)
  /\ attempts (retry refused (fun _ => 0.5%Q) 3) = 1%nat
  /\ attempts (retry down (fun _ => 0.5%Q) 3) = 4%nat.
Proof.
  assert (H : 0 <= 3) by lia.
  split; [|split].
  - destruct (retry_spec flaky (fun _ => 0.5%Q) 3 H) as (_ & _ & _ & S).
    apply (S (http_failure 503) (http_failure 503) 42);
      try reflexivity; lia.
  - destruct (retry_spec refused (fun _ => 0.5%Q) 3 H) as (_ & R & _).
    rewrite (R (http_failure 401) eq_refl (or_introl eq_refl)).
    reflexivity.
  - destruct (retry_spec down (fun _ => 0.5%Q) 3 H) as (_ & _ & D & _).
    destruct D as (e & _ & A & _).
    + intros k _. exists (http_failure 503). split; [reflexivity|].
      right; right; left; reflexivity.
    + exact A.
Defined.

End RetryWitness.

(* ================================================================= *)
(** ** The Retry-After override *)

Section RetryAfter.
Import Js APIErrorHandler.

Lemma Qle_bool_inject a b : Qle_bool (inject_Z a) (inject_Z b) = (a <=? b).
Proof. unfold Qle_bool. simpl. now rewrite !Z.mul_1_r. Qed.

Lemma of_rational_inject n :
  of_rational (inject_Z n)
  = if OVERFLOW <=? n then Infinity false
    else if n <=? - OVERFLOW then Infinity true
    else Num (inject_Z n).
Proof. unfold of_rational. now rewrite !Qle_bool_inject. Qed.

Lemma OVERFLOW_large : 2147483647000 < OVERFLOW.
Proof. vm_compute. reflexivity. Qed.

Lemma setTimeout_inject z :
  setTimeout (Num (inject_Z z))
  = if (1 <=? z) && (z <=? TIMEOUT_MAX) then z else 1.
Proof.
  unfold setTimeout.
  change 1%Q with (inject_Z 1). rewrite !Qle_bool_inject.
  destruct ((1 <=? z) && (z <=? TIMEOUT_MAX)); [|reflexivity].
  unfold Qfloor, inject_Z. apply Z.div_1_r.
Qed.

(** How long the sleep asked after a [Retry-After] header lasts. *)
Lemma delay_of_header s :
  delay (times (parseInt s) (Num 1000))
  = match mathInt s with
    | Some n =>
        if (1 <=? n * 1000) && (n * 1000 <=? TIMEOUT_MAX) then n * 1000
        else 1
    | None => 1
    end.
Proof.
  pose proof OVERFLOW_large as L.
  unfold delay, parseInt. destruct (mathInt s) as [n|]; [|reflexivity].
  rewrite of_rational_inject.
  destruct (Z.leb_spec OVERFLOW n) as [A|A].
  { cbn. destruct (Z.leb_spec 1 (n * 1000)), (Z.leb_spec (n * 1000) TIMEOUT_MAX);
      try reflexivity. unfold TIMEOUT_MAX in *. lia. }
  destruct (Z.leb_spec n (- OVERFLOW)) as [B|B].
  { cbn. destruct (Z.leb_spec 1 (n * 1000)), (Z.leb_spec (n * 1000) TIMEOUT_MAX);
      try reflexivity. unfold TIMEOUT_MAX in *. lia. }
  cbn [times].
  change (inject_Z n * 1000)%Q with (inject_Z (n * 1000)).
  rewrite of_rational_inject.
  destruct (Z.leb_spec OVERFLOW (n * 1000)) as [C|C].
  { cbn. destruct (Z.leb_spec 1 (n * 1000)), (Z.leb_spec (n * 1000) TIMEOUT_MAX);
      try reflexivity. unfold TIMEOUT_MAX in *. lia. }
  destruct (Z.leb_spec (n * 1000) (- OVERFLOW)) as [D|D].
  { cbn. destruct (Z.leb_spec 1 (n * 1000)), (Z.leb_spec (n * 1000) TIMEOUT_MAX);
      try reflexivity. unfold TIMEOUT_MAX in *. lia. }
  apply setTimeout_inject.
Qed.

(** A header that starts with an integer of a number of seconds that
    the timer takes gives that number of milliseconds. *)
Lemma times_of_header s n :
  mathInt s = Some n -> 0 <= n * 1000 <= TIMEOUT_MAX ->
  times (parseInt s) (Num 1000) = Num (inject_Z n * 1000).
Proof.
  pose proof OVERFLOW_large as L.
  intros E R. unfold parseInt. rewrite E, of_rational_inject.
  unfold TIMEOUT_MAX in *.
  destruct (Z.leb_spec OVERFLOW n); [lia|].
  destruct (Z.leb_spec n (- OVERFLOW)); [lia|].
  cbn [times].
  change (inject_Z n * 1000)%Q with (inject_Z (n * 1000)).
  rewrite of_rational_inject.
  destruct (Z.leb_spec OVERFLOW (n * 1000)); [lia|].
  destruct (Z.leb_spec (n * 1000) (- OVERFLOW)); [lia|].
  reflexivity.
Qed.

(** With a usable header the computed backoff plays no part. *)
Lemma retryDelay_override random attempt e s :
  type (categorizeError e) = rate_limit ->
  retry_after e = Some s -> truthy s = true ->
  retryDelay random attempt e = times (parseInt s) (Num 1000).
Proof.
  intros Ht Hs Hy. unfold retryDelay. rewrite Ht.
  destruct e as [m c [r|] | m | r]; try discriminate.
  simpl in Hs. rewrite Hs, Hy. reflexivity.
Qed.

(** The delays already slept stay at the front of the list. *)
Lemma loop_delays_prefix {T} (fn : nat -> Result JsError T) random maxRetries n :
  forall attempt calls slept last,
  exists rest,
    delays (retry_loop fn random maxRetries n attempt calls slept last)
    = (slept ++ rest)%list.
Proof.
  induction n as [|n IH]; intros attempt calls slept last; simpl.
  - exists []. now rewrite app_nil_r.
  - destruct (fn calls) as [v|e]; simpl.
    + exists []. now rewrite app_nil_r.
    + destruct (negb (retryable (categorizeError e)) || (maxRetries <=? attempt)).
      * exists []. simpl. now rewrite app_nil_r.
      * destruct (IH (attempt + 1) (S calls)
                     (slept ++ [retryDelay (random calls) attempt e])%list e)
          as [rest E].
        rewrite E, <- app_assoc. eexists. reflexivity.
Qed.

(** The delay slept after the failure number [k], when the calls before
    it failed with retryable errors and a retry is still allowed. *)
Lemma loop_delay_at {T} (fn : nat -> Result JsError T) random maxRetries k e n :
  forall attempt calls slept last,
  attempt + Z.of_nat n = maxRetries + 1 ->
  attempt = Z.of_nat calls -> List.length slept = calls ->
  (calls <= k)%nat ->
  (forall j, (calls <= j < k)%nat ->
     exists e', fn j = Throw e' /\ retryable (categorizeError e') = true) ->
  fn k = Throw e -> retryable (categorizeError e) = true ->
  Z.of_nat k < maxRetries ->
  nth_error (delays (retry_loop fn random maxRetries n attempt calls slept last)) k
  = Some (retryDelay (random k) (Z.of_nat k) e).
Proof.
  induction n as [|n IH]; intros attempt calls slept last Hn Ha Hl Hk Hb He Hr Hm;
    [lia|].
  destruct (Nat.eq_dec calls k) as [->|N].
  - cbn [retry_loop]. rewrite He, Hr.
    replace (maxRetries <=? attempt) with false
      by (symmetry; apply Z.leb_gt; lia).
    cbn [negb orb].
    destruct (loop_delays_prefix fn random maxRetries n (attempt + 1) (S k)
                (slept ++ [retryDelay (random k) attempt e])%list e) as [rest E].
    rewrite E, <- app_assoc.
    rewrite nth_error_app2 by lia.
    rewrite Hl, Nat.sub_diag, Ha. reflexivity.
  - destruct (Hb calls) as (e' & He' & Hr'); [lia|].
    cbn [retry_loop]. rewrite He', Hr'.
    replace (maxRetries <=? attempt) with false
      by (symmetry; apply Z.leb_gt; lia).
    cbn [negb orb].
    apply IH; try assumption; try lia.
    + rewrite length_app. simpl. lia.
    + intros j Hj. apply Hb. lia.
Qed.

(** C5, as the code has it. At every failure that [retry] retries, when
    the failure is classified rate_limit and carries a non-empty
    [Retry-After] header, the delay asked of the timer is
    [parseInt(header, 10) * 1000] milliseconds, whatever the computed
    backoff is, and no bound is applied to it. When the header starts
    with an integer [n] and the timer takes [n * 1000] milliseconds (1
    to 2147483647), the sleep lasts that long; for every other header
    (no integer at its start, a [n] that is not positive, or
    [n * 1000] above 2147483647) the timer fires after 1 millisecond. *)
Theorem retry_after_overrides {T} (fn : nat -> Result JsError T)
        (random : nat -> Q) (maxRetries : Z) (k : nat) (e : JsError)
        (s : string) :
  failed_before fn k -> fn k = Throw e -> Z.of_nat k < maxRetries ->
  type (categorizeError e) = rate_limit ->
  retry_after e = Some s -> truthy s = true ->
  nth_error (delays (retry fn random maxRetries)) k
  = Some (times (parseInt s) (Num 1000))
  /\ (forall n, mathInt s = Some n -> 0 <= n * 1000 <= TIMEOUT_MAX ->
        nth_error (delays (retry fn random maxRetries)) k
        = Some (Num (inject_Z n * 1000)))
  /\ nth_error (waits (retry fn random maxRetries)) k
     = Some match mathInt s with
            | Some n =>
                if (1 <=? n * 1000) && (n * 1000 <=? TIMEOUT_MAX)
                then n * 1000 else 1
            | None => 1
            end.
Proof.
  intros Hb He Hm Ht Hs Hy.
  assert (D : nth_error (delays (retry fn random maxRetries)) k
              = Some (times (parseInt s) (Num 1000))).
  { unfold retry.
    rewrite (loop_delay_at fn random maxRetries k e); try assumption;
      try reflexivity; try lia.
    - f_equal. now apply retryDelay_override.
    - intros j Hj. apply Hb. lia.
    - apply retried_categories. tauto. }
  split; [exact D|]. split.
  - intros n En Rn. rewrite D. f_equal. now apply times_of_header.
  - unfold waits. rewrite (map_nth_error delay k _ D). f_equal.
    apply delay_of_header.
Qed.

Lemma retry_after_overrides_witness :
  nth_error (delays (retry (throttled "120") (fun _ => 0.5%Q) 3)) 1
  = Some (Num (inject_Z 120 * 1000))
  /\ nth_error (waits (retry (throttled "120") (fun _ => 0.5%Q) 3)) 1
     = Some 120000.
Proof.
  assert (B : failed_before (throttled "120") 1).
  { intros j _. exists (rate_limited "120"). split; reflexivity. }
  assert (M : Z.of_nat 1 < 3) by (simpl; lia).
  destruct (retry_after_overrides (throttled "120") (fun _ => 0.5%Q) 3 1
              (rate_limited "120") "120" B eq_refl M eq_refl eq_refl eq_refl)
    as (_ & D & W).
  split.
  - apply (D 120); [reflexivity | unfold TIMEOUT_MAX; lia].
  - exact W.
Defined.

(** C5 as stated fails: no upper bound limits the delay taken from
    [Retry-After]. One day of [Retry-After] is slept in full,
    86 400 000 ms, far above [MAX_DELAY]; the only limit is that of the
    timer, which does not clamp: one second more than 2 147 483 seconds
    is slept 1 millisecond. *)
Lemma retry_after_not_clamped :
  retryDelay 0.5 0 (rate_limited "86400") = Num (inject_Z 86400 * 1000)
  /\ waits (retry (throttled "86400") (fun _ => 0.5%Q) 1) = [86400000]
  /\ (MAX_DELAY < 86400000)%Q
  /\ waits (retry (throttled "2147483") (fun _ => 0.5%Q) 1) = [2147483000]
  /\ waits (retry (throttled "2147484") (fun _ => 0.5%Q) 1) = [1].
Proof. repeat split; vm_compute; reflexivity. Qed.

End RetryAfter.

(* ================================================================= *)
(** ** The cap on concurrent local inferences *)

Section ConcurrencyCap.
Import Js LocalInference.

Lemma remove_nth_length {A} (l : list A) : forall i x,
  nth_error l i = Some x ->
  List.length l = S (List.length (remove_nth i l)).
Proof.
  induction l as [|a l IH]; intros [|i] x H; simpl in *; try discriminate.
  - reflexivity.
  - f_equal. eapply IH, H.
Qed.

Lemma enter_cases st request uuid now :
  (MAX_CONCURRENT_INFERENCES <= activeInferences st
   /\ exists id r,
        runInference_enter st request uuid now
        = (mkState (inferenceCount st + 1) (activeInferences st), id, Some r)
        /\ is_busy_response r)
  \/ (activeInferences st < MAX_CONCURRENT_INFERENCES
      /\ exists id,
           runInference_enter st request uuid now
           = (mkState (inferenceCount st + 1) (activeInferences st + 1),
              id, None)).
Proof.
  unfold runInference_enter. cbn [activeInferences inferenceCount].
  destruct (Z.leb_spec MAX_CONCURRENT_INFERENCES (activeInferences st)).
  - left. split; [assumption|]. do 2 eexists. split; [reflexivity|].
    repeat split.
  - right. split; [assumption|]. eexists. reflexivity.
Qed.

Lemma chat_enter_cases st request uuid now :
  (MAX_CONCURRENT_INFERENCES <= activeInferences st
   /\ exists id r,
        runChatInference_enter st request uuid now
        = (mkState (inferenceCount st + 1) (activeInferences st), id, Some r)
        /\ is_busy_response (Models.base r))
  \/ (activeInferences st < MAX_CONCURRENT_INFERENCES
      /\ exists id,
           runChatInference_enter st request uuid now
           = (mkState (inferenceCount st + 1) (activeInferences st + 1),
              id, None)).
Proof.
  unfold runChatInference_enter. cbn [activeInferences inferenceCount].
  destruct (Z.leb_spec MAX_CONCURRENT_INFERENCES (activeInferences st)).
  - left. split; [assumption|]. do 2 eexists. split; [reflexivity|].
    repeat split.
  - right. split; [assumption|]. eexists. reflexivity.
Qed.

Lemma arrive_invariant sys request uuid now :
  invariant sys -> invariant (arrive sys request uuid now).
Proof.
  intros (Ha & Hc & Hn). unfold invariant, active, arrive in *.
  destruct request as [req|req].
  - destruct (enter_cases (state sys) req uuid now)
      as [(Hfull & id & r & -> & _) | (Hfree & id & ->)]; simpl.
    + auto.
    + rewrite length_app. simpl. repeat split; lia.
  - destruct (chat_enter_cases (state sys) req uuid now)
      as [(Hfull & id & r & -> & _) | (Hfree & id & ->)]; simpl.
    + auto.
    + rewrite length_app. simpl. repeat split; lia.
Qed.

Lemma finish_invariant sys index block now :
  invariant sys -> invariant (finish sys index block now).
Proof.
  intros (Ha & Hc & Hn). unfold invariant, active, finish in *.
  destruct (nth_error (suspended sys) index) as [call|] eqn:E; [|auto].
  pose proof (remove_nth_length _ _ _ E) as L.
  destruct (suspended_request call); simpl; repeat split; lia.
Qed.

Lemma step_invariant sys ev : invariant sys -> invariant (step sys ev).
Proof.
  destruct ev; [apply arrive_invariant | apply finish_invariant].
Qed.

Lemma run_invariant events : invariant (run events).
Proof.
  unfold run.
  assert (G : forall sys, invariant sys ->
              invariant (fold_left step events sys)).
  { induction events as [|ev events IH]; intros sys H; simpl.
    - exact H.
    - apply IH, step_invariant, H. }
  apply G. unfold invariant, active, boot, initial, MAX_CONCURRENT_INFERENCES.
  simpl. repeat split; lia.
Qed.

(** A call of [runInference] taken as a whole leaves the counter as it
    found it, whatever happens in the [try] block. *)
Lemma runInference_balanced st request uuid start block now :
  activeInferences (fst (runInference st request uuid start block now))
  = activeInferences st.
Proof.
  unfold runInference.
  destruct (enter_cases st request uuid start)
    as [(_ & id & r & -> & _) | (_ & id & ->)]; simpl.
  - reflexivity.
  - destruct block as [[p n]|e]; simpl; lia.
Qed.

Lemma runChatInference_balanced st request uuid start block now :
  activeInferences (fst (runChatInference st request uuid start block now))
  = activeInferences st.
Proof.
  unfold runChatInference.
  destruct (chat_enter_cases st request uuid start)
    as [(_ & id & r & -> & _) | (_ & id & ->)]; simpl.
  - reflexivity.
  - destruct block as [[p n]|e]; simpl; lia.
Qed.

(** C2. After any interleaving of calls of [runInference] and
    [runChatInference], the count of active inferences is the number of
    admitted calls still running, between 0 and 4; it equals the
    admissions minus the executions of [finally], one per admitted call
    that has ended. A call that arrives at the limit is answered at once
    by the busy error response, without being suspended and without
    touching the count; the end of an admitted call, by success or by
    exception, lowers the count by exactly one. *)
Theorem concurrency_cap (events : list Event) :
  let sys := run events in
  (0 <= active sys <= 4
   /\ active sys = Z.of_nat (List.length (suspended sys))
   /\ active sys = Z.of_nat (admitted sys) - Z.of_nat (released sys))
  /\ (forall request uuid now,
        active sys = 4 ->
        let sys' := arrive sys request uuid now in
        (exists r, returned sys' = (returned sys ++ [r])%list
                   /\ is_busy_response (response_base r))
        /\ suspended sys' = suspended sys
        /\ active sys' = active sys
        /\ released sys' = released sys)
  /\ (forall index block now,
        (index < List.length (suspended sys))%nat ->
        let sys' := finish sys index block now in
        active sys' = active sys - 1
        /\ released sys' = S (released sys)
        /\ List.length (returned sys') = S (List.length (returned sys))).
Proof.
  intros sys. destruct (run_invariant events) as (Ha & Hc & Hn).
  fold sys in Ha, Hc, Hn. unfold MAX_CONCURRENT_INFERENCES in Hc.
  split; [|split].
  - repeat split; lia.
  - intros request uuid now Hfull sys'. unfold sys', arrive, active in *.
    destruct request as [req|req].
    + destruct (enter_cases (state sys) req uuid now)
        as [(_ & id & r & -> & B) | (Hfree & _)];
        [|unfold MAX_CONCURRENT_INFERENCES in Hfree; lia].
      simpl. repeat split; try reflexivity.
      exists (TextResponse r). split; [reflexivity | exact B].
    + destruct (chat_enter_cases (state sys) req uuid now)
        as [(_ & id & r & -> & B) | (Hfree & _)];
        [|unfold MAX_CONCURRENT_INFERENCES in Hfree; lia].
      simpl. repeat split; try reflexivity.
      exists (ChatResponse r). split; [reflexivity | exact B].
  - intros index block now Hi sys'. unfold sys', finish, active.
    destruct (nth_error (suspended sys) index) as [call|] eqn:E.
    + destruct (suspended_request call); simpl;
        rewrite length_app; simpl; repeat split; lia.
    + apply nth_error_None in E. lia.
Qed.

Lemma concurrency_cap_witness :
  active (run four_arrivals) = 4
  /\ (exists r,
        returned (arrive (run four_arrivals) sample_request "u-5" 14)
        = (returned (run four_arrivals) ++ [r])%list
        /\ is_busy_response (response_base r))
  /\ active (arrive (run four_arrivals) sample_request "u-5" 14) = 4
  /\ active (finish (run four_arrivals) 2
                (Throw (APIErrorHandler.PlainErr "No model path specified")) 20)
     = 3.
Proof.
  destruct (concurrency_cap four_arrivals) as (_ & Full & Done).
  destruct (Full sample_request "u-5" 14 eq_refl) as (B & _ & C & _).
  destruct (Done 2%nat
              (Throw (APIErrorHandler.PlainErr "No model path specified")) 20)
    as (D & _).
  { simpl. lia. }
  split; [reflexivity|]. split; [exact B|]. split; [exact C | exact D].
Defined.

End ConcurrencyCap.

(* ================================================================= *)
(** ** Failure of a model load *)

Section LoadModel.
Import Js LocalModelLoader.
Import APIErrorHandler (JsError, PlainErr).

Lemma releaseResources_releases rm :
  ResourceManager.resourcesAllocated (ResourceManager.releaseResources rm)
  = false.
Proof.
  unfold ResourceManager.releaseResources.
  destruct (ResourceManager.resourcesAllocated rm) eqn:E; simpl; auto.
Qed.

(** Releasing twice is releasing once. *)
Lemma releaseResources_idempotent rm :
  ResourceManager.releaseResources (ResourceManager.releaseResources rm)
  = ResourceManager.releaseResources rm.
Proof.
  unfold ResourceManager.releaseResources.
  destruct (ResourceManager.resourcesAllocated rm) eqn:E; simpl;
    [reflexivity | now rewrite E].
Qed.

(** The [try] block never touches the guard. *)
Lemma loadModel_try_keeps_guard env st rm path st' rm' r :
  loadModel_try env st rm path = (st', rm', r) ->
  isLoading st' = isLoading st.
Proof.
  unfold loadModel_try.
  destruct (if truthy_opt path then _ else _) as [configPath|e].
  - destruct (negb (truthy configPath)); [intros [= <- _ _]; reflexivity|].
    destruct (negb (existsSync env configPath));
      [intros [= <- _ _]; reflexivity|].
    cbn [modelPath currentModel modelMetadata isLoading lastLoadTime].
    destruct (negb (ResourceManager.sufficient _));
      [intros [= <- _ _]; reflexivity|].
    destruct (extractModelMetadata env (resolve env configPath));
      intros [= <- _ _]; reflexivity.
  - intros [= <- _ _]. reflexivity.
Qed.

(** The failures of the [try] block, one per cause. *)
Lemma loadModel_no_path env st rm :
  isLoading st = false -> getModelPath env = Ok "" ->
  snd (loadModel env st rm None)
  = Throw (PlainErr "No model path specified").
Proof.
  intros G P. unfold loadModel, loadModel_try. rewrite G. simpl.
  rewrite P. reflexivity.
Qed.

Lemma loadModel_missing_path env st rm p :
  isLoading st = false -> truthy p = true -> existsSync env p = false ->
  snd (loadModel env st rm (Some p))
  = Throw (PlainErr ("Model path does not exist: " ++ p)).
Proof.
  intros G P X. unfold loadModel, loadModel_try. rewrite G.
  cbn [truthy_opt]. rewrite !P. cbn [negb]. rewrite X. reflexivity.
Qed.

Lemma loadModel_config_failure env st rm e :
  isLoading st = false -> getModelPath env = Throw e ->
  snd (loadModel env st rm None) = Throw e.
Proof.
  intros G P. unfold loadModel, loadModel_try. rewrite G. simpl.
  rewrite P. reflexivity.
Qed.

Lemma loadModel_insufficient env st rm p :
  isLoading st = false -> truthy p = true -> existsSync env p = true ->
  ResourceManager.sufficient
    (ResourceManager.checkResources (os env)
       (extractModelMetadata env (resolve env p))) = false ->
  exists why,
    snd (loadModel env st rm (Some p))
    = Throw (PlainErr ("Insufficient resources to load model: " ++ why)).
Proof.
  intros G P X R. unfold loadModel, loadModel_try. rewrite G.
  cbn [truthy_opt]. rewrite !P. cbn [negb]. rewrite X.
  cbn [negb modelPath]. rewrite R. cbn [negb].
  eexists. reflexivity.
Qed.

(** C10, as the code has it. When [loadModel] is called while no load is
    in progress and fails, for whatever reason, the loader holds no
    model ([isModelLoaded] is false, [getModelMetadata] is null), the
    resources are released, the guard [isLoading] is reset, and the
    error raised is the one raised inside the [try] block. *)
Theorem loadModel_failure_resets env st rm path st' rm' e :
  isLoading st = false ->
  loadModel env st rm path = (st', rm', Throw e) ->
  isModelLoaded st' = false
  /\ getModelMetadata st' = None
  /\ ResourceManager.resourcesAllocated rm' = false
  /\ isLoading st' = false
  /\ snd (loadModel_try env (loadModel_started st) rm path) = Throw e.
Proof.
  intros G. unfold loadModel, loadModel_started. rewrite G.
  destruct (loadModel_try env _ rm path) as [[st0 rm0] [[]|e0]] eqn:E.
  - discriminate.
  - intros [= <- <- <-]. simpl.
    repeat split; try reflexivity. apply releaseResources_releases.
Qed.

Lemma loadModel_failure_resets_witness :
  let '(st', rm', r) :=
    loadModel empty_env (fst after_first_load) (snd after_first_load)
              (Some "/models/missing") in
  r = Throw (PlainErr "Model path does not exist: /models/missing")
  /\ isModelLoaded (fst after_first_load) = true
  /\ isModelLoaded st' = false
  /\ getModelMetadata st' = None
  /\ ResourceManager.resourcesAllocated rm' = false
  /\ isLoading st' = false.
Proof.
  destruct (loadModel empty_env (fst after_first_load) (snd after_first_load)
              (Some "/models/missing")) as [[st' rm'] r] eqn:E.
  assert (R : r = Throw (PlainErr "Model path does not exist: /models/missing")).
  { change r with (snd (st', rm', r)). rewrite <- E. reflexivity. }
  subst r.
  destruct (loadModel_failure_resets empty_env (fst after_first_load)
              (snd after_first_load) (Some "/models/missing") st' rm' _
              eq_refl E) as (A & B & C & D & _).
  repeat split; assumption || reflexivity.
Defined.

(** C10 as stated fails for one cause of failure: a call made while
    another load is in progress is refused by the guard, and leaves the
    loader as it was, model, metadata, resources and guard included, so
    that the next call is refused too. *)
Lemma loadModel_refused_while_loading :
  let st := reload_started in
  let rm := snd after_first_load in
  loadModel model_env st rm None = (st, rm, Throw in_progress)
  /\ isModelLoaded st = true
  /\ getModelMetadata st <> None
  /\ ResourceManager.resourcesAllocated rm = true
  /\ isLoading st = true
  /\ snd (loadModel model_env st rm None) = Throw in_progress.
Proof.
  cbv zeta. repeat split; try reflexivity. discriminate.
Qed.

End LoadModel.

(* ================================================================= *)
(** ** Persistence of the conversation store *)

Section AssocLists.
Import Js.
Context {A : Type}.
Implicit Types (m : list (string * A)) (k : string) (v : A).

Lemma assoc_has_In k m : assoc_has k m = true <-> In k (map fst m).
Proof.
  unfold assoc_has. induction m as [|[k' v'] m IH]; simpl.
  - split; [discriminate | tauto].
  - destruct (String.eqb_spec k' k) as [->|N].
    + split; auto.
    + rewrite IH. split; [auto | intros [E|H]; [contradiction | exact H]].
Qed.

Lemma assoc_set_fresh k v m :
  ~ In k (map fst m) -> assoc_set k v m = (m ++ [(k, v)])%list.
Proof.
  induction m as [|[k' v'] m IH]; simpl; intros H.
  - reflexivity.
  - destruct (String.eqb_spec k' k) as [->|N]; [tauto|].
    rewrite IH by tauto. reflexivity.
Qed.

Lemma assoc_set_keys k v m k' :
  In k' (map fst (assoc_set k v m)) <-> k' = k \/ In k' (map fst m).
Proof.
  induction m as [|[k0 v0] m IH]; simpl.
  - intuition.
  - destruct (String.eqb_spec k0 k) as [->|N]; simpl.
    + intuition.
    + rewrite IH. intuition.
Qed.

Lemma assoc_set_NoDup k v m :
  NoDup (map fst m) -> NoDup (map fst (assoc_set k v m)).
Proof.
  induction m as [|[k0 v0] m IH]; simpl; intros H.
  - constructor; [tauto | constructor].
  - inversion H as [|? ? Hn Hd]; subst.
    destruct (String.eqb_spec k0 k) as [->|N]; simpl.
    + constructor; assumption.
    + constructor; [|auto].
      rewrite assoc_set_keys. intros [E|I]; [congruence | contradiction].
Qed.

Lemma assoc_set_Forall (P : string * A -> Prop) k v m :
  Forall P m -> P (k, v) -> Forall P (assoc_set k v m).
Proof.
  induction m as [|[k0 v0] m IH]; simpl; intros H HP.
  - constructor; [exact HP | constructor].
  - inversion H; subst.
    destruct (String.eqb k0 k); constructor; auto.
Qed.

Lemma assoc_has_set a k v m :
  assoc_has a (assoc_set k v m) = String.eqb k a || assoc_has a m.
Proof.
  unfold assoc_has. induction m as [|[k0 v0] m IH]; simpl.
  - destruct (String.eqb k a); reflexivity.
  - destruct (String.eqb_spec k0 k) as [->|N]; simpl.
    + destruct (String.eqb k a); reflexivity.
    + destruct (String.eqb_spec k0 a) as [->|N'].
      * now rewrite orb_true_r.
      * exact IH.
Qed.

Lemma lookup_has k m v : lookup k m = Some v -> assoc_has k m = true.
Proof. unfold assoc_has. now intros ->. Qed.

Lemma lookup_In k m v : lookup k m = Some v -> In (k, v) m.
Proof.
  induction m as [|[k0 v0] m IH]; simpl; [discriminate|].
  destruct (String.eqb_spec k0 k) as [->|N].
  - intros [= ->]. now left.
  - auto.
Qed.

Lemma assoc_delete_incl k m e : In e (assoc_delete k m) -> In e m.
Proof.
  induction m as [|[k0 v0] m IH]; simpl; [tauto|].
  destruct (String.eqb k0 k); simpl; intuition.
Qed.

Lemma assoc_delete_NoDup k m :
  NoDup (map fst m) -> NoDup (map fst (assoc_delete k m)).
Proof.
  induction m as [|[k0 v0] m IH]; simpl; intros H; [constructor|].
  inversion H as [|? ? Hn Hd]; subst.
  destruct (String.eqb k0 k); simpl; [assumption|].
  constructor; [|auto].
  intros I. apply Hn. apply in_map_iff in I as ([k1 v1] & E & I).
  simpl in E. subst. apply in_map_iff. exists (k0, v1).
  split; [reflexivity | eapply assoc_delete_incl, I].
Qed.

Lemma assoc_delete_Forall (P : string * A -> Prop) k m :
  Forall P m -> Forall P (assoc_delete k m).
Proof.
  rewrite !Forall_forall. intros H e I. eapply H, assoc_delete_incl, I.
Qed.

Lemma assoc_has_delete a k m :
  a <> k -> assoc_has a (assoc_delete k m) = assoc_has a m.
Proof.
  intros N. unfold assoc_has. induction m as [|[k0 v0] m IH]; simpl.
  - reflexivity.
  - destruct (String.eqb_spec k0 k) as [->|N0]; simpl.
    + destruct (String.eqb_spec k a); [congruence | reflexivity].
    + destruct (String.eqb k0 a); [reflexivity | exact IH].
Qed.

(** Copying a map with distinct keys, entry by entry, into an object
    gives the same entries in the same order. *)
Lemma copy_entries m : forall acc,
  NoDup (map fst (acc ++ m)) ->
  fold_left (fun obj entry => assoc_set (fst entry) (snd entry) obj) m acc
  = (acc ++ m)%list.
Proof.
  induction m as [|[k v] m IH]; intros acc H; simpl.
  - now rewrite app_nil_r.
  - rewrite assoc_set_fresh.
    + rewrite IH; rewrite <- app_assoc; [reflexivity | exact H].
    + rewrite map_app in H. simpl in H.
      apply NoDup_remove_2 in H. intros I. apply H, in_or_app. now left.
Qed.

End AssocLists.

Section ConversationStore.
Import Js ChatController.
Import APIErrorHandler (JsError).

#[local] Abbreviation keyed :=
  (fun entry : string * ChatSession =>
     session_id (snd entry) = fst entry /\ truthy (fst entry) = true).

(** Reading the saved sessions back, each under its own [id], gives the
    same entries in the same order. *)
Lemma restore_entries (l : list (string * ChatSession)) : forall acc,
  Forall keyed l ->
  NoDup (map fst (acc ++ l)) ->
  fold_left (fun m session => assoc_set (session_id session) session m)
            (map snd l) acc
  = (acc ++ l)%list.
Proof.
  induction l as [|[k s] l IH]; intros acc K H; simpl.
  - now rewrite app_nil_r.
  - inversion K as [|? ? [Hk _] K']; subst. simpl in Hk. rewrite Hk.
    rewrite assoc_set_fresh.
    + rewrite IH.
      * now rewrite <- app_assoc.
      * exact K'.
      * now rewrite <- app_assoc.
    + rewrite map_app in H. simpl in H.
      apply NoDup_remove_2 in H. intros I. apply H, in_or_app. now left.
Qed.

Lemma insert_recent_In s l x :
  In x (insert_recent s l) <-> x = s \/ In x l.
Proof.
  induction l as [|y l IH]; simpl.
  - intuition.
  - destruct (updatedAt s <? updatedAt y); simpl; [rewrite IH|]; intuition.
Qed.

Lemma sort_recent_In l x : In x (sort_recent l) <-> In x l.
Proof.
  induction l as [|y l IH]; simpl.
  - tauto.
  - rewrite insert_recent_In, IH. intuition.
Qed.

Lemma has_truthy st a :
  well_formed st -> assoc_has a (sessions st) = true -> truthy a = true.
Proof.
  intros (_ & K & _) H. apply assoc_has_In, in_map_iff in H.
  destruct H as ([k s] & <- & I).
  rewrite Forall_forall in K. now destruct (K _ I).
Qed.

Lemma lookup_keyed st sid s :
  well_formed st -> lookup sid (sessions st) = Some s ->
  session_id s = sid /\ truthy sid = true.
Proof.
  intros (_ & K & _) H. apply lookup_In in H.
  rewrite Forall_forall in K. exact (K _ H).
Qed.

(** Replacing a session by one with the same [id]. *)
Lemma replace_well_formed st sid s s' :
  well_formed st -> lookup sid (sessions st) = Some s ->
  session_id s' = session_id s ->
  well_formed (mkState (assoc_set sid s' (sessions st)) (activeSession st)).
Proof.
  intros W L E. destruct (lookup_keyed st sid s W L) as [Hk Ht].
  destruct W as (D & K & Act). unfold well_formed. simpl.
  split; [now apply assoc_set_NoDup|]. split.
  - apply assoc_set_Forall; [exact K|]. simpl. split; congruence.
  - destruct (activeSession st) as [a|].
    + destruct Act as [Ta Ha]. split; [exact Ta|].
      rewrite assoc_has_set, Ha. apply orb_true_r.
    + rewrite Act in L. discriminate.
Qed.

Lemma createSession_well_formed st t m sid mid now :
  well_formed st -> truthy sid = true ->
  well_formed (fst (createSession st t m sid mid now)).
Proof.
  intros (D & K & _) T. unfold createSession, well_formed. simpl.
  split; [now apply assoc_set_NoDup|]. split.
  - apply assoc_set_Forall; [exact K|]. simpl. auto.
  - split; [exact T|]. rewrite assoc_has_set, String.eqb_refl. reflexivity.
Qed.

Lemma setActiveSession_well_formed st sid :
  well_formed st -> well_formed (fst (setActiveSession st sid)).
Proof.
  intros W. unfold setActiveSession.
  destruct (assoc_has sid (sessions st)) eqn:H; simpl; [|exact W].
  pose proof (has_truthy st sid W H) as T.
  destruct W as (D & K & _). repeat split; assumption.
Qed.

Lemma updateSession_well_formed st sid u mid now :
  well_formed st -> well_formed (fst (updateSession st sid u mid now)).
Proof.
  intros W. unfold updateSession.
  destruct (lookup sid (sessions st)) as [s|] eqn:L; [|exact W].
  destruct (new_systemMessage u); simpl;
    now apply (replace_well_formed st sid s).
Qed.

Lemma deleteSession_well_formed st sid :
  well_formed st -> well_formed (fst (deleteSession st sid)).
Proof.
  intros W. unfold deleteSession.
  destruct (assoc_has sid (sessions st)) eqn:H; simpl; [|exact W].
  destruct W as (D & K & Act). unfold well_formed. simpl.
  split; [now apply assoc_delete_NoDup|].
  split; [now apply assoc_delete_Forall|].
  destruct (activeSession st) as [a|].
  - destruct Act as [Ta Ha].
    destruct (String.eqb_spec a sid) as [->|N].
    + unfold getAllSessions. simpl.
      destruct (sort_recent (map snd (assoc_delete sid (sessions st))))
        as [|first rest] eqn:S.
      * destruct (assoc_delete sid (sessions st)) as [|e l]; [reflexivity|].
        assert (I : In (snd e) (sort_recent (map snd (e :: l))))
          by (apply sort_recent_In; now left).
        rewrite S in I. destruct I.
      * assert (I : In first (map snd (assoc_delete sid (sessions st))))
          by (apply sort_recent_In; rewrite S; now left).
        apply in_map_iff in I as ([k s] & E & I). simpl in E. subst s.
        pose proof (assoc_delete_Forall _ sid _ K) as K'.
        rewrite Forall_forall in K'. destruct (K' _ I) as [Ek Tk].
        simpl in Ek, Tk. rewrite Ek. split; [exact Tk|].
        apply assoc_has_In, in_map_iff. exists (k, first). auto.
    + split; [exact Ta|]. now rewrite assoc_has_delete.
  - rewrite Act. reflexivity.
Qed.

Lemma addUserMessage_well_formed st sid text mid now :
  well_formed st -> well_formed (fst (addUserMessage st sid text mid now)).
Proof.
  intros W. unfold addUserMessage.
  destruct (lookup sid (sessions st)) as [s|] eqn:L; [|exact W].
  now apply (replace_well_formed st sid s).
Qed.

Lemma handleMessage_well_formed st sid text uid n1 p rid n2 :
  well_formed st ->
  well_formed (fst (handleMessage st sid text uid n1 p rid n2)).
Proof.
  intros W. unfold handleMessage.
  pose proof (addUserMessage_well_formed st sid text uid n1 W) as W1.
  destruct (addUserMessage st sid text uid n1) as [st1 [msg|e]];
    simpl in *; [|exact W1].
  destruct (lookup sid (sessions st1)) as [s|] eqn:L; [|exact W1].
  now apply (replace_well_formed st1 sid s).
Qed.

Lemma handleCodeGeneration_well_formed st sid text uid n1 g rid n2 :
  well_formed st ->
  well_formed (fst (handleCodeGeneration st sid text uid n1 g rid n2)).
Proof.
  intros W. unfold handleCodeGeneration.
  destruct (lookup sid (sessions st)) as [s0|] eqn:L0; [|exact W].
  pose proof (addUserMessage_well_formed st sid text uid n1 W) as W1.
  destruct (lookup sid (sessions (fst (addUserMessage st sid text uid n1))))
    as [s|] eqn:L; [|exact W1].
  destruct g as [response|error]; simpl;
    now apply (replace_well_formed _ sid s).
Qed.

Lemma clearSessionHistory_well_formed st sid now :
  well_formed st -> well_formed (fst (clearSessionHistory st sid now)).
Proof.
  intros W. unfold clearSessionHistory.
  destruct (lookup sid (sessions st)) as [s|] eqn:L; [|exact W].
  now apply (replace_well_formed st sid s).
Qed.

Lemma reachable_well_formed st : reachable st -> well_formed st.
Proof.
  induction 1 as [|st op R W V].
  - repeat split; constructor.
  - destruct op; simpl in *.
    + now apply createSession_well_formed.
    + now apply setActiveSession_well_formed.
    + now apply updateSession_well_formed.
    + now apply deleteSession_well_formed.
    + now apply addUserMessage_well_formed.
    + now apply handleMessage_well_formed.
    + now apply handleCodeGeneration_well_formed.
    + now apply clearSessionHistory_well_formed.
Qed.

Lemma well_formed_roundtrip st storage :
  well_formed st -> loadSessions (saveSessions st storage) fresh = st.
Proof.
  intros (D & K & Act). unfold saveSessions.
  rewrite (copy_entries (sessions st) []) by exact D. simpl.
  destruct st as [ss [a|]]; simpl in *.
  - destruct Act as [Ta Ha]. rewrite Ta. unfold loadSessions. simpl.
    rewrite (restore_entries ss []) by assumption. simpl.
    now rewrite Ta, Ha.
  - subst ss. unfold loadSessions. simpl.
    destruct (stored_activeSession storage) as [x|]; [|reflexivity].
    now rewrite andb_false_r.
Qed.

(** C8. Saving a reachable store, over whatever the storage held, and
    loading the result into a fresh controller gives back the store:
    the same sessions under the same ids (in the same order), and the
    same active session. *)
Theorem save_load_roundtrip st storage :
  reachable st ->
  let st' := loadSessions (saveSessions st storage) fresh in
  sessions st' = sessions st
  /\ (forall sessionId, getSession st' sessionId = getSession st sessionId)
  /\ activeSession st' = activeSession st.
Proof.
  intros R st'. unfold st'.
  rewrite (well_formed_roundtrip st storage (reachable_well_formed st R)).
  auto.
Qed.

Lemma save_load_roundtrip_witness :
  reachable sample_store
  /\ sessions (loadSessions
                 (saveSessions sample_store (mkMemento None (Some "stale")))
                 fresh)
     = sessions sample_store
  /\ activeSession (loadSessions
                      (saveSessions sample_store
                         (mkMemento None (Some "stale")))
                      fresh)
     = Some "3f0c1d52-8a3e-4b1f-9c57-2e6d1a4b7c90".
Proof.
  assert (R : reachable sample_store).
  { unfold sample_store, sample_ops. cbn [fold_left].
    do 4 (apply reach_apply; [|exact I || reflexivity]).
    apply reach_fresh. }
  split; [exact R|].
  destruct (save_load_roundtrip sample_store
              (mkMemento None (Some "stale")) R) as (A & _ & B).
  split; [exact A | exact B].
Defined.

End ConversationStore.

(* ================================================================= *)
(** ** Code extraction *)

Section CodeExtraction.
Import Js ResponsePostProcessor.

Example scenario_extracted :
  extractCodeFromResponse scenario None
  = mkExtracted ("def f():" ++ nl ++ "    return 1") (Some "python").
Proof. vm_compute. reflexivity. Qed.

Example scenario_extracted_by_chat :
  ChatService.extractCodeFromMessage scenario
  = ("def f():" ++ nl ++ "    return 1", Some "python").
Proof. vm_compute. reflexivity. Qed.

Example prose_is_not_code :
  ResponsePostProcessor.exec_codeBlock prose = None
  /\ looksLikeCode prose = false.
Proof. split; vm_compute; reflexivity. Qed.

Lemma span_word_tag lang : forall tail,
  forallb is_word (list_ascii_of_string lang) = true ->
  Regex.span_word (lang ++ nl ++ tail) = (lang, nl ++ tail).
Proof.
  induction lang as [|c lang IH]; intros tail H; simpl in *.
  - reflexivity.
  - apply andb_prop in H as [Hc Hl]. rewrite Hc, (IH tail Hl). reflexivity.
Qed.

(** Text before the first backquote plays no part in the search. *)
Lemma exec_skips_plain_text pre : forall text,
  forallb (fun c => negb (Ascii.eqb c "`")) (list_ascii_of_string pre) = true ->
  ResponsePostProcessor.exec_codeBlock (pre ++ text)
  = ResponsePostProcessor.exec_codeBlock text.
Proof.
  induction pre as [|c pre IH]; intros text H; simpl in *.
  - reflexivity.
  - apply andb_prop in H as [Hc Hp]. rewrite <- (IH text Hp).
    destruct (Ascii.eqb_spec c "`") as [->|N]; [discriminate|].
    destruct c as [[] [] [] [] [] [] [] []]; try reflexivity.
    now contradiction N.
Qed.

(** A fenced block with a language tag is extracted, with its tag: the
    text up to the first backquote is skipped, the tag is the word
    before the line feed, and the code is the trimmed text between that
    line feed and the next fence. *)
Lemma tagged_block_extracted pre lang tail body post defaultLanguage :
  forallb (fun c => negb (Ascii.eqb c "`")) (list_ascii_of_string pre) = true ->
  forallb is_word (list_ascii_of_string lang) = true ->
  truthy lang = true ->
  Regex.split_at_fence tail = Some (body, post) ->
  extractCodeFromResponse (pre ++ Regex.fence ++ lang ++ nl ++ tail)
                          defaultLanguage
  = mkExtracted (trim body) (Some lang).
Proof.
  intros Hpre Hlang Ht Hs. unfold extractCodeFromResponse.
  rewrite (exec_skips_plain_text pre _ Hpre).
  change (Regex.fence ++ lang ++ nl ++ tail)
    with (String "`" (String "`" (String "`" (lang ++ nl ++ tail)))).
  cbn [ResponsePostProcessor.exec_codeBlock].
  rewrite (span_word_tag lang tail Hlang).
  destruct lang as [|c lang]; [discriminate|].
  change (nl ++ tail) with (String (ascii_of_nat 10) tail).
  cbv iota. change (Js.code (ascii_of_nat 10) =? 10)%nat with true.
  cbv iota. rewrite Hs. reflexivity.
Qed.

(** Without a fence the text is trimmed and returned as code, whether
    it looks like code or not. *)
Lemma unfenced_text_trimmed text defaultLanguage :
  ResponsePostProcessor.exec_codeBlock text = None ->
  extractCodeFromResponse text defaultLanguage
  = mkExtracted (trim text) defaultLanguage.
Proof.
  intros H. unfold extractCodeFromResponse. rewrite H.
  destruct (looksLikeCode text); reflexivity.
Qed.

(** C9, at the input where the code departs from it. The text
    [" Hello there. "] has no fenced block and does not look like code,
    yet it is not passed through unchanged: [extractCodeFromResponse]
    returns it trimmed, as code, and [processResponse] puts the trimmed
    text in place of the generated text. (The sibling
    [extractCodeFromMessage] returns no code for the same text.) *)
Theorem prose_not_passed_through :
  ResponsePostProcessor.exec_codeBlock prose = None
  /\ looksLikeCode prose = false
  /\ extractCodeFromResponse prose None = mkExtracted "Hello there." None
  /\ code (extractCodeFromResponse prose None) <> prose
  /\ Models.generatedText
       (processResponse no_prettier
          (Models.mkLLMResponse prose None (Some Models.stop) None None
                                None None None)
          (mkOptions "Say hello" None None None None None))
     = "Hello there."
  /\ ChatService.extractCodeFromMessage prose = ("", None).
Proof.
  repeat split; try (vm_compute; reflexivity). vm_compute. discriminate.
Qed.

End CodeExtraction.

(* ================================================================= *)
(** ** Source selection *)

Section SourceSelection.
Import Js Guide.

Variable envManager : EnvManager.
Variable runInference : LLMRequest -> LLMResponse.
Variable sendChatRequest : ChatLLMRequest -> ChatLLMResponse.
Variable processCode : string -> option string -> bool -> string.

(** An explicit request is followed without looking at the
    configuration. *)
Lemma determineSource_explicit c :
  determineSource c (Some LOCAL) = Ok LOCAL
  /\ determineSource c (Some API) = Ok API.
Proof. split; reflexivity. Qed.

(** With a secret storage, [setApiKey] leaves the configuration as it
    is. *)
Lemma setApiKey_secret key :
  secretStorage envManager <> None ->
  getConfig (setApiKey envManager key) = getConfig envManager.
Proof.
  unfold setApiKey, getConfig.
  destruct (secretStorage envManager); [reflexivity | congruence].
Qed.


End SourceSelection.

Section SourceSelectionWitness.
Import Js Guide.



End SourceSelectionWitness.

(* ================================================================= *)
(** ** Failures of a dispatch *)

Section Dispatch.
Import Js.
Import APIErrorHandler (JsError, PlainErr, error_text).

(** *** [ChatService.processMessage] *)

Variable loadConfig : Result JsError ChatService.EnvConfig.
Variable runChatInference :
  Models.ChatLLMRequest -> Result JsError Models.ChatLLMResponse.
Variable sendChatRequest :
  Models.ChatLLMRequest -> Result JsError Models.ChatLLMResponse.

#[local] Abbreviation processMessage :=
  (ChatService.processMessage loadConfig runChatInference sendChatRequest).
#[local] Abbreviation processMessage_try :=
  (ChatService.processMessage_try loadConfig runChatInference sendChatRequest).

Lemma apology_not_empty text :
  truthy (ChatService.apology ++ text) = true.
Proof. reflexivity. Qed.

(** Whatever the collaborators do, [processMessage] returns a response;
    when its [try] block raises, that response is the one of the
    [catch] clause. *)
Lemma processMessage_returns session message useLocalModel u1 n1 u2 n2 :
  exists response,
    processMessage session message useLocalModel u1 n1 u2 n2 = Ok response
    /\ (forall e,
          processMessage_try session message useLocalModel u1 n1 = Throw e ->
          response
          = ChatService.error_response session useLocalModel e u2 n2).
Proof.
  unfold ChatService.processMessage.
  destruct (processMessage_try session message useLocalModel u1 n1)
    as [response|e]; simpl.
  - exists response. split; [reflexivity|]. intros e' H. discriminate H.
  - eexists. split; [reflexivity|]. intros e' H. now injection H as <-.
Qed.

(** A failed configuration load is absorbed. *)
Lemma processMessage_config_failure session message useLocalModel u1 n1 e :
  loadConfig = Throw e ->
  processMessage_try session message useLocalModel u1 n1 = Throw e.
Proof. intros H. unfold ChatService.processMessage_try. now rewrite H. Qed.

(** So is an exception of the backend, and so is a response that
    carries an error, such as the refusal of a local inference at the
    concurrency limit. *)
Lemma processMessage_backend_failure session message (useLocalModel : bool)
      u1 n1 config :
  loadConfig = Ok config ->
  (forall e,
     (forall request,
        (if useLocalModel then runChatInference else sendChatRequest) request
        = Throw e) ->
     processMessage_try session message useLocalModel u1 n1 = Throw e)
  /\ (forall text,
        (forall request, exists backend,
           (if useLocalModel then runChatInference request
            else sendChatRequest request) = Ok backend
           /\ Models.response_error (Models.base backend) = Some text) ->
        truthy text = true ->
        processMessage_try session message useLocalModel u1 n1
        = Throw (PlainErr text)).
Proof.
  intros Hc. split.
  - intros e He. unfold ChatService.processMessage_try.
    rewrite Hc. cbn [bind].
    destruct useLocalModel; cbv iota in He; now rewrite He.
  - intros text Hr Ht.
    unfold ChatService.processMessage_try. rewrite Hc. cbn [bind].
    match goal with
    | |- context [if useLocalModel then runChatInference ?r
                  else sendChatRequest ?r] =>
        destruct (Hr r) as (backend & -> & Herr)
    end.
    cbn [bind]. rewrite Herr. cbn [truthy_opt]. now rewrite Ht.
Qed.

(** *** [CodeGenerator.generateCode] *)

Variable parsePrompt :
  string -> CodeGenerator.CodeGenerationOptions -> string ->
  Result JsError Models.LLMRequest.
Variable detectLanguage : string -> option string.
Variable runInference :
  Models.LLMRequest -> Result JsError Models.LLMResponse.
Variable sendCompletionRequest :
  Models.LLMRequest -> Result JsError Models.LLMResponse.
Variable prettier : ResponsePostProcessor.Prettier.

#[local] Abbreviation generateCode :=
  (CodeGenerator.generateCode parsePrompt detectLanguage runInference
                              sendCompletionRequest prettier).
#[local] Abbreviation generateCode_try :=
  (CodeGenerator.generateCode_try parsePrompt detectLanguage runInference
                                  sendCompletionRequest prettier).

Lemma generateCode_returns prompt options requestId startTime now :
  exists response,
    generateCode prompt options requestId startTime now = Ok response
    /\ (forall e,
          generateCode_try prompt options requestId startTime now = Throw e ->
          response
          = CodeGenerator.failure_response options e requestId startTime now).
Proof.
  unfold CodeGenerator.generateCode.
  destruct (generateCode_try prompt options requestId startTime now)
    as [response|e]; simpl.
  - exists response. split; [reflexivity|]. intros e' H. discriminate H.
  - eexists. split; [reflexivity|]. intros e' H. now injection H as <-.
Qed.

(** An error response of the backend goes through post-processing as it
    is. *)
Lemma processResponse_keeps_errors response options text :
  Models.response_error response = Some text -> truthy text = true ->
  ResponsePostProcessor.processResponse prettier response options = response.
Proof.
  intros H T. unfold ResponsePostProcessor.processResponse.
  rewrite H. cbn [truthy_opt]. now rewrite T.
Qed.

(** [generateCode] passes an error response of its backend on, with a
    latency of its own. *)
Lemma generateCode_backend_failure prompt options requestId startTime now
      request backend text :
  parsePrompt prompt options requestId = Ok request ->
  (if match CodeGenerator.useLocalModel options with
      | Some b => b
      | None => false
      end
   then runInference request else sendCompletionRequest request)
  = Ok backend ->
  Models.response_error backend = Some text -> truthy text = true ->
  exists language,
    generateCode prompt options requestId startTime now
    = Ok (Models.mkCodeLLMResponse
            (CodeGenerator.with_latency backend (now - startTime))
            language None).
Proof.
  intros Hp Hb He Ht.
  unfold CodeGenerator.generateCode, CodeGenerator.generateCode_try.
  rewrite Hp. cbn [bind]. rewrite Hb. cbn [bind try_catch].
  rewrite (processResponse_keeps_errors _ _ _ He Ht).
  eexists. reflexivity.
Qed.

(** *** The failure responses of the backends *)

Lemma runInference_failure st request uuid startTime block now :
  LocalInference.MAX_CONCURRENT_INFERENCES <= LocalInference.activeInferences st
  \/ (exists e, block = Throw e) ->
  let r :=
    snd (LocalInference.runInference st request uuid startTime block now) in
  Models.finishReason r = Some Models.error
  /\ Models.generatedText r = ""
  /\ exists text, Models.response_error r = Some text /\ truthy text = true.
Proof.
  intros H. unfold LocalInference.runInference, LocalInference.runInference_enter.
  cbn [LocalInference.activeInferences LocalInference.inferenceCount].
  destruct (Z.leb_spec LocalInference.MAX_CONCURRENT_INFERENCES
              (LocalInference.activeInferences st)) as [L|L].
  - cbn. repeat split. eexists. split; reflexivity.
  - destruct H as [H | [e ->]]; [lia|].
    cbn. repeat split. eexists. split; reflexivity.
Qed.

Lemma runChatInference_failure st request uuid startTime block now :
  LocalInference.MAX_CONCURRENT_INFERENCES <= LocalInference.activeInferences st
  \/ (exists e, block = Throw e) ->
  let r :=
    Models.base
      (snd (LocalInference.runChatInference st request uuid startTime block
              now)) in
  Models.finishReason r = Some Models.error
  /\ Models.generatedText r = ""
  /\ exists text, Models.response_error r = Some text /\ truthy text = true.
Proof.
  intros H.
  unfold LocalInference.runChatInference, LocalInference.runChatInference_enter.
  cbn [LocalInference.activeInferences LocalInference.inferenceCount].
  destruct (Z.leb_spec LocalInference.MAX_CONCURRENT_INFERENCES
              (LocalInference.activeInferences st)) as [L|L].
  - cbn. repeat split. eexists. split; reflexivity.
  - destruct H as [H | [e ->]]; [lia|].
    cbn. repeat split. eexists. split; reflexivity.
Qed.

Lemma sendCompletionRequest_failure {D : Type}
      (ensure_config : Result JsError unit)
      (prepare : Models.LLMRequest -> Result JsError unit)
      (post : nat -> Result JsError D) (random : nat -> Q)
      (complete : Models.LLMRequest -> string -> Z -> D ->
                  Result JsError Models.LLMResponse)
      (is_uuid : string -> bool) (zodError : Models.LLMResponse -> JsError)
      request uuid startTime now1 now2 error :
  ensure_config = Ok tt ->
  ExternalLLMConnector.sendCompletionRequest_try prepare post random complete
    request (ExternalLLMConnector.completion_id request uuid) startTime
  = Throw error ->
  let failure :=
    ExternalLLMConnector.completion_errorResponse
      (ExternalLLMConnector.completion_id request uuid) error startTime now1
      now2 in
  let outcome :=
    ExternalLLMConnector.sendCompletionRequest ensure_config prepare post
      random complete is_uuid zodError request uuid startTime now1 now2 in
  (outcome = Ok failure \/ outcome = Throw (zodError failure))
  /\ (is_uuid (ExternalLLMConnector.completion_id request uuid) = true ->
      startTime <= now2 -> outcome = Ok failure).
Proof.
  intros C T. cbv zeta.
  unfold ExternalLLMConnector.sendCompletionRequest. rewrite C. cbn [bind].
  rewrite T. unfold ExternalLLMConnector.validateLLMResponse.
  split.
  - destruct (_ && _ && _); [now left | now right].
  - intros U L.
    cbn [ExternalLLMConnector.completion_errorResponse Models.tokenUsage
         Models.response_requestId Models.latency].
    rewrite U.
    replace (0 <=? now2 - startTime) with true
      by (symmetry; apply Z.leb_le; lia).
    reflexivity.
Qed.

Lemma sendChatRequest_failure {D : Type}
      (ensure_config : Result JsError unit)
      (post : nat -> Result JsError D) (random : nat -> Q)
      (complete : Models.ChatLLMRequest -> string -> Z -> D ->
                  Result JsError Models.ChatLLMResponse)
      (is_uuid : string -> bool) (zodError : Models.ChatLLMResponse -> JsError)
      request uuid startTime now1 now2 error :
  ensure_config = Ok tt ->
  ExternalLLMConnector.sendChatRequest_try post random complete
    request (ExternalLLMConnector.request_id request uuid) startTime
  = Throw error ->
  let failure :=
    ExternalLLMConnector.errorResponse request
      (ExternalLLMConnector.request_id request uuid) error startTime now1
      now2 in
  let outcome :=
    ExternalLLMConnector.sendChatRequest ensure_config post
      random complete is_uuid zodError request uuid startTime now1 now2 in
  (outcome = Ok failure \/ outcome = Throw (zodError failure))
  /\ (is_uuid (ExternalLLMConnector.request_id request uuid) = true ->
      startTime <= now2 -> outcome = Ok failure).
Proof.
  intros C T. cbv zeta.
  unfold ExternalLLMConnector.sendChatRequest_try in T.
  unfold ExternalLLMConnector.sendChatRequest. rewrite C. cbn [bind].
  rewrite T. unfold ExternalLLMConnector.validateChatLLMResponse.
  split.
  - destruct (_ && _ && _); [now left | now right].
  - intros U L.
    cbn [ExternalLLMConnector.errorResponse Models.tokenUsage Models.base
         Models.response_requestId Models.latency].
    rewrite U.
    replace (0 <=? now2 - startTime) with true
      by (symmetry; apply Z.leb_le; lia).
    reflexivity.
Qed.

(** *** The code generator of the guide *)

Variable config : Guide.EnvConfig.
Variable guide_runInference : Guide.LLMRequest -> Guide.LLMResponse.
Variable guide_sendChatRequest : Guide.ChatLLMRequest -> Guide.ChatLLMResponse.
Variable processCode : string -> option string -> bool -> string.

Lemma guide_generateCode_rethrows prompt options :
  Guide.generateCode config guide_runInference guide_sendChatRequest
                     processCode prompt options
  = Guide.generateCode_try config guide_runInference guide_sendChatRequest
                           processCode prompt options.
Proof.
  unfold Guide.generateCode.
  destruct (Guide.generateCode_try _ _ _ _ _ _); reflexivity.
Qed.

(** C1, as the code has it. [ChatService.processMessage] and the
    extension's [CodeGenerator.generateCode] always return a response.
    Their backends answer a failure with a response that has
    [finishReason = error], an empty text and a non-empty [error]: the
    local inference at its concurrency limit or when its [try] block
    fails, the connector when its [try] block fails (the transport
    errors) and the response it builds passes its schema, which it does
    for a request id that is a UUID. [generateCode] passes such a
    response on with its error, reason and text, and turns every
    exception raised in its [try] block into a response with
    [finishReason = error], an empty text and the error
    [Code generation failed: ...]. [processMessage] turns such a
    response, like every exception raised in its [try] block (a failed
    configuration load, an exception of a backend) into a response with
    [finishReason = error] whose [generatedText] is its apology followed
    by the message, leaving [error] unset. The [generateCode] of the
    guide raises to its caller every exception of its [try] block. *)
Theorem failures_absorbed :
  (forall session message useLocalModel u1 n1 u2 n2,
     exists response,
       processMessage session message useLocalModel u1 n1 u2 n2 = Ok response
       /\ (forall e,
             processMessage_try session message useLocalModel u1 n1 = Throw e ->
             Models.finishReason (Models.base response) = Some Models.error
             /\ Models.generatedText (Models.base response)
                = ChatService.apology ++ error_text e
             /\ truthy (Models.generatedText (Models.base response)) = true
             /\ Models.response_error (Models.base response) = None)
       /\ (forall config text,
             loadConfig = Ok config ->
             (forall request, exists backend,
                (if useLocalModel then runChatInference request
                 else sendChatRequest request) = Ok backend
                /\ Models.response_error (Models.base backend) = Some text) ->
             truthy text = true ->
             Models.finishReason (Models.base response) = Some Models.error
             /\ Models.generatedText (Models.base response)
                = ChatService.apology ++ text
             /\ Models.response_error (Models.base response) = None))
  /\ (forall prompt options requestId startTime now,
        exists response,
          generateCode prompt options requestId startTime now = Ok response
          /\ (forall e,
                generateCode_try prompt options requestId startTime now
                = Throw e ->
                Models.finishReason (Models.code_base response)
                = Some Models.error
                /\ Models.response_error (Models.code_base response)
                   = Some ("Code generation failed: " ++ error_text e)
                /\ Models.generatedText (Models.code_base response) = "")
          /\ (forall request backend text,
                parsePrompt prompt options requestId = Ok request ->
                (if match CodeGenerator.useLocalModel options with
                    | Some b => b
                    | None => false
                    end
                 then runInference request
                 else sendCompletionRequest request) = Ok backend ->
                Models.response_error backend = Some text ->
                truthy text = true ->
                Models.code_base response
                = CodeGenerator.with_latency backend (now - startTime)
                /\ Models.response_error (Models.code_base response)
                   = Some text
                /\ Models.finishReason (Models.code_base response)
                   = Models.finishReason backend
                /\ Models.generatedText (Models.code_base response)
                   = Models.generatedText backend))
  /\ (forall st uuid startTime block now,
        LocalInference.MAX_CONCURRENT_INFERENCES
        <= LocalInference.activeInferences st
        \/ (exists e, block = Throw e) ->
        (forall request,
           let r :=
             snd (LocalInference.runInference st request uuid startTime
                    block now) in
           Models.finishReason r = Some Models.error
           /\ Models.generatedText r = ""
           /\ exists text,
                Models.response_error r = Some text /\ truthy text = true)
        /\ (forall request,
              let r :=
                Models.base
                  (snd (LocalInference.runChatInference st request uuid
                          startTime block now)) in
              Models.finishReason r = Some Models.error
              /\ Models.generatedText r = ""
              /\ exists text,
                   Models.response_error r = Some text
                   /\ truthy text = true))
  /\ (forall (D : Type) (ensure_config : Result JsError unit)
             (prepare : Models.LLMRequest -> Result JsError unit)
             (post : nat -> Result JsError D) (random : nat -> Q)
             (complete : Models.LLMRequest -> string -> Z -> D ->
                         Result JsError Models.LLMResponse)
             (is_uuid : string -> bool)
             (zodError : Models.LLMResponse -> JsError)
             request uuid startTime now1 now2 error,
        ensure_config = Ok tt ->
        ExternalLLMConnector.sendCompletionRequest_try prepare post random
          complete request (ExternalLLMConnector.completion_id request uuid)
          startTime = Throw error ->
        let failure :=
          ExternalLLMConnector.completion_errorResponse
            (ExternalLLMConnector.completion_id request uuid) error startTime
            now1 now2 in
        let outcome :=
          ExternalLLMConnector.sendCompletionRequest ensure_config prepare
            post random complete is_uuid zodError request uuid startTime now1
            now2 in
        (outcome = Ok failure \/ outcome = Throw (zodError failure))
        /\ (is_uuid (ExternalLLMConnector.completion_id request uuid) = true ->
            startTime <= now2 -> outcome = Ok failure)
        /\ Models.finishReason failure = Some Models.error
        /\ Models.generatedText failure = ""
        /\ Models.response_error failure
           = Some ("API request failed: " ++ error_text error)
        /\ truthy ("API request failed: " ++ error_text error) = true)
  /\ (forall (D : Type) (ensure_config : Result JsError unit)
             (post : nat -> Result JsError D) (random : nat -> Q)
             (complete : Models.ChatLLMRequest -> string -> Z -> D ->
                         Result JsError Models.ChatLLMResponse)
             (is_uuid : string -> bool)
             (zodError : Models.ChatLLMResponse -> JsError)
             request uuid startTime now1 now2 error,
        ensure_config = Ok tt ->
        ExternalLLMConnector.sendChatRequest_try post random complete request
          (ExternalLLMConnector.request_id request uuid) startTime
        = Throw error ->
        let failure :=
          ExternalLLMConnector.errorResponse request
            (ExternalLLMConnector.request_id request uuid) error startTime
            now1 now2 in
        let outcome :=
          ExternalLLMConnector.sendChatRequest ensure_config post random
            complete is_uuid zodError request uuid startTime now1 now2 in
        (outcome = Ok failure \/ outcome = Throw (zodError failure))
        /\ (is_uuid (ExternalLLMConnector.request_id request uuid) = true ->
            startTime <= now2 -> outcome = Ok failure)
        /\ Models.finishReason (Models.base failure) = Some Models.error
        /\ Models.generatedText (Models.base failure) = ""
        /\ Models.response_error (Models.base failure)
           = Some ("Chat API request failed: " ++ error_text error)
        /\ truthy ("Chat API request failed: " ++ error_text error) = true)
  /\ (forall prompt options e,
        Guide.generateCode_try config guide_runInference
          guide_sendChatRequest processCode prompt options = Throw e ->
        Guide.generateCode config guide_runInference guide_sendChatRequest
                           processCode prompt options
        = Throw e).
Proof.
  split; [|split; [|split; [|split; [|split]]]].
  - intros session message useLocalModel u1 n1 u2 n2.
    destruct (processMessage_returns session message useLocalModel u1 n1 u2 n2)
      as (response & Hr & He).
    exists response. split; [exact Hr|]. split.
    + intros e Ht. rewrite (He e Ht). repeat split.
    + intros c text Hc Hb Ht.
      destruct (processMessage_backend_failure session message useLocalModel
                  u1 n1 c Hc) as [_ B].
      rewrite (He _ (B text Hb Ht)). repeat split.
  - intros prompt options requestId startTime now.
    destruct (generateCode_returns prompt options requestId startTime now)
      as (response & Hr & He).
    exists response. split; [exact Hr|]. split.
    + intros e Ht. rewrite (He e Ht). repeat split.
    + intros request backend text Hp Hb Herr Ht.
      destruct (generateCode_backend_failure prompt options requestId
                  startTime now request backend text Hp Hb Herr Ht)
        as [language G].
      rewrite Hr in G. injection G as ->.
      cbn [Models.code_base CodeGenerator.with_latency Models.response_error
           Models.finishReason Models.generatedText].
      repeat split. exact Herr.
  - intros st uuid startTime block now H. split; intros request.
    + now apply runInference_failure.
    + now apply runChatInference_failure.
  - intros D ensure_config prepare post random complete is_uuid zodError
           request uuid startTime now1 now2 error C T.
    destruct (sendCompletionRequest_failure ensure_config prepare post random
                complete is_uuid zodError request uuid startTime now1 now2
                error C T) as [A B].
    cbv zeta. split; [exact A|]. split; [exact B|]. repeat split.
  - intros D ensure_config post random complete is_uuid zodError
           request uuid startTime now1 now2 error C T.
    destruct (sendChatRequest_failure ensure_config post random
                complete is_uuid zodError request uuid startTime now1 now2
                error C T) as [A B].
    cbv zeta. split; [exact A|]. split; [exact B|]. repeat split.
  - intros prompt options e H. now rewrite guide_generateCode_rethrows.
Qed.

End Dispatch.

Section DispatchExamples.
Import Js.
Import APIErrorHandler (PlainErr).

Lemma failures_absorbed_witness :
  (exists response,
     ChatService.processMessage CodeGenerator.config_loaded
       CodeGenerator.local_at_capacity ExternalLLMConnector.chat_unreachable
       CodeGenerator.empty_session "hello" true
       "9a8b7c6d-5e4f-4a3b-8c2d-1e0f9a8b7c6d" 10
       "1b2c3d4e-5f6a-4b7c-8d9e-0f1a2b3c4d5e" 20
     = Ok response
     /\ Models.finishReason (Models.base response) = Some Models.error
     /\ Models.generatedText (Models.base response)
        = ChatService.apology ++ LocalInference.busy_message)
  /\ (exists response,
        ChatService.processMessage CodeGenerator.config_loaded
          CodeGenerator.local_at_capacity
          ExternalLLMConnector.chat_unreachable
          CodeGenerator.empty_session "hello" false
          "9a8b7c6d-5e4f-4a3b-8c2d-1e0f9a8b7c6d" 10
          "1b2c3d4e-5f6a-4b7c-8d9e-0f1a2b3c4d5e" 20
        = Ok response
        /\ Models.finishReason (Models.base response) = Some Models.error
        /\ Models.generatedText (Models.base response)
           = ChatService.apology
             ++ "Chat API request failed: API request failed after 4 attempts: Network error occurred")
  /\ (exists response,
        CodeGenerator.generateCode CodeGenerator.keep_prompt (fun _ => None)
          CodeGenerator.inference_at_capacity
          ExternalLLMConnector.completion_unreachable
          ResponsePostProcessor.no_prettier
          "sort a list" CodeGenerator.default_options
          "3e2d1c0b-9a8f-4e7d-8c6b-5a4f3e2d1c0b" 10 20
        = Ok response
        /\ Models.finishReason (Models.code_base response)
           = Some Models.error
        /\ Models.response_error (Models.code_base response)
           = Some "API request failed: API request failed after 4 attempts: Network error occurred")
  /\ (exists response,
        CodeGenerator.generateCode CodeGenerator.keep_prompt (fun _ => None)
          CodeGenerator.inference_at_capacity
          ExternalLLMConnector.completion_unreachable
          ResponsePostProcessor.no_prettier
          "sort a list"
          (CodeGenerator.mkOptions (Some true) None None None None None)
          "3e2d1c0b-9a8f-4e7d-8c6b-5a4f3e2d1c0b" 10 20
        = Ok response
        /\ Models.finishReason (Models.code_base response)
           = Some Models.error
        /\ Models.response_error (Models.code_base response)
           = Some LocalInference.busy_message).
Proof.
  destruct (failures_absorbed CodeGenerator.config_loaded
              CodeGenerator.local_at_capacity
              ExternalLLMConnector.chat_unreachable
              CodeGenerator.keep_prompt (fun _ => None)
              CodeGenerator.inference_at_capacity
              ExternalLLMConnector.completion_unreachable
              ResponsePostProcessor.no_prettier
              Guide.default_config Guide.local_answers
              Guide.remote_unreachable Guide.keep_text)
    as (P & G & _).
  split; [|split; [|split]].
  - destruct (P CodeGenerator.empty_session "hello" true
                "9a8b7c6d-5e4f-4a3b-8c2d-1e0f9a8b7c6d" 10
                "1b2c3d4e-5f6a-4b7c-8d9e-0f1a2b3c4d5e" 20)
      as (response & Hr & _ & Hb).
    exists response. split; [exact Hr|].
    destruct (Hb (ChatService.mkEnvConfig 2048 0.7%Q)
                 LocalInference.busy_message eq_refl) as (A & B & _).
    + intros request. eexists. split; reflexivity.
    + reflexivity.
    + split; [exact A | exact B].
  - destruct (P CodeGenerator.empty_session "hello" false
                "9a8b7c6d-5e4f-4a3b-8c2d-1e0f9a8b7c6d" 10
                "1b2c3d4e-5f6a-4b7c-8d9e-0f1a2b3c4d5e" 20)
      as (response & Hr & He & _).
    exists response. split; [exact Hr|].
    destruct (He (PlainErr "Chat API request failed: API request failed after 4 attempts: Network error occurred"))
      as (A & B & _).
    + vm_compute. reflexivity.
    + split; [exact A | exact B].
  - destruct (G "sort a list" CodeGenerator.default_options
                "3e2d1c0b-9a8f-4e7d-8c6b-5a4f3e2d1c0b" 10 20)
      as (response & Hr & _ & Hb).
    exists response. split; [exact Hr|].
    destruct (Hb (Models.mkLLMRequest "sort a list" None
                    (Some "3e2d1c0b-9a8f-4e7d-8c6b-5a4f3e2d1c0b"))
                 (ExternalLLMConnector.completion_errorResponse
                    "3e2d1c0b-9a8f-4e7d-8c6b-5a4f3e2d1c0b"
                    (APIErrorHandler.finalError 3
                       (APIErrorHandler.AxiosErr "Network Error"
                          (Some "ERR_NETWORK") None))
                    100 9000 9000)
                 "API request failed: API request failed after 4 attempts: Network error occurred")
      as (_ & A & B & _).
    + reflexivity.
    + vm_compute. reflexivity.
    + reflexivity.
    + reflexivity.
    + split; [exact B | exact A].
  - destruct (G "sort a list"
                (CodeGenerator.mkOptions (Some true) None None None None None)
                "3e2d1c0b-9a8f-4e7d-8c6b-5a4f3e2d1c0b" 10 20)
      as (response & Hr & _ & Hb).
    exists response. split; [exact Hr|].
    destruct (Hb (Models.mkLLMRequest "sort a list" None
                    (Some "3e2d1c0b-9a8f-4e7d-8c6b-5a4f3e2d1c0b"))
                 (snd (LocalInference.runInference
                         (LocalInference.mkState 9 4)
                         (Models.mkLLMRequest "sort a list" None
                            (Some "3e2d1c0b-9a8f-4e7d-8c6b-5a4f3e2d1c0b"))
                         "0b9d4c1e-5a6f-4d2b-8e3c-7f1a2b3c4d5e" 50
                         (Throw (PlainErr "not reached")) 60))
                 LocalInference.busy_message)
      as (_ & A & B & _).
    + reflexivity.
    + reflexivity.
    + reflexivity.
    + reflexivity.
    + split; [exact B | exact A].
Defined.

(** C1 as stated fails on the [generateCode] of the guide: with no
    model path and no API key its caller receives the configuration
    error as an exception, and with a remote service out of reach it
    receives the transport error as an exception. *)
Lemma guide_generateCode_throws :
  Guide.generateCode Guide.default_config Guide.local_answers
                     Guide.remote_unreachable Guide.keep_text
                     "sort a list" Guide.auto_options
  = Throw Guide.no_source
  /\ Guide.generateCode Guide.remote_only Guide.local_answers
                        Guide.remote_unreachable Guide.keep_text
                        "sort a list" Guide.auto_options
     = Throw (PlainErr
                "Network error: No response received from the AI service").
Proof. split; reflexivity. Qed.

End DispatchExamples.

(* ================================================================= *)
(** * Further properties *)

(* ================================================================= *)
(** ** Outcomes of [retry] *)

Section RetryOutcomes.
Import Js APIErrorHandler.

Context {T : Type}.
Variable fn : nat -> Result JsError T.
Variable random : nat -> Q.
Variable maxRetries : Z.

#[local] Abbreviation rloop := (retry_loop fn random maxRetries).
#[local] Abbreviation retried_before := (failed_before fn).

Lemma retried_before_next k e :
  retried_before k -> fn k = Throw e ->
  retryable (categorizeError e) = true -> retried_before (S k).
Proof.
  intros H He Hr j Hj. destruct (Nat.eq_dec j k) as [->|N].
  - exists e. auto.
  - apply H. lia.
Qed.

(** What the loop does from a state in which [calls] calls have been
    made, each followed by one sleep. *)
Lemma loop_outcome n : forall attempt calls slept last,
  attempt + Z.of_nat n = maxRetries + 1 -> (0 < n)%nat ->
  attempt = Z.of_nat calls ->
  List.length slept = calls -> retried_before calls ->
  let run := rloop n attempt calls slept last in
  exists k,
    attempts run = S k /\ List.length (delays run) = k
    /\ Z.of_nat k <= maxRetries /\ retried_before k
    /\ ((exists v, fn k = Ok v /\ result run = Ok v)
        \/ (exists e, fn k = Throw e
                      /\ result run = Throw (finalError maxRetries e)
                      /\ (retryable (categorizeError e) = false
                          \/ Z.of_nat k = maxRetries))).
Proof.
  induction n as [|n IH]; intros attempt calls slept last Hn Hpos Ha Hl Hb;
    [lia|].
  cbn [retry_loop]. destruct (fn calls) as [v|e] eqn:E.
  - exists calls. cbn [attempts delays result].
    split; [reflexivity|]. split; [exact Hl|]. split; [lia|].
    split; [exact Hb|]. left. exists v. auto.
  - destruct (retryable (categorizeError e)) eqn:R; cbn [negb orb].
    + destruct (Z.leb_spec maxRetries attempt) as [Hle|Hlt].
      * exists calls. cbn [attempts delays result].
        split; [reflexivity|]. split; [exact Hl|]. split; [lia|].
        split; [exact Hb|]. right. exists e.
        split; [exact E|]. split; [reflexivity|]. right. lia.
      * apply IH; try lia.
        -- rewrite length_app. simpl. lia.
        -- now apply (retried_before_next calls e).
    + exists calls. cbn [attempts delays result].
      split; [reflexivity|]. split; [exact Hl|]. split; [lia|].
      split; [exact Hb|]. right. exists e.
      split; [exact E|]. split; [reflexivity|]. now left.
Qed.

Lemma retry_outcome :
  0 <= maxRetries ->
  let run := retry fn random maxRetries in
  exists k,
    attempts run = S k /\ List.length (delays run) = k
    /\ Z.of_nat k <= maxRetries /\ retried_before k
    /\ ((exists v, fn k = Ok v /\ result run = Ok v)
        \/ (exists e, fn k = Throw e
                      /\ result run = Throw (finalError maxRetries e)
                      /\ (retryable (categorizeError e) = false
                          \/ Z.of_nat k = maxRetries))).
Proof.
  intros Hm. unfold retry. apply loop_outcome; try reflexivity; try lia.
  intros j Hj. lia.
Qed.

(** X1. [retry] sleeps exactly once between two consecutive calls: the
    number of delays slept is the number of calls less one. *)
Theorem retry_sleeps_between_calls :
  0 <= maxRetries ->
  attempts (retry fn random maxRetries)
  = S (List.length (delays (retry fn random maxRetries))).
Proof.
  intros Hm. destruct (retry_outcome Hm) as (k & A & D & _).
  now rewrite A, D.
Qed.

(** X2. When [retry] returns a value, it is the value of the last call
    made, and every call before it failed with a retryable error. *)
Theorem retry_success v :
  0 <= maxRetries ->
  result (retry fn random maxRetries) = Ok v ->
  exists k,
    attempts (retry fn random maxRetries) = S k
    /\ Z.of_nat k <= maxRetries
    /\ fn k = Ok v
    /\ retried_before k.
Proof.
  intros Hm Hr. destruct (retry_outcome Hm) as (k & A & _ & B & P & C).
  exists k. repeat split; try assumption.
  destruct C as [(v' & Hv & Hr') | (e & _ & Hr' & _)]; rewrite Hr' in Hr.
  - now injection Hr as <-.
  - discriminate.
Qed.

(** X3. When [retry] raises, the last call made failed, with an error
    that is not retryable or on the last attempt allowed, and every call
    before it failed with a retryable error; the message always names
    [maxRetries + 1] attempts, however many calls were made. *)
Theorem retry_failure err :
  0 <= maxRetries ->
  result (retry fn random maxRetries) = Throw err ->
  exists k e,
    attempts (retry fn random maxRetries) = S k
    /\ fn k = Throw e
    /\ (retryable (categorizeError e) = false \/ Z.of_nat k = maxRetries)
    /\ retried_before k
    /\ err = PlainErr ("API request failed after "
                       ++ string_of_Z (maxRetries + 1) ++ " attempts: "
                       ++ message (categorizeError e)).
Proof.
  intros Hm Hr. destruct (retry_outcome Hm) as (k & A & _ & B & P & C).
  destruct C as [(v' & Hv & Hr') | (e & He & Hr' & Hc)]; rewrite Hr' in Hr.
  - discriminate.
  - exists k, e. injection Hr as <-. repeat split; assumption.
Qed.

(** The delay slept after an error without [Retry-After] is the computed
    backoff. *)
Lemma retryDelay_computed r attempt e :
  retry_after e = None ->
  retryDelay r attempt e = Num (calculateBackoff r attempt).
Proof.
  intros H. unfold retryDelay.
  destruct (type (categorizeError e)); try reflexivity.
  destruct e as [m c [resp|] | m | s]; try reflexivity.
  simpl in H. now rewrite H.
Qed.

Lemma loop_delays_bounded n : forall attempt calls slept last,
  (forall k e, fn k = Throw e -> retry_after e = None) ->
  Forall within_bounds slept ->
  Forall within_bounds (delays (rloop n attempt calls slept last)).
Proof.
  induction n as [|n IH]; intros attempt calls slept last Hh Hs;
    cbn [retry_loop].
  - exact Hs.
  - destruct (fn calls) as [v|e] eqn:E; [exact Hs|].
    destruct (negb (retryable (categorizeError e)) || (maxRetries <=? attempt));
      [exact Hs|].
    apply IH; [exact Hh|].
    apply Forall_app. split; [exact Hs|].
    constructor; [|constructor].
    rewrite (retryDelay_computed _ _ _ (Hh _ _ E)).
    eexists. split; [reflexivity|].
    unfold calculateBackoff. split.
    + apply Q.min_glb; [unfold MAX_DELAY; lra | apply Q.le_max_l].
    + apply Q.le_min_l.
Qed.

(** X4. When no failure carries a [Retry-After] header, every delay
    slept by [retry] lies between 1000 and 10000 milliseconds. *)
Theorem retry_delays_bounded :
  (forall k e, fn k = Throw e -> retry_after e = None) ->
  Forall within_bounds (delays (retry fn random maxRetries)).
Proof.
  intros H. unfold retry. apply loop_delays_bounded; [exact H | constructor].
Qed.

End RetryOutcomes.

Section RetryOutcomesExamples.
Import Js APIErrorHandler.

Lemma retry_sleeps_between_calls_witness :
  attempts (retry flaky (fun _ => 0.5%Q) 3) = 3%nat
  /\ List.length (delays (retry flaky (fun _ => 0.5%Q) 3)) = 2%nat.
Proof.
  assert (H : 0 <= 3) by lia.
  pose proof (retry_sleeps_between_calls flaky (fun _ => 0.5%Q) 3 H) as E.
  split; [reflexivity|]. apply eq_add_S. rewrite <- E. reflexivity.
Defined.

Lemma retry_success_witness :
  exists k, attempts (retry flaky (fun _ => 0.5%Q) 3) = S k
            /\ flaky k = Ok 42.
Proof.
  assert (H : 0 <= 3) by lia.
  destruct (retry_success flaky (fun _ => 0.5%Q) 3 42 H eq_refl)
    as (k & A & _ & B & _).
  exists k. split; assumption.
Defined.

Lemma retry_failure_witness :
  attempts (retry refused (fun _ => 0.5%Q) 3) = 1%nat
  /\ result (retry refused (fun _ => 0.5%Q) 3)
     = Throw (PlainErr
                "API request failed after 4 attempts: Authentication failed").
Proof.
  assert (H : 0 <= 3) by lia.
  destruct (retry_failure refused (fun _ => 0.5%Q) 3 _ H eq_refl)
    as (k & e & A & _).
  split; reflexivity.
Defined.

Lemma retry_delays_bounded_witness :
  Forall (within_bounds) (delays (retry down (fun _ => 0.5%Q) 3)).
Proof.
  apply (retry_delays_bounded down (fun _ => 0.5%Q) 3).
  intros k e H. unfold down in H. injection H as <-. reflexivity.
Defined.

End RetryOutcomesExamples.

(* ================================================================= *)
(** ** Operations of the conversation store *)

Section AssocLookup.
Import Js.
Context {A : Type}.
Implicit Types (m : list (string * A)) (k : string) (v : A).

Lemma lookup_set_same k v m : lookup k (assoc_set k v m) = Some v.
Proof.
  induction m as [|[k0 v0] m IH]; simpl.
  - now rewrite String.eqb_refl.
  - destruct (String.eqb_spec k0 k) as [->|N]; simpl.
    + now rewrite String.eqb_refl.
    + destruct (String.eqb_spec k0 k); [contradiction | exact IH].
Qed.

Lemma lookup_set_other k k' v m :
  k' <> k -> lookup k' (assoc_set k v m) = lookup k' m.
Proof.
  intros N. induction m as [|[k0 v0] m IH]; simpl.
  - destruct (String.eqb_spec k k'); [congruence | reflexivity].
  - destruct (String.eqb_spec k0 k) as [->|N0]; simpl.
    + destruct (String.eqb_spec k k'); [congruence | reflexivity].
    + destruct (String.eqb k0 k'); [reflexivity | exact IH].
Qed.

Lemma lookup_None_not_In k m : lookup k m = None -> ~ In k (map fst m).
Proof.
  intros H I. apply assoc_has_In in I. unfold assoc_has in I.
  rewrite H in I. discriminate.
Qed.

Lemma lookup_delete_same k m :
  NoDup (map fst m) -> lookup k (assoc_delete k m) = None.
Proof.
  induction m as [|[k0 v0] m IH]; simpl; intros D; [reflexivity|].
  inversion D as [|? ? Hn Hd]; subst.
  destruct (String.eqb_spec k0 k) as [->|N]; simpl.
  - destruct (lookup k m) eqn:L; [|reflexivity].
    exfalso. apply Hn. apply assoc_has_In. unfold assoc_has. now rewrite L.
  - destruct (String.eqb_spec k0 k); [contradiction | auto].
Qed.

Lemma lookup_delete_other k k' m :
  k' <> k -> lookup k' (assoc_delete k m) = lookup k' m.
Proof.
  intros N. induction m as [|[k0 v0] m IH]; simpl; [reflexivity|].
  destruct (String.eqb_spec k0 k) as [->|N0]; simpl.
  - destruct (String.eqb_spec k k'); [congruence | reflexivity].
  - destruct (String.eqb k0 k'); [reflexivity | exact IH].
Qed.

Lemma lookup_None_has k m : lookup k m = None -> assoc_has k m = false.
Proof. unfold assoc_has. now intros ->. Qed.

End AssocLookup.

Section StoreOperations.
Import Js ChatController.
Import APIErrorHandler (JsError, error_text).

(** X5. Every operation that names a session the store does not hold
    raises [Chat session not found: <id>] and leaves the store as it
    was. *)
Theorem unknown_session_rejected st sessionId :
  getSession st sessionId = None ->
  setActiveSession st sessionId = (st, Throw (not_found sessionId))
  /\ (forall u mid now,
        updateSession st sessionId u mid now = (st, Throw (not_found sessionId)))
  /\ deleteSession st sessionId = (st, Throw (not_found sessionId))
  /\ (forall text mid now,
        addUserMessage st sessionId text mid now
        = (st, Throw (not_found sessionId)))
  /\ (forall text uid n1 p rid n2,
        handleMessage st sessionId text uid n1 p rid n2
        = (st, Throw (not_found sessionId)))
  /\ (forall text uid n1 g rid n2,
        handleCodeGeneration st sessionId text uid n1 g rid n2
        = (st, Throw (not_found sessionId)))
  /\ (forall now,
        clearSessionHistory st sessionId now
        = (st, Throw (not_found sessionId))).
Proof.
  unfold getSession. intros H. pose proof (lookup_None_has _ _ H) as Hh.
  repeat split; intros;
    unfold setActiveSession, updateSession, deleteSession, handleMessage,
      addUserMessage, handleCodeGeneration, clearSessionHistory;
    rewrite ?H, ?Hh; reflexivity.
Qed.

Lemma unknown_session_rejected_witness :
  deleteSession sample_store "no-such-session"
  = (sample_store, Throw (not_found "no-such-session")).
Proof.
  destruct (unknown_session_rejected sample_store "no-such-session" eq_refl)
    as (_ & _ & D & _).
  exact D.
Defined.

Lemma addUserMessage_appends st sid s text mid now :
  getSession st sid = Some s ->
  let st' := fst (addUserMessage st sid text mid now) in
  getSession st' sid = Some (push s (tagged mid Models.user text now))
  /\ (forall other, other <> sid -> getSession st' other = getSession st other)
  /\ activeSession st' = activeSession st.
Proof.
  unfold getSession, addUserMessage. intros H. rewrite H. simpl.
  split; [apply lookup_set_same|]. split; [|reflexivity].
  intros other N. now apply lookup_set_other.
Qed.

Lemma tagged_role mid r text now : role (tagged mid r text now) = r.
Proof. unfold tagged. destruct (Regex.test _ _); reflexivity. Qed.

Lemma tagged_content mid r text now : content (tagged mid r text now) = text.
Proof. unfold tagged. destruct (Regex.test _ _); reflexivity. Qed.

(** X6. After any number of calls of [addUserMessage] on a session, its
    messages are the former ones followed by the new ones in the order of
    the calls, each with the role [user] and the text given; the other
    sessions and the active pointer are untouched. *)
Theorem addUserMessages_append batch : forall st sid s,
  getSession st sid = Some s ->
  let st' := addUserMessages st sid batch in
  (exists s',
     getSession st' sid = Some s'
     /\ messages s'
        = (messages s
           ++ map (fun entry =>
                     tagged (snd (fst entry)) Models.user (fst (fst entry))
                            (snd entry)) batch)%list
     /\ map role (skipn (List.length (messages s)) (messages s'))
        = map (fun _ => Models.user) batch
     /\ map content (skipn (List.length (messages s)) (messages s'))
        = map (fun entry => fst (fst entry)) batch)
  /\ (forall other, other <> sid -> getSession st' other = getSession st other)
  /\ activeSession st' = activeSession st.
Proof.
  induction batch as [|[[text mid] now] batch IH]; intros st sid s H; simpl.
  - split; [|auto]. exists s. rewrite app_nil_r, skipn_all. auto.
  - destruct (addUserMessage_appends st sid s text mid now H) as (A & B & C).
    destruct (IH _ sid _ A) as ((s' & A' & M & _) & B' & C').
    unfold addUserMessages in *. simpl in *.
    split; [|split].
    + exists s'. split; [exact A'|].
      assert (E : messages s'
                  = (messages s
                     ++ tagged mid Models.user text now
                        :: map (fun entry =>
                                  tagged (snd (fst entry)) Models.user
                                         (fst (fst entry)) (snd entry)) batch)%list)
        by (rewrite M, <- app_assoc; reflexivity).
      split; [exact E|]. rewrite E, skipn_app, skipn_all, Nat.sub_diag.
      simpl. rewrite tagged_role, tagged_content, !map_map.
      split; f_equal.
      * apply map_ext. intros. apply tagged_role.
      * apply map_ext. intros. apply tagged_content.
    + intros other N. rewrite (B' other N). now apply B.
    + now rewrite C'.
Qed.

Lemma addUserMessages_append_witness :
  exists s',
    getSession (addUserMessages sample_store
                  "b7e2a9d4-1c3f-4e8a-a5d6-0f9b8c7e6d5a"
                  [("first", "m-8", 4000); ("second", "m-9", 5000)])
               "b7e2a9d4-1c3f-4e8a-a5d6-0f9b8c7e6d5a" = Some s'
    /\ map content (messages s') = ["first"; "second"].
Proof.
  destruct (addUserMessages_append
              [("first", "m-8", 4000); ("second", "m-9", 5000)]
              sample_store "b7e2a9d4-1c3f-4e8a-a5d6-0f9b8c7e6d5a" _ eq_refl)
    as ((s' & A & _ & _ & C) & _).
  exists s'. split; [exact A|]. exact C.
Defined.

End StoreOperations.

Section StoreReplies.
Import Js ChatController.
Import APIErrorHandler (JsError, error_text).

Lemma tagged_timestamp mid r text now : timestamp (tagged mid r text now) = now.
Proof. unfold tagged. destruct (Regex.test _ _); reflexivity. Qed.

Lemma tagged_id mid r text now : id (tagged mid r text now) = mid.
Proof. unfold tagged. destruct (Regex.test _ _); reflexivity. Qed.

(** X7. [handleMessage] on a known session, run without another
    operation in between, never raises, whatever
    [chatService.processMessage] does: it returns an assistant message,
    and the transcript grows by exactly the user message and that
    message, in this order. The assistant message carries the generated
    text, or the apology followed by the text of the error. *)
Theorem handleMessage_records_exchange
        st sessionId s text userId now1 processed replyId now2 :
  getSession st sessionId = Some s ->
  exists reply,
    snd (handleMessage st sessionId text userId now1 processed replyId now2)
    = Ok reply
    /\ role reply = Models.assistant
    /\ id reply = replyId /\ timestamp reply = now2
    /\ content reply
       = match processed with
         | Ok generatedText => generatedText
         | Throw error =>
             "I'm sorry, I encountered an error while processing your message: "
             ++ error_text error
         end
    /\ exists s',
        getSession
          (fst (handleMessage st sessionId text userId now1 processed
                              replyId now2)) sessionId = Some s'
        /\ messages s'
           = (messages s ++ [tagged userId Models.user text now1; reply])%list
        /\ updatedAt s' = now2.
Proof.
  unfold getSession, handleMessage, addUserMessage. intros H. rewrite H.
  cbn [sessions]. rewrite lookup_set_same.
  eexists. split; [reflexivity|].
  destruct processed as [generatedText|error]; cbn [snd fst];
    rewrite ?tagged_role, ?tagged_content, ?tagged_id, ?tagged_timestamp;
    cbn [role content id timestamp];
    (do 4 (split; [reflexivity|]));
    (eexists; split; [cbn [sessions]; apply lookup_set_same|]);
    cbn [push messages updatedAt]; rewrite <- app_assoc, ?tagged_timestamp;
    split; reflexivity.
Qed.

Lemma handleMessage_records_exchange_witness :
  exists reply,
    snd (handleMessage sample_store "b7e2a9d4-1c3f-4e8a-a5d6-0f9b8c7e6d5a"
           "hi" "m-8" 4000 (Throw (APIErrorHandler.PlainErr "offline"))
           "m-9" 5000) = Ok reply
    /\ content reply
       = "I'm sorry, I encountered an error while processing your message: offline".
Proof.
  destruct (handleMessage_records_exchange sample_store
              "b7e2a9d4-1c3f-4e8a-a5d6-0f9b8c7e6d5a" _ "hi" "m-8" 4000
              (Throw (APIErrorHandler.PlainErr "offline")) "m-9" 5000 eq_refl)
    as (reply & R & _ & _ & _ & C & _).
  exists reply. split; [exact R | exact C].
Defined.

(** X8. [handleCodeGeneration] on a known session, run without another
    operation in between, gives back what
    [codeGenerator.generateCode] gave, the response or the very same
    exception, and in both cases the transcript grows by exactly two
    messages: the prompt as a user message, then an assistant message
    (marked as code on success, the apology with the text of the error on
    failure). *)
Theorem handleCodeGeneration_records_exchange
        st sessionId s prompt userId now1 generated replyId now2 :
  getSession st sessionId = Some s ->
  snd (handleCodeGeneration st sessionId prompt userId now1 generated
                            replyId now2) = generated
  /\ exists s' reply,
      getSession
        (fst (handleCodeGeneration st sessionId prompt userId now1 generated
                                   replyId now2)) sessionId = Some s'
      /\ messages s'
         = (messages s ++ [tagged userId Models.user prompt now1; reply])%list
      /\ role reply = Models.assistant
      /\ match generated with
         | Ok response =>
             hasCode reply = Some true
             /\ codeLanguage reply = Some (Models.language response)
         | Throw error =>
             hasCode reply = None
             /\ content reply
                = "I'm sorry, I encountered an error while generating code: "
                  ++ error_text error
         end.
Proof.
  unfold getSession, handleCodeGeneration, addUserMessage. intros H.
  rewrite H. cbn [fst sessions]. rewrite lookup_set_same.
  destruct generated as [response|error]; cbn [snd fst]; (split; [reflexivity|]);
    eexists; eexists;
    (split; [cbn [sessions]; apply lookup_set_same|]);
    cbn [push messages]; rewrite <- app_assoc;
    (split; [reflexivity|]); cbn [role hasCode codeLanguage content]; auto.
Qed.

Lemma handleCodeGeneration_records_exchange_witness :
  snd (handleCodeGeneration sample_store
         "b7e2a9d4-1c3f-4e8a-a5d6-0f9b8c7e6d5a" "sort a list" "m-8" 4000
         (Throw (APIErrorHandler.PlainErr "offline")) "m-9" 5000)
  = Throw (APIErrorHandler.PlainErr "offline").
Proof.
  exact (proj1 (handleCodeGeneration_records_exchange sample_store
                  "b7e2a9d4-1c3f-4e8a-a5d6-0f9b8c7e6d5a" _ "sort a list"
                  "m-8" 4000 (Throw (APIErrorHandler.PlainErr "offline"))
                  "m-9" 5000 eq_refl)).
Defined.

End StoreReplies.

Section SystemMessage.
Import Js ChatController.
Import APIErrorHandler (JsError).

Lemma filter_system_push l m :
  is_system m = false -> filter is_system (l ++ [m]) = filter is_system l.
Proof. intros H. rewrite filter_app. simpl. rewrite H. apply app_nil_r. Qed.

Lemma tagged_not_system mid r text now :
  r <> Models.system -> is_system (tagged mid r text now) = false.
Proof.
  intros N. unfold is_system. rewrite tagged_role.
  destruct r; [reflexivity | reflexivity | contradiction].
Qed.

Lemma filter_set_system_content text l :
  map content (filter is_system (set_system_content text l))
  = match map content (filter is_system l) with
    | [] => []
    | _ :: rest => text :: rest
    end.
Proof.
  induction l as [|m l IH]; simpl; [reflexivity|].
  destruct (is_system m) eqn:S; simpl.
  - unfold is_system in *. simpl. rewrite S. reflexivity.
  - rewrite S. exact IH.
Qed.

Lemma filter_remove_system l :
  filter is_system (remove_system l) = tl (filter is_system l).
Proof.
  induction l as [|m l IH]; simpl; [reflexivity|].
  destruct (is_system m) eqn:S; simpl; [reflexivity|].
  rewrite S. exact IH.
Qed.

Lemma existsb_filter_system l :
  existsb is_system l = false -> filter is_system l = [].
Proof.
  induction l as [|m l IH]; simpl; [reflexivity|].
  destruct (is_system m); simpl; [discriminate | exact IH].
Qed.

Lemma existsb_filter_some l :
  existsb is_system l = true -> filter is_system l <> [].
Proof.
  induction l as [|m l IH]; simpl; [discriminate|].
  destruct (is_system m); simpl; [discriminate | exact IH].
Qed.

Lemma find_filter_system l :
  find is_system l = hd_error (filter is_system l).
Proof.
  induction l as [|m l IH]; simpl; [reflexivity|].
  destruct (is_system m); [reflexivity | exact IH].
Qed.

Lemma find_is_system l m : find is_system l = Some m -> is_system m = true.
Proof. intros H. now apply find_some in H. Qed.

#[local] Abbreviation all_mirrored :=
  (fun st : State => Forall (fun entry => mirrored (snd entry)) (sessions st)).

Lemma lookup_mirrored st sid s :
  all_mirrored st -> lookup sid (sessions st) = Some s -> mirrored s.
Proof.
  intros F L. rewrite Forall_forall in F. exact (F _ (lookup_In _ _ _ L)).
Qed.

Lemma push_mirrored s m :
  mirrored s -> is_system m = false -> mirrored (push s m).
Proof.
  unfold mirrored, system_texts. intros M S. cbn [push messages systemMessage].
  now rewrite filter_system_push.
Qed.

Lemma createSession_mirrored st t m sid mid now :
  all_mirrored st -> all_mirrored (fst (createSession st t m sid mid now)).
Proof.
  intros F. unfold createSession. cbn [fst sessions].
  apply assoc_set_Forall; [exact F|].
  unfold mirrored, system_texts. cbn [snd messages systemMessage].
  destruct m as [text|]; cbn [truthy_opt]; [|reflexivity].
  destruct (truthy text); reflexivity.
Qed.

Lemma updateSession_mirrored st sid u mid now :
  all_mirrored st -> all_mirrored (fst (updateSession st sid u mid now)).
Proof.
  intros F. unfold updateSession.
  destruct (lookup sid (sessions st)) as [s|] eqn:L; [|exact F].
  pose proof (lookup_mirrored st sid s F L) as M.
  destruct (new_systemMessage u) as [text|]; cbn [fst sessions];
    (apply assoc_set_Forall; [exact F|]);
    unfold mirrored, system_texts in *; cbn [snd messages systemMessage];
    [|exact M].
  destruct (truthy text) eqn:T.
  - destruct (existsb is_system (messages s)) eqn:E.
    + rewrite filter_set_system_content. rewrite M.
      apply existsb_filter_some in E.
      destruct (systemMessage s) as [old|].
      * destruct (truthy old); [reflexivity|].
        destruct (filter is_system (messages s)); [contradiction | discriminate].
      * destruct (filter is_system (messages s)); [contradiction | discriminate].
    + simpl. now rewrite (existsb_filter_system _ E).
  - rewrite filter_remove_system.
    destruct (filter is_system (messages s)) as [|m0 [|m1 rest]];
      [reflexivity | reflexivity |].
    simpl in M. destruct (systemMessage s) as [old|];
      [destruct (truthy old)|]; discriminate.
Qed.

Lemma addUserMessage_mirrored st sid text mid now :
  all_mirrored st -> all_mirrored (fst (addUserMessage st sid text mid now)).
Proof.
  intros F. unfold addUserMessage.
  destruct (lookup sid (sessions st)) as [s|] eqn:L; [|exact F].
  cbn [fst sessions]. apply assoc_set_Forall; [exact F|].
  apply push_mirrored; [exact (lookup_mirrored st sid s F L)|].
  now apply tagged_not_system.
Qed.

Lemma handleMessage_mirrored st sid text uid n1 p rid n2 :
  all_mirrored st ->
  all_mirrored (fst (handleMessage st sid text uid n1 p rid n2)).
Proof.
  intros F. unfold handleMessage.
  pose proof (addUserMessage_mirrored st sid text uid n1 F) as F1.
  destruct (addUserMessage st sid text uid n1) as [st1 [msg|e]];
    cbn [fst] in *; [|exact F1].
  destruct (lookup sid (sessions st1)) as [s|] eqn:L; [|exact F1].
  cbn [fst sessions]. apply assoc_set_Forall; [exact F1|].
  apply push_mirrored; [exact (lookup_mirrored st1 sid s F1 L)|].
  destruct p; [now apply tagged_not_system | reflexivity].
Qed.

Lemma handleCodeGeneration_mirrored st sid text uid n1 g rid n2 :
  all_mirrored st ->
  all_mirrored (fst (handleCodeGeneration st sid text uid n1 g rid n2)).
Proof.
  intros F. unfold handleCodeGeneration.
  destruct (lookup sid (sessions st)) as [s0|] eqn:L0; [|exact F].
  pose proof (addUserMessage_mirrored st sid text uid n1 F) as F1.
  destruct (lookup sid (sessions (fst (addUserMessage st sid text uid n1))))
    as [s|] eqn:L; [|exact F1].
  pose proof (lookup_mirrored _ sid s F1 L) as M.
  destruct g as [response|error]; cbn [fst sessions];
    (apply assoc_set_Forall; [exact F1|]);
    apply push_mirrored; auto.
Qed.

Lemma clearSessionHistory_mirrored st sid now :
  all_mirrored st -> all_mirrored (fst (clearSessionHistory st sid now)).
Proof.
  intros F. unfold clearSessionHistory.
  destruct (lookup sid (sessions st)) as [s|] eqn:L; [|exact F].
  pose proof (lookup_mirrored st sid s F L) as M.
  cbn [fst sessions]. apply assoc_set_Forall; [exact F|].
  unfold mirrored, system_texts in *. cbn [snd messages systemMessage].
  rewrite <- M. clear M.
  destruct (find is_system (messages s)) as [m|] eqn:E.
  - pose proof (find_is_system _ _ E) as S.
    rewrite find_filter_system in E. simpl. rewrite S.
    destruct (filter is_system (messages s)) as [|m0 rest] eqn:Fl;
      [discriminate|].
    injection E as ->.
    destruct rest as [|m1 rest]; [reflexivity|].
    (* a second system message would be dropped: excluded below *)
    exfalso.
    pose proof (lookup_mirrored st sid s F L) as M.
    unfold mirrored, system_texts in M. rewrite Fl in M.
    destruct (systemMessage s) as [old|]; [destruct (truthy old)|];
      discriminate.
  - rewrite find_filter_system in E.
    destruct (filter is_system (messages s)); [reflexivity | discriminate].
Qed.

Lemma reachable_mirrored st : reachable st -> all_mirrored st.
Proof.
  induction 1 as [|st op R F V].
  - constructor.
  - destruct op; cbn [apply].
    + now apply createSession_mirrored.
    + unfold setActiveSession.
      destruct (negb (assoc_has sessionId (sessions st))); exact F.
    + now apply updateSession_mirrored.
    + unfold deleteSession.
      destruct (negb (assoc_has sessionId (sessions st))); [exact F|].
      cbn [fst sessions]. now apply assoc_delete_Forall.
    + now apply addUserMessage_mirrored.
    + now apply handleMessage_mirrored.
    + now apply handleCodeGeneration_mirrored.
    + now apply clearSessionHistory_mirrored.
Qed.

(** X9. In every store reached from an empty controller by the public
    operations, the transcript of a session holds a system message
    exactly when the [systemMessage] of the session is a non-empty
    string, and then only one, with that string as its content. *)
Theorem system_message_mirrored st sessionId s :
  reachable st ->
  getSession st sessionId = Some s ->
  map content (filter is_system (messages s))
  = match systemMessage s with
    | Some text => if truthy text then [text] else []
    | None => []
    end
  /\ (count_system (messages s) <= 1)%nat.
Proof.
  intros R L.
  pose proof (lookup_mirrored st sessionId s (reachable_mirrored st R) L) as M.
  unfold mirrored, system_texts in M. split; [exact M|].
  unfold count_system. rewrite <- (length_map content), M.
  destruct (systemMessage s) as [text|]; [destruct (truthy text)|]; simpl; lia.
Qed.

End SystemMessage.

Section SystemMessageExamples.
Import Js ChatController.

Lemma sample_store_reachable : reachable sample_store.
Proof.
  unfold sample_store, sample_ops. cbn [fold_left].
  do 4 (apply reach_apply; [|exact I || reflexivity]).
  apply reach_fresh.
Qed.

Lemma system_message_mirrored_witness :
  exists s,
    getSession sample_store "3f0c1d52-8a3e-4b1f-9c57-2e6d1a4b7c90" = Some s
    /\ map content (filter is_system (messages s)) = ["Be brief"].
Proof.
  eexists. split; [reflexivity|].
  exact (proj1 (system_message_mirrored sample_store
                  "3f0c1d52-8a3e-4b1f-9c57-2e6d1a4b7c90" _
                  sample_store_reachable eq_refl)).
Defined.

End SystemMessageExamples.

Section SessionOrder.
Import Js ChatController.
Import APIErrorHandler (JsError).

Lemma insert_recent_Permutation s l : Permutation (insert_recent s l) (s :: l).
Proof.
  induction l as [|x l IH]; simpl; [reflexivity|].
  destruct (updatedAt s <? updatedAt x); [|reflexivity].
  rewrite IH. apply perm_swap.
Qed.

Lemma sort_recent_Permutation l : Permutation (sort_recent l) l.
Proof.
  induction l as [|x l IH]; simpl; [reflexivity|].
  rewrite insert_recent_Permutation. now constructor.
Qed.

Lemma insert_recent_sorted s l :
  StronglySorted not_older l -> StronglySorted not_older (insert_recent s l).
Proof.
  induction 1 as [|x l S IH F]; simpl.
  - repeat constructor.
  - destruct (Z.ltb_spec (updatedAt s) (updatedAt x)) as [Lt|Ge].
    + constructor; [exact IH|].
      rewrite Forall_forall in *. intros y I.
      apply insert_recent_In in I as [->|I]; [unfold not_older; lia | auto].
    + constructor; [now constructor|]. constructor; [exact Ge|].
      rewrite Forall_forall in *. intros y I. specialize (F y I).
      unfold not_older in *. lia.
Qed.

Lemma sort_recent_sorted l : StronglySorted not_older (sort_recent l).
Proof.
  induction l as [|x l IH]; simpl; [constructor|].
  now apply insert_recent_sorted.
Qed.

Lemma sort_recent_head first rest l :
  sort_recent l = first :: rest ->
  In first l /\ forall other, In other l -> updatedAt other <= updatedAt first.
Proof.
  intros E. pose proof (sort_recent_sorted l) as S. rewrite E in S.
  split; [apply sort_recent_In; rewrite E; now left|].
  intros other I. apply sort_recent_In in I. rewrite E in I.
  inversion S as [|? ? _ F]; subst. destruct I as [<-|I]; [lia|].
  rewrite Forall_forall in F. exact (F other I).
Qed.

Lemma sort_recent_nil l : sort_recent l = [] -> l = [].
Proof.
  intros E. pose proof (sort_recent_Permutation l) as P. rewrite E in P.
  now apply Permutation_nil in P.
Qed.

(** X10. [getAllSessions] returns every session of the store exactly
    once, the most recently updated first. *)
Theorem getAllSessions_sorted st :
  Permutation (getAllSessions st) (map snd (sessions st))
  /\ StronglySorted not_older (getAllSessions st).
Proof.
  unfold getAllSessions. split.
  - apply sort_recent_Permutation.
  - apply sort_recent_sorted.
Qed.

(** X11. Deleting a session of a reachable store removes it and nothing
    else; if it was the active session, the active session becomes a
    remaining session that is updated at least as recently as every other
    one, or none when no session remains; otherwise the active session
    stays. *)
Theorem deleteSession_spec st sessionId s :
  reachable st ->
  getSession st sessionId = Some s ->
  let st' := fst (deleteSession st sessionId) in
  snd (deleteSession st sessionId) = Ok tt
  /\ getSession st' sessionId = None
  /\ (forall other, other <> sessionId ->
        getSession st' other = getSession st other)
  /\ (activeSession st <> Some sessionId ->
      activeSession st' = activeSession st)
  /\ (activeSession st = Some sessionId ->
      match activeSession st' with
      | None => sessions st' = []
      | Some a =>
          exists first,
            getSession st' a = Some first
            /\ forall other r, getSession st' other = Some r ->
                               updatedAt r <= updatedAt first
      end).
Proof.
  intros R L st'. subst st'.
  pose proof (reachable_well_formed st R) as W.
  pose proof (deleteSession_well_formed st sessionId W) as W'.
  unfold getSession in *. unfold deleteSession in *.
  rewrite (lookup_has _ _ _ L) in *. cbn [negb fst snd sessions] in *.
  destruct W as (D & K & Act).
  split; [reflexivity|].
  split; [now apply lookup_delete_same|].
  split; [intros other N; now apply lookup_delete_other|].
  cbn [activeSession] in *.
  split.
  - intros N. destruct (activeSession st) as [a|]; [|reflexivity].
    destruct (String.eqb_spec a sessionId); [congruence | reflexivity].
  - intros E. rewrite E in *. rewrite String.eqb_refl in *.
    unfold getAllSessions in *. cbn [sessions] in *.
    destruct (sort_recent (map snd (assoc_delete sessionId (sessions st))))
      as [|first rest] eqn:S.
    + apply sort_recent_nil in S. now apply map_eq_nil in S.
    + destruct (sort_recent_head _ _ _ S) as [I Max].
      exists first. split.
      * destruct W' as (D' & K' & _). cbn [sessions] in *.
        apply in_map_iff in I as ([k x] & Ex & I). simpl in Ex. subst x.
        rewrite Forall_forall in K'. destruct (K' _ I) as [Ek _].
        simpl in Ek. rewrite Ek. clear - D' I.
        induction (assoc_delete sessionId (sessions st)) as [|[k0 v0] m IH];
          [destruct I|].
        simpl in *. inversion D' as [|? ? Hn Hd]; subst.
        destruct I as [[= -> ->]|I]; [now rewrite String.eqb_refl|].
        destruct (String.eqb_spec k0 k) as [->|N]; [|auto].
        exfalso. apply Hn. apply in_map_iff. now exists (k, first).
      * intros other r Lr. apply Max. apply in_map_iff.
        exists (other, r). split; [reflexivity | now apply lookup_In].
Qed.

Lemma deleteSession_spec_witness :
  activeSession
    (fst (deleteSession sample_store "3f0c1d52-8a3e-4b1f-9c57-2e6d1a4b7c90"))
  <> None
  /\ getSession
       (fst (deleteSession sample_store
               "3f0c1d52-8a3e-4b1f-9c57-2e6d1a4b7c90"))
       "3f0c1d52-8a3e-4b1f-9c57-2e6d1a4b7c90" = None.
Proof.
  destruct (deleteSession_spec sample_store
              "3f0c1d52-8a3e-4b1f-9c57-2e6d1a4b7c90" _
              sample_store_reachable eq_refl) as (_ & G & _ & _ & A).
  split; [|exact G]. discriminate.
Defined.

(** X12. Whatever the storage holds, [loadSessions] on a new controller
    leaves a consistent store: the keys are distinct, each session is
    filed under its own [id], the active session is one of the sessions
    loaded, and there is an active session as soon as one session was
    loaded. A valid stored pointer is kept. *)
Theorem loadSessions_consistent storage :
  let st := loadSessions storage fresh in
  NoDup (map fst (sessions st))
  /\ Forall (fun entry => session_id (snd entry) = fst entry) (sessions st)
  /\ (forall a, activeSession st = Some a ->
                exists s, getSession st a = Some s /\ session_id s = a)
  /\ (activeSession st = None -> sessions st = [])
  /\ (forall a, stored_activeSession storage = Some a ->
                truthy a = true -> assoc_has a (sessions st) = true ->
                activeSession st = Some a).
Proof.
  intros st.
  assert (Inv : NoDup (map fst (sessions st))
                /\ Forall (fun entry => session_id (snd entry) = fst entry)
                          (sessions st)).
  { subst st. unfold loadSessions. cbn [sessions fresh].
    destruct (chatSessions storage) as [saved|]; [|split; constructor].
    assert (G : forall l acc,
               NoDup (map fst acc)
               /\ Forall (fun entry : string * ChatSession =>
                            session_id (snd entry) = fst entry) acc ->
               NoDup (map fst
                        (fold_left
                           (fun m session =>
                              assoc_set (session_id session) session m) l acc))
               /\ Forall (fun entry : string * ChatSession =>
                            session_id (snd entry) = fst entry)
                         (fold_left
                            (fun m session =>
                               assoc_set (session_id session) session m) l acc)).
    { induction l as [|x l IH]; intros acc [D K]; simpl; [auto|].
      apply IH. split; [now apply assoc_set_NoDup|].
      now apply assoc_set_Forall. }
    apply G. split; constructor. }
  destruct Inv as [D K].
  assert (Keyed : forall k x, In (k, x) (sessions st) ->
                              lookup k (sessions st) = Some x).
  { clear - D. induction (sessions st) as [|[k0 v0] m IH]; intros k x I;
      [destruct I|].
    simpl in *. inversion D as [|? ? Hn Hd]; subst.
    destruct I as [[= -> ->]|I]; [now rewrite String.eqb_refl|].
    destruct (String.eqb_spec k0 k) as [->|N]; [|auto].
    exfalso. apply Hn. apply in_map_iff. now exists (k, x). }
  assert (Recent : forall a,
             match sort_recent (map snd (sessions st)) with
             | first :: _ => Some (session_id first)
             | [] => None
             end = Some a ->
             exists s, getSession st a = Some s /\ session_id s = a).
  { intros a E.
    destruct (sort_recent (map snd (sessions st))) as [|first rest] eqn:S;
      [discriminate|].
    injection E as <-. destruct (sort_recent_head _ _ _ S) as [I _].
    apply in_map_iff in I as ([k x] & Ex & I). simpl in Ex. subst x.
    rewrite Forall_forall in K. pose proof (K _ I) as Ek. simpl in Ek.
    exists first. split; [|reflexivity]. unfold getSession. rewrite Ek.
    now apply Keyed. }
  assert (NoRecent :
             match sort_recent (map snd (sessions st)) with
             | first :: _ => Some (session_id first)
             | [] => None
             end = None -> sessions st = []).
  { destruct (sort_recent (map snd (sessions st))) eqn:S; [|discriminate].
    intros _. apply sort_recent_nil in S. now apply map_eq_nil in S. }
  assert (Act : activeSession st
                = match stored_activeSession storage with
                  | Some a =>
                      if truthy a && assoc_has a (sessions st) then Some a
                      else match sort_recent (map snd (sessions st)) with
                           | first :: _ => Some (session_id first)
                           | [] => None
                           end
                  | None =>
                      match sort_recent (map snd (sessions st)) with
                      | first :: _ => Some (session_id first)
                      | [] => None
                      end
                  end) by reflexivity.
  split; [exact D|]. split; [exact K|]. rewrite Act. clear Act.
  split; [|split].
  - intros a E. destruct (stored_activeSession storage) as [b|]; [|auto].
    destruct (truthy b && assoc_has b (sessions st)) eqn:C; [|auto].
    injection E as ->. apply andb_prop in C as [_ H].
    unfold assoc_has in H. unfold getSession.
    destruct (lookup a (sessions st)) as [s|] eqn:L; [|discriminate].
    exists s. split; [reflexivity|].
    rewrite Forall_forall in K. exact (K _ (lookup_In _ _ _ L)).
  - intros E. destruct (stored_activeSession storage) as [b|]; [|auto].
    destruct (truthy b && assoc_has b (sessions st)); [discriminate | auto].
  - intros a -> T H. now rewrite T, H.
Qed.

(** X13. A session just created is the active one and can be read back
    under its id; it starts with the system message alone when a
    non-empty one is given and with an empty transcript otherwise; the
    sessions already there are untouched. *)
Theorem createSession_active st title systemMessage sessionId messageId now :
  truthy sessionId = true ->
  let st' := fst (createSession st title systemMessage sessionId messageId now) in
  exists s,
    getActiveSession st' = Some s
    /\ getSession st' sessionId = Some s
    /\ session_id s = sessionId
    /\ createdAt s = now /\ updatedAt s = now
    /\ map content (messages s)
       = match systemMessage with
         | Some text => if truthy text then [text] else []
         | None => []
         end
    /\ Forall (fun m => is_system m = true) (messages s)
    /\ forall other, other <> sessionId ->
                     getSession st' other = getSession st other.
Proof.
  intros T st'. subst st'. unfold createSession, getActiveSession, getSession.
  cbn [fst sessions activeSession]. rewrite T, lookup_set_same.
  eexists. split; [reflexivity|]. split; [reflexivity|].
  cbn [session_id createdAt updatedAt messages].
  do 3 (split; [reflexivity|]).
  split; [|split].
  - destruct systemMessage as [text|]; cbn [truthy_opt]; [|reflexivity].
    destruct (truthy text); reflexivity.
  - destruct systemMessage as [text|]; cbn [truthy_opt]; [|constructor].
    destruct (truthy text); repeat constructor.
  - intros other N. now apply lookup_set_other.
Qed.

Lemma createSession_active_witness :
  exists s,
    getActiveSession
      (fst (createSession sample_store None (Some "Answer in French")
              "0a1b2c3d-4e5f-4a6b-8c7d-9e0f1a2b3c4d" "m-8" 4000)) = Some s
    /\ map content (messages s) = ["Answer in French"].
Proof.
  destruct (createSession_active sample_store None (Some "Answer in French")
              "0a1b2c3d-4e5f-4a6b-8c7d-9e0f1a2b3c4d" "m-8" 4000 eq_refl)
    as (s & A & _ & _ & _ & _ & M & _).
  exists s. split; [exact A | exact M].
Defined.

End SessionOrder.

(* ================================================================= *)
(** ** [shouldRetry] and [retry] *)

Section ShouldRetry.
Import Js APIErrorHandler.

Context {T : Type}.
Variable fn : nat -> Result JsError T.
Variable random : nat -> Q.
Variable maxRetries : Z.

Lemma loop_calls_ge n : forall attempt calls slept last,
  (calls <= attempts (retry_loop fn random maxRetries n attempt calls slept last))%nat.
Proof.
  induction n as [|n IH]; intros attempt calls slept last; simpl; [lia|].
  destruct (fn calls) as [v|e]; simpl; [lia|].
  destruct (negb (retryable (categorizeError e)) || (maxRetries <=? attempt));
    simpl; [lia|].
  specialize (IH (attempt + 1) (S calls) (slept ++ [retryDelay (random calls) attempt e])%list e).
  lia.
Qed.

Lemma retryable_categories e :
  retryable (categorizeError e) = true ->
  type (categorizeError e) = network \/ type (categorizeError e) = timeout
  \/ type (categorizeError e) = server \/ type (categorizeError e) = rate_limit.
Proof.
  unfold categorizeError.
  destruct e as [m c [r|] | m | r]; simpl; try discriminate; auto.
  destruct ((status r =? 408) || code_is c "ECONNABORTED"); [auto|].
  destruct (status r =? 429); [auto|].
  destruct ((status r =? 401) || (status r =? 403)); [discriminate|].
  destruct ((400 <=? status r) && (status r <? 500)); [discriminate|].
  destruct (500 <=? status r); [auto | discriminate].
Qed.

(** X14. [shouldRetry] tells what [retry] does: it accepts exactly the
    errors classified network, timeout, server or rate_limit, and when
    the first call of an operation fails, [retry] (allowed at least one
    retry) calls the operation again exactly when [shouldRetry] accepts
    the error. *)
Theorem shouldRetry_predicts_retry e :
  1 <= maxRetries ->
  fn 0%nat = Throw e ->
  (shouldRetry e = true <->
   type (categorizeError e) = network \/ type (categorizeError e) = timeout
   \/ type (categorizeError e) = server
   \/ type (categorizeError e) = rate_limit)
  /\ (shouldRetry e = true ->
      (2 <= attempts (retry fn random maxRetries))%nat)
  /\ (shouldRetry e = false ->
      attempts (retry fn random maxRetries) = 1%nat).
Proof.
  intros M F. unfold shouldRetry. split; [|split].
  - split; [apply retryable_categories | apply retried_categories].
  - intros R. unfold retry.
    replace (Z.to_nat (maxRetries + 1)) with (S (Z.to_nat maxRetries)) by lia.
    cbn [retry_loop]. rewrite F, R.
    replace (maxRetries <=? 0) with false by (symmetry; apply Z.leb_gt; lia).
    cbn [negb orb].
    destruct (Z.to_nat maxRetries) as [|n] eqn:N; [lia|].
    cbn [retry_loop]. destruct (fn 1%nat) as [v|e']; cbn [attempts]; [lia|].
    destruct (negb (retryable (categorizeError e')) || (maxRetries <=? 0 + 1));
      cbn [attempts]; [lia|].
    apply loop_calls_ge.
  - intros R. unfold retry.
    replace (Z.to_nat (maxRetries + 1)) with (S (Z.to_nat maxRetries)) by lia.
    cbn [retry_loop]. rewrite F, R. reflexivity.
Qed.

End ShouldRetry.

Section ShouldRetryExamples.
Import Js APIErrorHandler.

Lemma shouldRetry_predicts_retry_witness :
  attempts (retry (fun _ => Throw (A:=Z) (AxiosErr "Unauthorized" None
                                 (Some (mkAxiosResponse 401 EmptyString []))))
                  (fun _ => 0%Q) 3) = 1%nat.
Proof.
  apply (shouldRetry_predicts_retry
           (fun _ => Throw (A:=Z) (AxiosErr "Unauthorized" None
                              (Some (mkAxiosResponse 401 EmptyString []))))
           (fun _ => 0%Q) 3
           (AxiosErr "Unauthorized" None (Some (mkAxiosResponse 401 EmptyString []))));
    [lia | reflexivity | reflexivity].
Defined.

End ShouldRetryExamples.

(* ================================================================= *)
(** ** The prompt formats of the local models *)

Section Strings.
Import Js.

Lemma string_app_assoc (a b c : string) : ((a ++ b) ++ c = a ++ (b ++ c))%string.
Proof. induction a as [|x a IH]; simpl; [reflexivity | now rewrite IH]. Qed.

Lemma string_length_app (a b : string) :
  String.length (a ++ b) = (String.length a + String.length b)%nat.
Proof. induction a as [|x a IH]; simpl; [reflexivity | now rewrite IH]. Qed.

Lemma substring_all (a : string) : substring 0 (String.length a) a = a.
Proof. induction a as [|x a IH]; simpl; [reflexivity | now rewrite IH]. Qed.

(** The first [n] characters of [a ++ b] are those of [a] when [a] has
    that many. *)
Lemma substring_app_short (a b : string) : forall n,
  (n <= String.length a)%nat -> substring 0 n (a ++ b) = substring 0 n a.
Proof.
  induction a as [|x a IH]; intros n H; simpl in *.
  - replace n with 0%nat by lia. now destruct b.
  - destruct n as [|n]; [reflexivity|]. rewrite IH by lia. reflexivity.
Qed.

Lemma substring_drop_suffix (a b : string) :
  substring 0 (String.length (a ++ b) - String.length b) (a ++ b) = a.
Proof.
  rewrite string_length_app.
  replace (String.length a + String.length b - String.length b)%nat
    with (String.length a) by lia.
  rewrite substring_app_short by lia. apply substring_all.
Qed.

Lemma trimEnd_keeps (s : string) (c : ascii) :
  is_space c = false ->
  trimEnd (s ++ String c " ") = (s ++ String c EmptyString)%string.
Proof.
  intros H. induction s as [|a s IH].
  - simpl. rewrite H. reflexivity.
  - cbn [append trimEnd]. rewrite IH. destruct s; reflexivity.
Qed.

End Strings.

Section PromptFormats.
Import Js LocalInferencePrompts.

Implicit Types (history : list Models.ConversationMessage).

Lemma instruct_turns_snoc history m p :
  instruct_turns (history ++ [m]) p
  = match Models.role m with
    | Models.user => instruct_turns history p ++ Models.content m ++ " [/INST] "
    | Models.assistant =>
        instruct_turns history p ++ Models.content m ++ " </s><s>[INST] "
    | Models.system => instruct_turns history p
    end.
Proof. unfold instruct_turns. now rewrite fold_left_app. Qed.

Lemma last_is_user_snoc history m :
  last_is_user (history ++ [m])
  = match Models.role m with Models.user => true | _ => false end.
Proof.
  unfold last_is_user. rewrite map_app. cbn [map]. now rewrite last_last.
Qed.

Lemma instruct_prompt metadata request :
  instruct_type metadata = true ->
  preprocessChatPrompt metadata request
  = close_instruction (Models.conversationHistory request)
      (instruct_turns (Models.conversationHistory request)
                      (instruct_header metadata request)).
Proof.
  unfold instruct_type, preprocessChatPrompt, instruct_header. intros H.
  destruct (String.eqb _ "llama" || String.eqb _ "llama2") eqn:L.
  - now destruct (truthy_opt (Models.systemMessage request)).
  - simpl in H. rewrite H.
    now destruct (truthy_opt (Models.systemMessage request)).
Qed.

(** X15. For the Llama and Mistral formats, the chat prompt of a
    conversation that ends with a user message ends with the closed
    instruction [content [/INST]], without trailing white space; the
    prompt of a conversation that ends with an assistant message ends
    with [content </s><s>], the instruction opened after it being
    removed. In both cases what comes before is the prompt built for the
    earlier messages. *)
Theorem instruct_prompt_closed metadata request history m :
  instruct_type metadata = true ->
  Models.conversationHistory request = (history ++ [m])%list ->
  Models.role m <> Models.system ->
  preprocessChatPrompt metadata request
  = instruct_turns history (instruct_header metadata request)
    ++ Models.content m
    ++ match Models.role m with
       | Models.user => " [/INST]"
       | _ => " </s><s>"
       end.
Proof.
  intros T H N. rewrite (instruct_prompt _ _ T), H.
  unfold close_instruction. rewrite last_is_user_snoc, instruct_turns_snoc.
  set (p := instruct_turns history (instruct_header metadata request)).
  destruct (Models.role m); [| |contradiction].
  - change " [/INST] " with (" [/INST" ++ String "]" " ").
    change " [/INST]" with (" [/INST" ++ String "]" EmptyString).
    rewrite <- !string_app_assoc. apply trimEnd_keeps. reflexivity.
  - change " </s><s>[INST] " with (" </s><s>" ++ "[INST] ").
    rewrite <- !string_app_assoc.
    apply (substring_drop_suffix ((p ++ Models.content m) ++ " </s><s>")
                                 "[INST] ").
Qed.

Lemma instruct_prompt_closed_witness :
  preprocessChatPrompt (of_type "Llama2")
    (Models.mkChatLLMRequest "" None None None
       [Models.mkConversationMessage Models.user "Hi  " None] None)
  = "<s>[INST] Hi   [/INST]".
Proof.
  apply (instruct_prompt_closed (of_type "Llama2")
           (Models.mkChatLLMRequest "" None None None
              [Models.mkConversationMessage Models.user "Hi  " None] None)
           [] (Models.mkConversationMessage Models.user "Hi  " None));
    [reflexivity | reflexivity | discriminate].
Defined.

(** X16. For the Llama and Mistral formats, a chat request with an empty
    history loses the last seven characters of its header: without a
    system message the prompt is [<s>]; with one, the Llama prompt ends
    with the unclosed tag and the Mistral prompt loses the last five
    characters of the header and system message. *)
Theorem instruct_prompt_empty_history metadata request :
  instruct_type metadata = true ->
  Models.conversationHistory request = [] ->
  let t := ResponsePostProcessor.toLowerCase (modelType metadata) in
  match Models.systemMessage request with
  | Some text =>
      if truthy text then
        if String.eqb t "mistral" then
          preprocessChatPrompt metadata request
          = substring 0 (String.length text + 5) ("<s>[INST] " ++ text)
        else
          preprocessChatPrompt metadata request
          = "<s>[INST] <<SYS>>" ++ nl ++ text ++ nl ++ "<</"
      else preprocessChatPrompt metadata request = "<s>"
  | None => preprocessChatPrompt metadata request = "<s>"
  end.
Proof.
  intros T H t. rewrite (instruct_prompt _ _ T), H.
  unfold close_instruction, instruct_header. cbn [last_is_user map last instruct_turns fold_left].
  fold t. unfold instruct_type in T. fold t in T.
  destruct (Models.systemMessage request) as [text|]; cbn [truthy_opt];
    [|reflexivity].
  destruct (truthy text); [|reflexivity].
  destruct (String.eqb t "mistral") eqn:M.
  - apply String.eqb_eq in M. rewrite M. cbn [String.eqb Ascii.eqb orb].
    change (substring 0
              (String.length (("<s>[INST] " ++ text) ++ nl ++ nl) - 7)
              (("<s>[INST] " ++ text) ++ nl ++ nl)
            = substring 0 (String.length text + 5) ("<s>[INST] " ++ text)).
    rewrite (string_length_app ("<s>[INST] " ++ text)).
    rewrite (string_length_app "<s>[INST] " text).
    replace (String.length "<s>[INST] " + String.length text
             + String.length (nl ++ nl) - 7)%nat
      with (String.length text + 5)%nat by (simpl; lia).
    apply substring_app_short. rewrite string_length_app. simpl. lia.
  - rewrite orb_false_r in T. rewrite T.
    replace ("<s>[INST] <<SYS>>" ++ nl ++ text ++ nl ++ "<</SYS>>" ++ nl ++ nl)
      with (("<s>[INST] <<SYS>>" ++ nl ++ text ++ nl ++ "<</")
            ++ ("SYS>>" ++ nl ++ nl)).
    + apply (substring_drop_suffix
               ("<s>[INST] <<SYS>>" ++ nl ++ text ++ nl ++ "<</")
               ("SYS>>" ++ nl ++ nl)).
    + change ("<s>[INST] <<SYS>>" ++ nl ++ text ++ nl ++ "<</")
        with ("<s>[INST] <<SYS>>" ++ nl ++ (text ++ nl ++ "<</")).
      change ("<s>[INST] <<SYS>>" ++ nl ++ text ++ nl ++ "<</SYS>>" ++ nl ++ nl)
        with ("<s>[INST] <<SYS>>" ++ nl
              ++ (text ++ (nl ++ "<</") ++ ("SYS>>" ++ nl ++ nl))).
      rewrite <- (string_app_assoc text), <- !string_app_assoc.
      reflexivity.
Qed.

Lemma instruct_prompt_empty_history_witness :
  preprocessChatPrompt (of_type "mistral")
    (Models.mkChatLLMRequest "" None None None [] (Some "Answer briefly"))
  = "<s>[INST] Answer br".
Proof.
  exact (instruct_prompt_empty_history (of_type "mistral")
           (Models.mkChatLLMRequest "" None None None [] (Some "Answer briefly"))
           eq_refl eq_refl).
Defined.

End PromptFormats.

(* ================================================================= *)
(** ** Bookkeeping of the local inference *)

Section InferenceBookkeeping.
Import Js LocalInference.

#[local] Abbreviation tallied :=
  (fun (n : nat) (sys : System) =>
     inferenceCount (state sys) = Z.of_nat n
     /\ n = (List.length (returned sys) + List.length (suspended sys))%nat).

Lemma arrive_tallied n sys request uuid now :
  tallied n sys -> tallied (S n) (arrive sys request uuid now).
Proof.
  intros [Hc Hn]. unfold arrive.
  destruct request as [req|req].
  - destruct (enter_cases (state sys) req uuid now)
      as [(_ & id & r & -> & _) | (_ & id & ->)]; simpl;
      rewrite length_app; simpl; split; lia.
  - destruct (chat_enter_cases (state sys) req uuid now)
      as [(_ & id & r & -> & _) | (_ & id & ->)]; simpl;
      rewrite length_app; simpl; split; lia.
Qed.

Lemma finish_tallied n sys index block now :
  tallied n sys -> tallied n (finish sys index block now).
Proof.
  intros [Hc Hn]. unfold finish.
  destruct (nth_error (suspended sys) index) as [call|] eqn:E; [|auto].
  pose proof (remove_nth_length _ _ _ E) as L.
  destruct (suspended_request call); simpl; rewrite length_app; simpl;
    split; lia.
Qed.

(** X17. After any interleaving of calls, [getStats] reports as total
    the number of calls received, the refused ones included, and as
    active the number of calls still running; every call received has
    been answered exactly once or is still running. *)
Theorem getStats_counts_calls events :
  getStats (state (run events))
  = (Z.of_nat (arrivals events),
     Z.of_nat (List.length (suspended (run events))))
  /\ arrivals events
     = (List.length (returned (run events))
        + List.length (suspended (run events)))%nat.
Proof.
  assert (G : forall evs n sys,
             tallied n sys ->
             tallied (n + arrivals evs)%nat (fold_left step evs sys)).
  { induction evs as [|ev evs IH]; intros n sys H.
    - simpl. rewrite Nat.add_0_r. exact H.
    - destruct ev as [request uuid now | index block now].
      + replace (n + arrivals (Arrive request uuid now :: evs))%nat
          with (S n + arrivals evs)%nat by (unfold arrivals; simpl; lia).
        apply IH. now apply arrive_tallied.
      + replace (n + arrivals (Finish index block now :: evs))%nat
          with (n + arrivals evs)%nat by (unfold arrivals; simpl; lia).
        apply IH. now apply finish_tallied. }
  destruct (G events 0%nat boot) as [Hc Hn]; [split; reflexivity|].
  destruct (run_invariant events) as (Ha & _ & _).
  unfold getStats. fold (run events) in Hc, Hn. simpl in Hc, Hn.
  unfold active in Ha. rewrite Hc, Ha. split; [reflexivity | exact Hn].
Qed.

(** X18. A call of [runChatInference] always answers under the id of the
    request (or the fresh id when the request has none) with the source
    [local]. When the answer carries an error (a refusal at the limit or
    a failure in the [try] block), the text is empty, the reason is
    [error] and the conversation is returned as it was received;
    otherwise the conversation is the one received followed by one
    assistant message holding the generated text. *)
Theorem runChatInference_conversation st request uuid start block now :
  let r := snd (runChatInference st request uuid start block now) in
  Models.sourceType r = Models.local
  /\ Models.response_requestId (Models.base r)
     = Some (answer_id request uuid)
  /\ match Models.response_error (Models.base r) with
     | Some _ =>
         Models.updatedConversation r = Models.conversationHistory request
         /\ Models.generatedText (Models.base r) = ""
         /\ Models.finishReason (Models.base r) = Some Models.error
         /\ Models.tokenUsage (Models.base r) = None
     | None =>
         Models.updatedConversation r
         = (Models.conversationHistory request
            ++ [Models.mkConversationMessage Models.assistant
                  (Models.generatedText (Models.base r)) (Some now)])%list
         /\ Models.finishReason (Models.base r) = Some Models.stop
         /\ activeInferences st < MAX_CONCURRENT_INFERENCES
         /\ exists done, block = Ok done
     end.
Proof.
  unfold runChatInference, runChatInference_enter, runChatInference_leave,
    answer_id.
  cbn [activeInferences inferenceCount].
  assert (I : match or_else (Models.chat_requestId request) (Some uuid) with
              | Some r => r
              | None => uuid
              end
              = match Models.chat_requestId request with
                | Some r => if truthy r then r else uuid
                | None => uuid
                end).
  { unfold or_else, truthy_opt.
    destruct (Models.chat_requestId request) as [r|]; [|reflexivity].
    destruct (truthy r); reflexivity. }
  rewrite I.
  destruct (Z.leb_spec MAX_CONCURRENT_INFERENCES (activeInferences st)).
  - cbn. repeat split.
  - destruct block as [[p n]|e]; cbn; repeat split; try assumption.
    now exists (p, n).
Qed.

End InferenceBookkeeping.

(* ================================================================= *)
(** ** Resources *)

Section Resources.
Import Js ResourceManager.
Open Scope Q_scope.

#[local] Abbreviation MB := (inject_Z (1024 * 1024)).

Lemma OVERFLOW_bounds :
  inject_Z (- OVERFLOW) == - inject_Z OVERFLOW /\ 1 < inject_Z OVERFLOW.
Proof. split; vm_compute; reflexivity. Qed.

Lemma of_rational_finite q : finite q -> of_rational q = Num q.
Proof.
  intros [L U]. unfold of_rational.
  destruct (Qle_bool (inject_Z OVERFLOW) q) eqn:A.
  { apply Qle_bool_iff in A. exfalso. apply (Qlt_irrefl q).
    eapply Qlt_le_trans; eassumption. }
  destruct (Qle_bool q (inject_Z (- OVERFLOW))) eqn:B.
  { apply Qle_bool_iff in B. exfalso. apply (Qlt_irrefl q).
    eapply Qle_lt_trans; eassumption. }
  reflexivity.
Qed.

Lemma in_MB q : q / MB == q * (1 # 1048576).
Proof. change MB with 1048576. field. Qed.

Lemma finite_in_MB q : finite q -> finite (q / MB) /\ finite (q / MB * 3).
Proof.
  destruct OVERFLOW_bounds as [N P]. unfold finite. rewrite !N, in_MB.
  generalize dependent (inject_Z OVERFLOW). intros V _ P [L U].
  split; split; lra.
Qed.

Lemma less_Num a r : less (Num a) (Num r) = false <-> r <= a.
Proof.
  cbn [less]. rewrite negb_false_iff. apply Qle_bool_iff.
Qed.

(** The memory required for a size that is a finite number. *)
Lemma required_numeric meta q :
  size meta = of_number (Num q) -> finite q ->
  exists r, calculateRequiredMemory (Some meta) = Num r
            /\ r == Qmax 2048 (q / MB * 3).
Proof.
  intros E F. unfold calculateRequiredMemory. rewrite E.
  cbn [of_number is_truthy to_number].
  destruct (Qeq_bool q 0) eqn:Z; cbn [negb].
  - exists 2048. split; [reflexivity|].
    apply Qeq_bool_eq in Z. symmetry. apply Q.max_l.
    rewrite in_MB. lra.
  - exists (Qmax 2048 (q / MB * 3)). split; [|reflexivity].
    destruct (finite_in_MB q F) as [F1 F2].
    cbn [divide]. change (Qeq_bool MB 0) with false. cbv iota.
    rewrite (of_rational_finite _ F1). cbn [times].
    rewrite (of_rational_finite _ F2). reflexivity.
Qed.

(** The three forms of the memory required. *)
Lemma required_shape n r :
  r = max (Num MINIMUM_MEMORY_REQUIRED) (times (divide n (Num MB)) (Num 3)) ->
  (exists q, r = Num q /\ 2048 <= q)
  \/ r = Infinity false
  \/ (r = NaN /\ n = NaN).
Proof.
  intros R. destruct n as [q| |[|]].
  - cbn [divide] in R. change (Qeq_bool MB 0) with false in R. cbv iota in R.
    unfold of_rational at 1 in R.
    destruct (Qle_bool (inject_Z OVERFLOW) (q / MB)); [right; left; exact R|].
    destruct (Qle_bool (q / MB) (inject_Z (- OVERFLOW)));
      [left; exists 2048; split; [exact R | lra]|].
    cbn [times] in R. unfold of_rational in R.
    destruct (Qle_bool (inject_Z OVERFLOW) (q / MB * 3)); [right; left; exact R|].
    destruct (Qle_bool (q / MB * 3) (inject_Z (- OVERFLOW)));
      [left; exists 2048; split; [exact R | lra]|].
    left. eexists. split; [exact R|]. apply Q.le_max_l.
  - right. right. split; [exact R | reflexivity].
  - left. exists 2048. split; [exact R | lra].
  - right. left. exact R.
Qed.

Lemma required_cases m :
  (exists q, calculateRequiredMemory m = Num q /\ 2048 <= q)
  \/ calculateRequiredMemory m = Infinity false
  \/ (calculateRequiredMemory m = NaN
      /\ exists meta, m = Some meta /\ is_truthy (size meta) = true
                      /\ to_number (size meta) = NaN).
Proof.
  unfold calculateRequiredMemory.
  destruct m as [meta|]; [|left; exists 2048; split; [reflexivity | lra]].
  destruct (is_truthy (size meta)) eqn:T;
    [|left; exists 2048; split; [reflexivity | lra]].
  destruct (required_shape (to_number (size meta)) _ eq_refl)
    as [H | [H | [H N]]].
  - now left.
  - right. now left.
  - right. right. split; [exact H|]. exists meta. auto.
Qed.

Lemma sufficient_iff os m :
  sufficient (checkResources os m) = true <->
  less (Num (freemem os / MB - SYSTEM_MEMORY_BUFFER))
       (calculateRequiredMemory m) = false.
Proof.
  unfold checkResources. destruct (less _ _); cbn [sufficient];
    split; congruence.
Qed.

(** X19. [checkResources] accepts a model whose size is a finite number
    of bytes exactly when the larger of 2048 MB and three times that
    size fits in the free memory less 1024 MB; with no metadata or a
    falsy size, exactly when 2048 MB fit. A truthy size that converts to
    [NaN] is always accepted, whatever the free memory; when the size
    is not of that kind, nothing is accepted with less than 3 GB of
    free memory. A reason is given exactly on a refusal, and when a
    model of a finite size is accepted, every model of a smaller size
    that is not negative is accepted too. *)
Theorem checkResources_threshold os m :
  let available := freemem os / inject_Z (1024 * 1024) - 1024 in
  (sufficient (checkResources os m) = false <->
   reason (checkResources os m) <> None)
  /\ (forall meta q,
        m = Some meta -> size meta = of_number (Num q) -> finite q ->
        (sufficient (checkResources os m) = true <->
         Qmax 2048 (q / inject_Z (1024 * 1024) * 3) <= available))
  /\ ((m = None
       \/ exists meta, m = Some meta /\ is_truthy (size meta) = false) ->
      (sufficient (checkResources os m) = true <-> 2048 <= available))
  /\ (forall meta,
        m = Some meta -> is_truthy (size meta) = true ->
        to_number (size meta) = NaN ->
        sufficient (checkResources os m) = true)
  /\ (freemem os < inject_Z (3 * 1024 * 1024 * 1024) ->
      (forall meta,
         m = Some meta -> is_truthy (size meta) = true ->
         to_number (size meta) <> NaN) ->
      sufficient (checkResources os m) = false)
  /\ (forall big small q q',
        m = Some big -> size big = of_number (Num q) -> finite q ->
        size small = of_number (Num q') -> 0 <= q' <= q ->
        sufficient (checkResources os m) = true ->
        sufficient (checkResources os (Some small)) = true).
Proof.
  cbv zeta.
  assert (S : forall meta q,
             size meta = of_number (Num q) -> finite q ->
             (sufficient (checkResources os (Some meta)) = true <->
              Qmax 2048 (q / MB * 3) <= freemem os / MB - 1024)).
  { intros meta q E F. rewrite sufficient_iff.
    destruct (required_numeric meta q E F) as (r & -> & R).
    rewrite less_Num. unfold SYSTEM_MEMORY_BUFFER. now rewrite R. }
  split; [|split; [|split; [|split; [|split]]]].
  - unfold checkResources. destruct (less _ _); cbn [sufficient reason];
      split; congruence.
  - intros meta q -> E F. now apply S.
  - intros H. rewrite sufficient_iff.
    replace (calculateRequiredMemory m) with (Num 2048).
    + apply less_Num.
    + unfold calculateRequiredMemory.
      destruct H as [->|(meta & -> & ->)]; reflexivity.
  - intros meta -> T N. apply sufficient_iff.
    unfold calculateRequiredMemory. rewrite T, N. reflexivity.
  - intros F H.
    destruct (sufficient (checkResources os m)) eqn:E; [|reflexivity].
    exfalso. apply sufficient_iff in E.
    assert (B : freemem os / MB - SYSTEM_MEMORY_BUFFER < 2048).
    { unfold SYSTEM_MEMORY_BUFFER.
      change (inject_Z (3 * 1024 * 1024 * 1024)) with 3221225472 in F.
      rewrite in_MB. lra. }
    destruct (required_cases m) as [(q & R & Q) | [R | (R & meta & -> & T & N)]].
    + rewrite R in E. apply less_Num in E. lra.
    + rewrite R in E. discriminate E.
    + now apply (H meta).
  - intros big small q q' -> E F E' L A.
    assert (F' : finite q').
    { destruct OVERFLOW_bounds as [N P]. unfold finite in *. rewrite N in *.
      destruct F. split; lra. }
    apply (S small q' E' F'). apply (S big q E F) in A.
    eapply Qle_trans; [|exact A].
    apply Q.max_le_compat_l. rewrite !in_MB. lra.
Qed.

Lemma checkResources_threshold_witness :
  sufficient (checkResources sample_os (Some sample_model)) = true
  /\ sufficient (checkResources sample_os (Some large_model)) = false
  /\ sufficient (checkResources exhausted_os (Some unsized_model)) = true.
Proof.
  assert (F : forall n : Z, (n < 2 ^ 40)%Z -> (- 2 ^ 40 < n)%Z ->
                            finite (inject_Z n)).
  { intros n U L. unfold finite. rewrite <- !Zlt_Qlt.
    assert ((2 ^ 40 < OVERFLOW)%Z) by (vm_compute; reflexivity). lia. }
  split; [|split].
  - apply (proj1 (proj2 (checkResources_threshold sample_os (Some sample_model)))
             sample_model (inject_Z 4294967296) eq_refl eq_refl).
    + apply F; lia.
    + vm_compute. discriminate.
  - destruct (sufficient (checkResources sample_os (Some large_model))) eqn:E;
      [|reflexivity].
    apply (proj1 (proj2 (checkResources_threshold sample_os (Some large_model)))
             large_model (inject_Z 8589934592) eq_refl eq_refl) in E.
    + exfalso. revert E. vm_compute. intros H. now apply H.
    + apply F; lia.
  - apply (proj1 (proj2 (proj2 (proj2 (checkResources_threshold
                                         exhausted_os (Some unsized_model)))))
             unsized_model); reflexivity.
Defined.

Lemma allocate_reserved st os m :
  resourcesAllocated st = false ->
  allocateResources st os m
  = mkState true (cpus os * MAX_CPU_USAGE_PERCENT / 100)
            (calculateRequiredMemory m) false.
Proof. unfold allocateResources. now intros ->. Qed.

#[local] Abbreviation settled :=
  (fun (ops : list Op) (st : State) =>
     usingGPU st = false
     /\ (resourcesAllocated st = false -> st = initial)
     /\ (resourcesAllocated st = true -> reserved_for ops (reservedMemory st))).

Lemma reserved_for_more ops op r :
  reserved_for ops r -> reserved_for (ops ++ [op]) r.
Proof.
  intros [H | [H | (H & os & meta & I & T)]].
  - now left.
  - right. now left.
  - right. right. split; [exact H|]. exists os, meta.
    split; [apply in_or_app; now left | exact T].
Qed.

Lemma apply_settled ops st op :
  settled ops st -> settled (ops ++ [op])%list (apply st op).
Proof.
  intros (G & F & T). destruct op as [os m|]; cbn [apply]; cbv beta.
  - unfold allocateResources.
    destruct (resourcesAllocated st) eqn:A.
    + split; [exact G|]. split; [congruence|].
      intros _. now apply reserved_for_more, T.
    + cbn. split; [reflexivity|]. split; [discriminate|].
      intros _.
      destruct (required_cases m) as [H | [H | (H & meta & -> & N)]].
      * now left.
      * right. now left.
      * right. right. split; [exact H|]. exists os, meta.
        split; [apply in_or_app; right; now left | exact N].
  - unfold releaseResources.
    destruct (resourcesAllocated st) eqn:A; cbn [negb].
    + cbn. split; [reflexivity|]. split; [reflexivity | discriminate].
    + split; [exact G|]. split; [intros _; now apply F | congruence].
Qed.

Lemma run_snoc ops op : run (ops ++ [op]) = apply (run ops) op.
Proof. unfold run. now rewrite fold_left_app. Qed.

(** X20. After any sequence of allocations and releases,
    [getResourceAllocation] reports either no allocation with nothing
    reserved, or an allocation of at least 2048 MB of memory, possibly
    infinite, or of [NaN] MB, which happens only after an allocation for
    a truthy size that converts to [NaN], and does happen then; the GPU
    is never used. An allocation made while resources are allocated
    changes nothing, whatever the model, and a release followed by an
    allocation reserves for the new model. *)
Theorem allocation_settled ops :
  (usingGPU (run ops) = false
   /\ (resourcesAllocated (run ops) = false ->
       getResourceAllocation (run ops) = (false, Num 0, 0%Z, false))
   /\ (resourcesAllocated (run ops) = true ->
       (exists q, reservedMemory (run ops) = Num q /\ 2048 <= q)
       \/ reservedMemory (run ops) = Infinity false
       \/ (reservedMemory (run ops) = NaN
           /\ exists os meta,
                In (Allocate os (Some meta)) ops
                /\ is_truthy (size meta) = true
                /\ to_number (size meta) = NaN)))
  /\ getResourceAllocation (run [Allocate sample_os (Some unsized_model)])
     = (true, NaN, 6%Z, false)
  /\ (forall os m os' m',
        run (ops ++ [Allocate os m; Allocate os' m'])
        = run (ops ++ [Allocate os m]))
  /\ (forall os m,
        run (ops ++ [Release; Allocate os m])
        = mkState true (cpus os * MAX_CPU_USAGE_PERCENT / 100)%Z
                  (calculateRequiredMemory m) false).
Proof.
  assert (G : settled ops (run ops)).
  { induction ops as [|op ops IH] using rev_ind.
    - repeat split; discriminate.
    - rewrite run_snoc. now apply apply_settled. }
  split; [|split; [|split]].
  - destruct G as (Gp & F & T). split; [exact Gp|]. split; [|exact T].
    intros A. rewrite (F A). reflexivity.
  - reflexivity.
  - intros os m os' m'. unfold run. rewrite !fold_left_app. cbn [fold_left apply].
    fold (run ops). unfold allocateResources.
    destruct (resourcesAllocated (run ops)) eqn:A; [now rewrite A|].
    reflexivity.
  - intros os m. unfold run. rewrite fold_left_app. cbn [fold_left apply].
    fold (run ops). apply allocate_reserved.
    unfold releaseResources. destruct (resourcesAllocated (run ops)) eqn:A;
      cbn [negb]; [reflexivity | exact A].
Qed.

End Resources.

(* ================================================================= *)
(** ** Loading, unloading and scanning models *)

Section ModelLifecycle.
Import Js LocalModelLoader.
Import APIErrorHandler (JsError, PlainErr).

(** X21. [loadModel] succeeds exactly when no load is in progress, the
    requested path (the argument, or the configured path when the
    argument is missing or empty) is a non-empty path that exists, the
    metadata found there is not [null], and the resources suffice for
    it. The loader then holds a model named after that metadata, the
    guard is reset, the load time is the current time, and resources are
    allocated: those already allocated are kept as they are, otherwise
    the memory the metadata requires is reserved. When the file
    [metadata.json] of such a path holds [null] and the resources
    suffice, the load fails on reading the name of the metadata, after
    the allocation, and leaves no model, no metadata and no
    allocation. *)
Theorem loadModel_success env st rm path :
  (snd (loadModel env st rm path) = Ok tt <->
   isLoading st = false
   /\ exists p metadata,
       requested_path env path = Ok p
       /\ truthy p = true
       /\ existsSync env p = true
       /\ extractModelMetadata env (resolve env p) = Some metadata
       /\ ResourceManager.sufficient
            (ResourceManager.checkResources (os env) (Some metadata)) = true)
  /\ (snd (loadModel env st rm path) = Ok tt ->
      let st' := fst (fst (loadModel env st rm path)) in
      let rm' := snd (fst (loadModel env st rm path)) in
      exists p metadata,
        requested_path env path = Ok p
        /\ extractModelMetadata env (resolve env p) = Some metadata
        /\ modelPath st' = resolve env p
        /\ getModelMetadata st' = Some metadata
        /\ getModel st' = Ok (mkModel (ResourceManager.name metadata) true)
        /\ isModelLoaded st' = true
        /\ isLoading st' = false
        /\ lastLoadTime st' = now env
        /\ ResourceManager.resourcesAllocated rm' = true
        /\ (ResourceManager.resourcesAllocated rm = true -> rm' = rm)
        /\ (ResourceManager.resourcesAllocated rm = false ->
            ResourceManager.reservedMemory rm'
            = ResourceManager.calculateRequiredMemory (Some metadata)))
  /\ (forall p,
        isLoading st = false ->
        requested_path env path = Ok p ->
        truthy p = true -> existsSync env p = true ->
        extractModelMetadata env (resolve env p) = None ->
        ResourceManager.sufficient
          (ResourceManager.checkResources (os env) None) = true ->
        loadModel env st rm path
        = (mkState None (resolve env p) None false (lastLoadTime st),
           ResourceManager.initial, Throw name_of_null)).
Proof.
  unfold loadModel, loadModel_try, requested_path.
  destruct (isLoading st) eqn:G.
  { cbn [snd]. split; [|split].
    - split; [discriminate | intros [H _]; discriminate H].
    - discriminate.
    - discriminate. }
  destruct (if truthy_opt path then _ else _) as [p|e] eqn:P.
  2:{ cbn [snd]. split; [|split].
      - split; [discriminate | intros (_ & p & m & H & _); discriminate H].
      - discriminate.
      - intros p _ H. discriminate H. }
  destruct (truthy p) eqn:T; cbn [negb].
  2:{ cbn [snd]. split; [|split].
      - split; [discriminate|].
        intros (_ & q & m & [= <-] & H & _). congruence.
      - discriminate.
      - intros q _ [= <-] H. congruence. }
  destruct (existsSync env p) eqn:X; cbn [negb].
  2:{ cbn [snd]. split; [|split].
      - split; [discriminate|].
        intros (_ & q & m & [= <-] & _ & H & _). congruence.
      - discriminate.
      - intros q _ [= <-] _ H. congruence. }
  cbn [modelPath currentModel modelMetadata isLoading lastLoadTime].
  destruct (extractModelMetadata env (resolve env p)) as [metadata|] eqn:M.
  2:{ destruct (ResourceManager.sufficient _) eqn:S; cbn [negb snd].
      - split; [|split].
        + split; [discriminate|].
          intros (_ & q & m & [= <-] & _ & _ & H & _). congruence.
        + discriminate.
        + intros q _ [= <-] _ _ _ _.
          cbn [modelPath lastLoadTime]. f_equal. f_equal.
          unfold ResourceManager.allocateResources,
            ResourceManager.releaseResources.
          destruct (ResourceManager.resourcesAllocated rm) eqn:A.
          * rewrite A. reflexivity.
          * reflexivity.
      - split; [|split].
        + split; [discriminate|].
          intros (_ & q & m & [= <-] & _ & _ & H & _). congruence.
        + discriminate.
        + intros q _ [= <-] _ _ _ H. congruence. }
  destruct (ResourceManager.sufficient _) eqn:S; cbn [negb].
  2:{ cbn [snd]. split; [|split].
      - split; [discriminate|].
        intros (_ & q & m & [= <-] & _ & _ & H & H'). congruence.
      - discriminate.
      - intros q _ [= <-] _ _ H. congruence. }
  cbn [snd fst modelPath currentModel modelMetadata isLoading lastLoadTime].
  split; [|split].
  - split; [|reflexivity]. intros _. split; [reflexivity|].
    exists p, metadata. auto.
  - intros _. exists p, metadata.
    unfold getModelMetadata, getModel, isModelLoaded.
    cbn [modelPath currentModel modelMetadata isLoading lastLoadTime].
    do 8 (split; [assumption || reflexivity|]).
    unfold ResourceManager.allocateResources.
    destruct (ResourceManager.resourcesAllocated rm) eqn:A.
    + split; [exact A|]. split; [reflexivity | discriminate].
    + split; [reflexivity|]. split; [discriminate | reflexivity].
  - intros q _ [= <-] _ _ H. congruence.
Qed.

Lemma loadModel_success_witness :
  snd (loadModel model_env initial ResourceManager.initial None) = Ok tt
  /\ loadModel null_env initial ResourceManager.initial None
     = (mkState None "/models/llama" None false 0,
        ResourceManager.initial, Throw name_of_null).
Proof.
  split.
  - apply (proj1 (loadModel_success model_env initial ResourceManager.initial
                    None)).
    split; [reflexivity|]. exists "/models/llama". eexists.
    repeat split; reflexivity.
  - apply (proj2 (proj2 (loadModel_success null_env initial
                           ResourceManager.initial None)) "/models/llama");
      reflexivity.
Defined.

Lemma unloadModel_loaded st rm model :
  currentModel st = Some model ->
  unloadModel st rm
  = (mkState None (modelPath st) None (isLoading st) (lastLoadTime st),
     ResourceManager.releaseResources rm).
Proof. unfold unloadModel. now intros ->. Qed.

Lemma unloadModel_unloaded st rm :
  currentModel st = None -> unloadModel st rm = (st, rm).
Proof. unfold unloadModel. now intros ->. Qed.

Lemma load_then_unload env st rm path :
  ResourceManager.resourcesAllocated rm = false ->
  snd (loadModel env st rm path) = Ok tt ->
  snd (unloadModel (fst (fst (loadModel env st rm path)))
                   (snd (fst (loadModel env st rm path))))
  = ResourceManager.initial.
Proof.
  intros A. unfold loadModel.
  destruct (isLoading st); [discriminate|].
  destruct (loadModel_try _ _ _ _) as [[st1 rm1] [[]|e]] eqn:L;
    [|discriminate].
  intros _. cbn [fst snd].
  unfold loadModel_try in L.
  destruct (if truthy_opt path then _ else _) as [p|e]; [|discriminate L].
  destruct (negb (truthy p)); [discriminate L|].
  destruct (negb (existsSync env p)); [discriminate L|].
  cbn [modelPath currentModel modelMetadata isLoading lastLoadTime] in L.
  destruct (negb (ResourceManager.sufficient _)); [discriminate L|].
  destruct (extractModelMetadata env (resolve env p)); [|discriminate L].
  injection L as <- <-. unfold unloadModel. cbn [currentModel snd].
  unfold ResourceManager.allocateResources. rewrite A.
  reflexivity.
Qed.

(** X22. [unloadModel] leaves the loader without model; when a model was
    loaded, its metadata is dropped and the resources are released;
    when none was, nothing changes. Unloading twice is unloading once,
    and a successful load from a loader without allocation followed by
    an unload gives the resources back in full. *)
Theorem unloadModel_spec env st rm path :
  let st' := fst (unloadModel st rm) in
  let rm' := snd (unloadModel st rm) in
  isModelLoaded st' = false
  /\ (isModelLoaded st = true ->
      getModelMetadata st' = None
      /\ ResourceManager.resourcesAllocated rm' = false)
  /\ (isModelLoaded st = false -> st' = st /\ rm' = rm)
  /\ unloadModel st' rm' = (st', rm')
  /\ (ResourceManager.resourcesAllocated rm = false ->
      snd (loadModel env st rm path) = Ok tt ->
      snd (unloadModel (fst (fst (loadModel env st rm path)))
                       (snd (fst (loadModel env st rm path))))
      = ResourceManager.initial).
Proof.
  cbv zeta. unfold isModelLoaded, getModelMetadata.
  destruct (currentModel st) as [model|] eqn:C.
  - rewrite (unloadModel_loaded st rm model C). cbn [fst snd currentModel modelMetadata].
    split; [reflexivity|]. split.
    { intros _. split; [reflexivity | apply releaseResources_releases]. }
    split; [discriminate|]. split; [now apply unloadModel_unloaded|].
    apply load_then_unload.
  - rewrite (unloadModel_unloaded st rm C). cbn [fst snd]. rewrite C.
    split; [reflexivity|]. split; [discriminate|].
    split; [auto|]. split; [now apply unloadModel_unloaded|].
    apply load_then_unload.
Qed.

(** X23. [scanAvailableModels] never fails and lists one entry per
    subdirectory of the base directory, in the order of the directory
    listing: a subdirectory whose metadata cannot be extracted is not
    skipped but listed with the minimal metadata. It returns the empty
    list when the configuration cannot be loaded (even when a base
    directory is given), when the base directory does not exist and when
    it cannot be listed. *)
Theorem scanAvailableModels_lists_directories
        env dirname entries baseDir configured found :
  getModelPath env = Ok configured ->
  let modelBaseDir :=
    if truthy_opt baseDir
    then match baseDir with Some b => b | None => EmptyString end
    else dirname configured in
  existsSync env modelBaseDir = true ->
  entries modelBaseDir = Ok found ->
  List.length (scanAvailableModels env dirname entries baseDir)
  = List.length (filter snd found)
  /\ (forall dir e,
        In (dir, true) found ->
        extractModelMetadata_try env (join env modelBaseDir dir) = Throw e ->
        In (minimal_metadata env (join env modelBaseDir dir))
           (scanAvailableModels env dirname entries baseDir))
  /\ (forall failure,
        scanAvailableModels
          (mkEnv (existsSync env) (readMetadata env) (readdir env) (stat env)
                 (join env) (extname env) (basename env)
                 (basename_without env) (resolve env) (now env)
                 (Throw failure) (os env))
          dirname entries baseDir = [])
  /\ (forall failure,
        scanAvailableModels env dirname
          (fun _ => Throw failure) baseDir = []).
Proof.
  intros P modelBaseDir X F. subst modelBaseDir.
  unfold scanAvailableModels. rewrite P, X. cbn [negb].
  split; [|split; [|split]].
  - rewrite F. apply length_map.
  - rewrite F. intros dir e I E. apply in_map_iff. exists (dir, true).
    split.
    + unfold extractModelMetadata, minimal_metadata. cbn [fst].
      now rewrite E.
    + apply filter_In. auto.
  - reflexivity.
  - reflexivity.
Qed.

Lemma scanAvailableModels_lists_directories_witness :
  List.length
    (scanAvailableModels model_env (fun _ => "/models")
       (fun _ => Ok [("llama", true); ("notes.txt", false); ("empty", true)])
       (Some "/models/llama"))
  = 2%nat.
Proof.
  exact (proj1 (scanAvailableModels_lists_directories model_env
                  (fun _ => "/models")
                  (fun _ => Ok [("llama", true); ("notes.txt", false);
                                ("empty", true)])
                  (Some "/models/llama") "/models/llama" _
                  eq_refl eq_refl eq_refl)).
Defined.

End ModelLifecycle.

(* ================================================================= *)
(** ** The fenced block found in a response *)

Section FencedBlock.
Import Js Regex ResponsePostProcessor.

Ltac by_character c :=
  destruct c as [[] [] [] [] [] [] [] []]; try reflexivity.

Lemma split_at_fence_unfold s :
  split_at_fence s
  = match starts_fence s with
    | Some rest => Some (EmptyString, rest)
    | None =>
        match s with
        | String c s' =>
            match split_at_fence s' with
            | Some (before, after) => Some (String c before, after)
            | None => None
            end
        | EmptyString => None
        end
    end.
Proof.
  destruct s as [|c1 s1]; [reflexivity|]. by_character c1.
  destruct s1 as [|c2 s2]; [reflexivity|]. by_character c2.
  destruct s2 as [|c3 s3]; [reflexivity|]. by_character c3.
Qed.

Lemma starts_fence_eq s rest :
  starts_fence s = Some rest -> s = fence ++ rest.
Proof.
  destruct s as [|c1 s1]; [discriminate|].
  destruct c1 as [[] [] [] [] [] [] [] []]; try discriminate.
  destruct s1 as [|c2 s2]; [discriminate|].
  destruct c2 as [[] [] [] [] [] [] [] []]; try discriminate.
  destruct s2 as [|c3 s3]; [discriminate|].
  destruct c3 as [[] [] [] [] [] [] [] []]; try discriminate.
  intros [= ->]. reflexivity.
Qed.

Lemma exec_codeBlock_unfold text :
  ResponsePostProcessor.exec_codeBlock text
  = match starts_fence text with
    | Some rest =>
        match
          match span_word rest with
          | (String c w, String n body) =>
              if (Js.code n =? 10)%nat then
                match split_at_fence body with
                | Some (inner, _) => Some (Some (String c w), inner)
                | None => None
                end
              else None
          | _ => None
          end
        with
        | Some m => Some m
        | None =>
            match split_at_fence rest with
            | Some (inner, _) => Some (None, inner)
            | None =>
                match text with
                | String _ text' => ResponsePostProcessor.exec_codeBlock text'
                | EmptyString => None
                end
            end
        end
    | None =>
        match text with
        | String _ text' => ResponsePostProcessor.exec_codeBlock text'
        | EmptyString => None
        end
    end.
Proof.
  destruct text as [|c1 s1]; [reflexivity|]. by_character c1.
  destruct s1 as [|c2 s2]; [reflexivity|]. by_character c2.
  destruct s2 as [|c3 s3]; [reflexivity|]. by_character c3.
Qed.

Lemma split_at_fence_parts s : forall before after,
  split_at_fence s = Some (before, after) ->
  s = before ++ fence ++ after /\ fence_free before.
Proof.
  unfold fence_free.
  induction s as [|c s IH]; intros before after; [discriminate|].
  rewrite split_at_fence_unfold.
  destruct (starts_fence (String c s)) as [rest|] eqn:F.
  - intros [= <- <-]. split; [now apply starts_fence_eq | reflexivity].
  - destruct (split_at_fence s) as [[b a]|]; [|discriminate].
    intros [= <- <-]. destruct (IH b a eq_refl) as [E Fb].
    split; [cbn [append]; f_equal; exact E|].
    rewrite split_at_fence_unfold, Fb.
    destruct (starts_fence (String c b)) as [rest|] eqn:Fc; [|reflexivity].
    exfalso. apply starts_fence_eq in Fc.
    change (fence ++ rest) with (String "`" (String "`" (String "`" rest)))
      in Fc.
    injection Fc as -> ->. rewrite E in F. discriminate F.
Qed.

Lemma span_word_parts s : forall w r,
  span_word s = (w, r) ->
  s = w ++ r /\ forallb is_word (list_ascii_of_string w) = true.
Proof.
  induction s as [|c s IH]; intros w r; simpl.
  - intros [= <- <-]. auto.
  - destruct (is_word c) eqn:W.
    + destruct (span_word s) as [w' r'] eqn:S. intros [= <- <-].
      destruct (IH w' r' eq_refl) as [E F]. simpl. rewrite W, F, <- E. auto.
    + intros [= <- <-]. auto.
Qed.

Lemma exec_codeBlock_parts text : forall group1 group2,
  ResponsePostProcessor.exec_codeBlock text = Some (group1, group2) ->
  (exists pre post,
     text = pre ++ fence ++ language_line group1 ++ group2 ++ fence ++ post)
  /\ fence_free group2
  /\ (forall w, group1 = Some w ->
                truthy w = true
                /\ forallb is_word (list_ascii_of_string w) = true).
Proof.
  intros group1 group2 H.
  revert H. induction text as [|c text IH]; [discriminate|].
  rewrite exec_codeBlock_unfold.
  destruct (starts_fence (String c text)) as [rest|] eqn:F.
  - apply starts_fence_eq in F.
    destruct (span_word rest) as [w r] eqn:S.
    destruct (span_word_parts rest w r S) as [Er Fw].
    assert (Fallback :
              match split_at_fence rest with
              | Some (inner, _) => Some (None, inner)
              | None => ResponsePostProcessor.exec_codeBlock text
              end = Some (group1, group2) ->
              (exists pre post,
                 String c text
                 = pre ++ fence ++ language_line group1 ++ group2
                   ++ fence ++ post)
              /\ fence_free group2
              /\ (forall w0, group1 = Some w0 ->
                             truthy w0 = true
                             /\ forallb is_word (list_ascii_of_string w0)
                                = true)).
    { destruct (split_at_fence rest) as [[inner post]|] eqn:B.
      - intros [= <- <-].
        destruct (split_at_fence_parts rest inner post B) as [E Fi].
        split; [|split; [exact Fi | discriminate]].
        exists EmptyString, post. rewrite F, E. reflexivity.
      - intros H. destruct (IH H) as ((pre & post & E) & R).
        split; [|exact R]. exists (String c pre), post.
        rewrite E. reflexivity. }
    destruct w as [|c0 w]; [exact Fallback|].
    destruct r as [|n body]; [exact Fallback|].
    destruct (Js.code n =? 10)%nat eqn:N; [|exact Fallback].
    destruct (split_at_fence body) as [[inner post]|] eqn:B;
      [|exact Fallback].
    intros [= <- <-].
    destruct (split_at_fence_parts body inner post B) as [E Fi].
    apply Nat.eqb_eq in N. unfold Js.code in N.
    assert (En : n = ascii_of_nat 10)
      by (rewrite <- N; symmetry; apply ascii_nat_embedding).
    split; [|split; [exact Fi|]].
    + exists EmptyString, post. rewrite F, Er, E, En.
      unfold language_line. rewrite (string_app_assoc (String c0 w) nl).
      reflexivity.
    + intros w0 [= <-]. split; [reflexivity | exact Fw].
  - intros H. destruct (IH H) as ((pre & post & E) & R).
    split; [|exact R]. exists (String c pre), post.
    rewrite E. reflexivity.
Qed.

(** X24. The fenced block that [extractCodeFromResponse] finds is a
    literal part of the response: the response is some text, a fence,
    the language word with its line feed when there is one, the body, a
    fence, and the rest. The body holds no fence, the language is a
    non-empty run of word characters, and the code returned is the body
    trimmed, under the language of the block or else the default one. *)
Theorem fenced_block_located text : forall group1 group2 defaultLanguage,
  ResponsePostProcessor.exec_codeBlock text = Some (group1, group2) ->
  (exists pre post,
     text = pre ++ fence ++ language_line group1 ++ group2 ++ fence ++ post)
  /\ fence_free group2
  /\ (forall w, group1 = Some w ->
                truthy w = true
                /\ forallb is_word (list_ascii_of_string w) = true)
  /\ extractCodeFromResponse text defaultLanguage
     = mkExtracted (trim group2)
         match group1 with Some w => Some w | None => defaultLanguage end.
Proof.
  intros group1 group2 defaultLanguage H.
  destruct (exec_codeBlock_parts text group1 group2 H) as (A & B & C).
  split; [exact A|]. split; [exact B|].
  split; [exact C|].
  unfold extractCodeFromResponse. rewrite H. f_equal.
  destruct group1 as [w|]; [|reflexivity].
  destruct (C w eq_refl) as [T _]. unfold or_else, truthy_opt. now rewrite T.
Qed.

Lemma fenced_block_located_witness :
  extractCodeFromResponse scenario (Some "text")
  = mkExtracted ("def f():" ++ nl ++ "    return 1") (Some "python").
Proof.
  exact (proj2 (proj2 (proj2
           (fenced_block_located scenario (Some "python")
              ("def f():" ++ nl ++ "    return 1" ++ nl) (Some "text")
              eq_refl)))).
Defined.

End FencedBlock.

(* ================================================================= *)
(** ** Post-processing a response twice *)

Section PostProcessing.
Import Js Regex ResponsePostProcessor.

Lemma trimEnd_idempotent s : trimEnd (trimEnd s) = trimEnd s.
Proof.
  induction s as [|c s IH]; [reflexivity|].
  cbn [trimEnd]. destruct (trimEnd s) as [|d t] eqn:E.
  - destruct (is_space c) eqn:S; [reflexivity|].
    cbn [trimEnd]. now rewrite S.
  - cbn [trimEnd] in *. rewrite IH. reflexivity.
Qed.

Lemma trimEnd_head c s :
  is_space c = false -> exists t, trimEnd (String c s) = String c t.
Proof.
  intros S. cbn [trimEnd]. destruct (trimEnd s) as [|d t].
  - rewrite S. now exists EmptyString.
  - now exists (String d t).
Qed.

Lemma trimStart_head s :
  trimStart s = EmptyString
  \/ exists c t, trimStart s = String c t /\ is_space c = false.
Proof.
  induction s as [|c s IH]; [now left|].
  simpl. destruct (is_space c) eqn:S; [exact IH|].
  right. now exists c, s.
Qed.

Lemma trim_idempotent s : trim (trim s) = trim s.
Proof.
  unfold trim. destruct (trimStart_head s) as [E | (c & t & E & S)].
  - rewrite E. reflexivity.
  - rewrite E. destruct (trimEnd_head c t S) as [t' Et].
    rewrite Et. cbn [trimStart]. rewrite S, <- Et.
    apply trimEnd_idempotent.
Qed.

Lemma trimEnd_prefix s : exists q, s = trimEnd s ++ q.
Proof.
  induction s as [|c s [q IH]]; [now exists EmptyString|].
  cbn [trimEnd]. destruct (trimEnd s) as [|d t].
  - destruct (is_space c).
    + now exists (String c s).
    + exists s. reflexivity.
  - exists q. cbn [append]. f_equal. exact IH.
Qed.

Lemma starts_fence_app x q rest :
  starts_fence x = Some rest -> starts_fence (x ++ q) = Some (rest ++ q).
Proof. intros H. apply starts_fence_eq in H. rewrite H. reflexivity. Qed.

Lemma fence_free_tail c s : fence_free (String c s) -> fence_free s.
Proof.
  unfold fence_free. rewrite split_at_fence_unfold.
  destruct (starts_fence (String c s)); [discriminate|].
  destruct (split_at_fence s) as [[b a]|]; [discriminate | reflexivity].
Qed.

Lemma fence_free_no_start s : fence_free s -> starts_fence s = None.
Proof.
  unfold fence_free. rewrite split_at_fence_unfold.
  destruct (starts_fence s); [discriminate | reflexivity].
Qed.

Lemma fence_free_prefix p : forall q, fence_free (p ++ q) -> fence_free p.
Proof.
  induction p as [|c p IH]; intros q H; [reflexivity|].
  pose proof (fence_free_no_start _ H) as N.
  pose proof (IH q (fence_free_tail c _ H)) as T.
  unfold fence_free in *. rewrite split_at_fence_unfold, T.
  destruct (starts_fence (String c p)) as [rest|] eqn:F; [|reflexivity].
  rewrite (starts_fence_app _ q _ F) in N. discriminate.
Qed.

(** A fence later in the text is found. *)
Lemma split_at_fence_later x : forall y,
  split_at_fence y <> None -> split_at_fence (x ++ y) <> None.
Proof.
  induction x as [|c x IH]; intros y H; [exact H|].
  cbn [append]. rewrite split_at_fence_unfold.
  destruct (starts_fence (String c (x ++ y))); [discriminate|].
  specialize (IH y H).
  destruct (split_at_fence (x ++ y)) as [[b a]|]; [discriminate | exact IH].
Qed.

Lemma exec_codeBlock_tail c s :
  ResponsePostProcessor.exec_codeBlock (String c s) = None ->
  ResponsePostProcessor.exec_codeBlock s = None.
Proof.
  rewrite exec_codeBlock_unfold.
  destruct (starts_fence (String c s)) as [rest|]; [|auto].
  destruct (match span_word rest with
            | (String c0 w, String n body) =>
                if (Js.code n =? 10)%nat then
                  match split_at_fence body with
                  | Some (inner, _) => Some (Some (String c0 w), inner)
                  | None => None
                  end
                else None
            | _ => None
            end); [discriminate|].
  destruct (split_at_fence rest) as [[inner post]|]; [discriminate | auto].
Qed.

Lemma exec_codeBlock_open text rest :
  starts_fence text = Some rest ->
  ResponsePostProcessor.exec_codeBlock text = None -> fence_free rest.
Proof.
  intros F. rewrite exec_codeBlock_unfold, F.
  destruct (match span_word rest with
            | (String c0 w, String n body) =>
                if (Js.code n =? 10)%nat then
                  match split_at_fence body with
                  | Some (inner, _) => Some (Some (String c0 w), inner)
                  | None => None
                  end
                else None
            | _ => None
            end); [discriminate|].
  unfold fence_free.
  destruct (split_at_fence rest) as [[inner post]|]; [discriminate | auto].
Qed.

(** After a fence that is never closed the search goes on one character
    further. *)
Lemma exec_codeBlock_unclosed c s rest :
  starts_fence (String c s) = Some rest -> fence_free rest ->
  ResponsePostProcessor.exec_codeBlock (String c s)
  = ResponsePostProcessor.exec_codeBlock s.
Proof.
  intros F N. rewrite exec_codeBlock_unfold, F. unfold fence_free in N.
  rewrite N.
  destruct (span_word rest) as [w r] eqn:S.
  destruct (span_word_parts rest w r S) as [Er _].
  destruct w as [|c0 w]; [reflexivity|].
  destruct r as [|n body]; [reflexivity|].
  destruct (Js.code n =? 10)%nat; [|reflexivity].
  destruct (split_at_fence body) as [[inner post]|] eqn:B; [|reflexivity].
  exfalso. apply (split_at_fence_later (String c0 w ++ String n EmptyString) body).
  - rewrite B. discriminate.
  - replace ((String c0 w ++ String n EmptyString) ++ body) with rest;
      [exact N|].
    rewrite Er, string_app_assoc. reflexivity.
Qed.

Lemma exec_codeBlock_prefix p : forall q,
  ResponsePostProcessor.exec_codeBlock (p ++ q) = None ->
  ResponsePostProcessor.exec_codeBlock p = None.
Proof.
  induction p as [|c p IH]; intros q H; [reflexivity|].
  cbn [append] in H. pose proof (IH q (exec_codeBlock_tail c _ H)) as T.
  destruct (starts_fence (String c p)) as [rest|] eqn:F.
  - rewrite (exec_codeBlock_unclosed c p rest F); [exact T|].
    apply (fence_free_prefix rest q).
    apply (exec_codeBlock_open (String c (p ++ q))); [|exact H].
    exact (starts_fence_app (String c p) q rest F).
  - rewrite exec_codeBlock_unfold, F. exact T.
Qed.

Lemma exec_codeBlock_trim s :
  ResponsePostProcessor.exec_codeBlock s = None ->
  ResponsePostProcessor.exec_codeBlock (trim s) = None.
Proof.
  intros H. unfold trim.
  assert (S : ResponsePostProcessor.exec_codeBlock (trimStart s) = None).
  { induction s as [|c s IH]; [exact H|]. simpl.
    destruct (is_space c); [|exact H].
    apply IH. exact (exec_codeBlock_tail c s H). }
  destruct (trimEnd_prefix (trimStart s)) as [q E].
  apply (exec_codeBlock_prefix _ q). now rewrite <- E.
Qed.

Lemma exec_codeBlock_fence_free s :
  fence_free s -> ResponsePostProcessor.exec_codeBlock s = None.
Proof.
  induction s as [|c s IH]; intros H; [reflexivity|].
  rewrite exec_codeBlock_unfold, (fence_free_no_start _ H).
  apply IH. exact (fence_free_tail c s H).
Qed.

(** What [extractCodeFromResponse] returns as code holds no block that a
    second extraction would find, and is trimmed. *)
Lemma extracted_code_settled text defaultLanguage :
  ResponsePostProcessor.exec_codeBlock
    (code (extractCodeFromResponse text defaultLanguage)) = None
  /\ trim (code (extractCodeFromResponse text defaultLanguage))
     = code (extractCodeFromResponse text defaultLanguage).
Proof.
  unfold extractCodeFromResponse.
  destruct (ResponsePostProcessor.exec_codeBlock text) as [[g1 g2]|] eqn:E.
  - cbn [code]. split; [|apply trim_idempotent].
    apply exec_codeBlock_trim, exec_codeBlock_fence_free.
    now destruct (exec_codeBlock_parts text g1 g2 E) as (_ & F & _).
  - destruct (looksLikeCode text); cbn [code];
      (split; [now apply exec_codeBlock_trim | apply trim_idempotent]).
Qed.

(** X25. [processResponse] changes nothing but the generated text, and
    returns the response itself when it carries an error or no text.
    With formatting switched off it is idempotent: processing a
    processed response gives it back unchanged. *)
Theorem processResponse_idempotent prettier response options :
  let processed := processResponse prettier response options in
  (Models.tokenUsage processed = Models.tokenUsage response
   /\ Models.finishReason processed = Models.finishReason response
   /\ Models.model processed = Models.model response
   /\ Models.response_error processed = Models.response_error response
   /\ Models.response_timestamp processed = Models.response_timestamp response
   /\ Models.response_requestId processed = Models.response_requestId response
   /\ Models.latency processed = Models.latency response)
  /\ (truthy_opt (Models.response_error response) = true
      \/ Models.generatedText response = "" ->
      processed = response)
  /\ (options_formatCode options = Some false ->
      trim (Models.generatedText processed) = Models.generatedText processed
      \/ processed = response)
  /\ (options_formatCode options = Some false ->
      processResponse prettier processed options = processed).
Proof.
  cbv zeta. unfold processResponse.
  destruct (truthy_opt (Models.response_error response)) eqn:Er; cbn [orb].
  { rewrite Er. cbn [orb]. repeat split; auto. }
  destruct (truthy (Models.generatedText response)) eqn:Tx; cbn [negb].
  2:{ rewrite Er, Tx. cbn [orb negb]. repeat split; auto. }
  destruct (extracted_code_settled (Models.generatedText response)
              (options_language options)) as [Ex Tr].
  destruct (truthy (code (extractCodeFromResponse
                            (Models.generatedText response)
                            (options_language options)))) eqn:Tc;
    cbn [negb].
  2:{ rewrite Er, Tx, Tc. cbn [orb negb]. repeat split; auto. }
  split; [repeat split|]. split.
  { intros [H|H]; [discriminate|]. rewrite H in Tx. discriminate. }
  split.
  - intros ->. left. cbn [Models.generatedText]. exact Tr.
  - intros ->.
    cbn [Models.generatedText Models.response_error Models.tokenUsage
         Models.finishReason Models.model Models.response_timestamp
         Models.response_requestId Models.latency].
    rewrite Er, Tc. cbn [orb negb].
    rewrite (unfenced_text_trimmed _ (options_language options) Ex).
    cbn [code]. rewrite Tr, Tc. cbn [negb]. reflexivity.
Qed.

End PostProcessing.

(* ================================================================= *)
(** ** Requests built from a session *)

Section ChatRequests.
Import Js ChatController.
Import ChatService (createChatRequest, getSuggestedResponses, history_of).

Lemma filter_negb_length {A} (p : A -> bool) (l : list A) :
  (List.length (filter (fun x => negb (p x)) l) + List.length (filter p l)
   = List.length l)%nat.
Proof.
  induction l as [|x l IH]; [reflexivity|].
  simpl. destruct (p x); simpl; lia.
Qed.

(** X26. The request built from a session of a reachable store carries
    as system message the non-empty [systemMessage] of the session (none
    otherwise), and as history the messages of the transcript that are
    not system messages, in order: all of them but the one system
    message, when there is one. *)
Theorem createChatRequest_of_session st sessionId s newMessage uuid now :
  reachable st ->
  getSession st sessionId = Some s ->
  let request := createChatRequest s newMessage uuid now in
  Models.chat_prompt request = newMessage
  /\ Models.systemMessage request
     = match systemMessage s with
       | Some text => if truthy text then Some text else None
       | None => None
       end
  /\ Forall (fun m => Models.role m <> Models.system)
            (Models.conversationHistory request)
  /\ map Models.content (Models.conversationHistory request)
     = map content (filter (fun m => negb (is_system m)) (messages s))
  /\ (List.length (Models.conversationHistory request)
      + (if truthy_opt (Models.systemMessage request) then 1 else 0)
      = List.length (messages s))%nat.
Proof.
  intros R L.
  pose proof (lookup_mirrored st sessionId s (reachable_mirrored st R) L) as M.
  unfold mirrored, system_texts in M.
  cbv zeta. unfold createChatRequest, history_of.
  cbn [Models.chat_prompt Models.systemMessage Models.conversationHistory].
  assert (Sys : option_map content (find is_system (messages s))
                = match systemMessage s with
                  | Some text => if truthy text then Some text else None
                  | None => None
                  end).
  { rewrite find_filter_system.
    destruct (filter is_system (messages s)) as [|m0 rest];
      destruct (systemMessage s) as [text|];
      try destruct (truthy text); simpl in *; congruence. }
  split; [reflexivity|]. split; [exact Sys|]. split; [|split].
  - apply Forall_forall. intros m I. apply in_map_iff in I as (x & <- & I).
    apply filter_In in I as [_ I]. cbn [Models.role]. unfold is_system in I.
    destruct (role x); [discriminate | discriminate | discriminate I].
  - rewrite map_map. reflexivity.
  - rewrite length_map, Sys.
    rewrite <- (filter_negb_length is_system (messages s)).
    f_equal. rewrite <- (length_map content (filter is_system (messages s))), M.
    destruct (systemMessage s) as [text|]; [|reflexivity].
    destruct (truthy text) eqn:T; cbn [truthy_opt]; [now rewrite T|reflexivity].
Qed.

Lemma createChatRequest_of_session_witness :
  exists s,
    getSession sample_store "3f0c1d52-8a3e-4b1f-9c57-2e6d1a4b7c90" = Some s
    /\ Models.systemMessage (createChatRequest s "And XML?" "r-1" 4000)
       = Some "Be brief".
Proof.
  eexists. split; [reflexivity|].
  exact (proj1 (proj2 (createChatRequest_of_session sample_store
                         "3f0c1d52-8a3e-4b1f-9c57-2e6d1a4b7c90" _
                         "And XML?" "r-1" 4000
                         sample_store_reachable eq_refl))).
Defined.

(** X27. [getSuggestedResponses] never fails and returns at most three
    suggestions, each of them non-empty and without white space around
    it, whatever the connector answers; it returns none for a session of
    fewer than two messages, for a session whose last message is not
    from the user, and when the connector fails or answers with an error
    or an empty text. *)
Theorem getSuggestedResponses_spec sendChatRequest session uuid now :
  let suggestions := getSuggestedResponses sendChatRequest session uuid now in
  (List.length suggestions <= 3)%nat
  /\ Forall (fun line => line <> EmptyString /\ trim line = line) suggestions
  /\ ((List.length (messages session) < 2)%nat -> suggestions = [])
  /\ (forall earlier lastMessage,
        messages session = (earlier ++ [lastMessage])%list ->
        role lastMessage <> Models.user -> suggestions = [])
  /\ ((forall request,
         match sendChatRequest request with
         | Ok response =>
             truthy_opt (Models.response_error (Models.base response)) = true
             \/ Models.generatedText (Models.base response) = EmptyString
         | Throw _ => True
         end) ->
      suggestions = []).
Proof.
  cbv zeta. unfold getSuggestedResponses.
  destruct (Nat.ltb_spec (List.length (messages session)) 2) as [Short|Long].
  { repeat split; auto; simpl; lia. }
  destruct (List.last (map Some (messages session)) None) as [lastMessage|] eqn:E.
  2:{ repeat split; auto; simpl; lia. }
  assert (Last : forall earlier m,
             messages session = (earlier ++ [m])%list -> m = lastMessage).
  { intros earlier m H. rewrite H, map_app in E. cbn [map] in E.
    rewrite last_last in E. congruence. }
  destruct (role lastMessage) eqn:Ro.
  2,3: (split; [simpl; lia|]; split; [constructor|]; split; [lia|];
        split; [reflexivity | reflexivity]).
  set (request := Models.mkChatLLMRequest _ _ _ _ _ _).
  destruct (sendChatRequest request) as [response|e] eqn:S.
  2:{ split; [simpl; lia|]. split; [constructor|]. split; [lia|].
      split; [|reflexivity].
      intros earlier m H N. rewrite (Last _ _ H) in N. congruence. }
  destruct (truthy_opt (Models.response_error (Models.base response))
            || negb (truthy (Models.generatedText (Models.base response))))
    eqn:Bad.
  { split; [simpl; lia|]. split; [constructor|]. split; [lia|].
    split; [|reflexivity].
    intros earlier m H N. rewrite (Last _ _ H) in N. congruence. }
  split; [apply firstn_le_length|]. split; [|split; [lia|split]].
  - apply Forall_forall. intros line I.
    match type of I with
    | In _ (firstn 3 ?l) =>
        assert (I' : In line l)
          by (rewrite <- (firstn_skipn 3 l); apply in_or_app; now left)
    end.
    clear I. apply filter_In in I' as [I Len]. apply in_map_iff in I as (raw & <- & _).
    split; [|apply trim_idempotent].
    intros Z. rewrite Z in Len. discriminate.
  - intros earlier m H N. rewrite (Last _ _ H) in N. congruence.
  - intros H. specialize (H request). rewrite S in H.
    apply orb_false_iff in Bad as [B1 B2].
    destruct H as [H|H]; [congruence|].
    rewrite H in B2. discriminate.
Qed.

End ChatRequests.

(* ================================================================= *)
(** ** The connector and the error handler of the implementation guide *)

Section GuideRetry.
Import Js GuideConnector.

Context {E T : Type}.
Variable fn : nat -> Result E T.
Variable random : nat -> Q.
Variable maxRetries : Number.
Variable initialDelay : Number.

#[local] Abbreviation rloop :=
  (retryWithBackoff_loop fn random maxRetries initialDelay).
#[local] Abbreviation gives_up :=
  (fun retries : Z => less maxRetries (Num (inject_Z retries))).
#[local] Abbreviation nth_delay :=
  (fun k : nat => backoff initialDelay (Z.of_nat k + 1) (random k)).

#[local] Abbreviation settles :=
  (fun (allowed : nat) (run : Run E T) =>
     attempts run = S (List.length (delays run))
     /\ (attempts run <= S allowed)%nat
     /\ result run = fn (attempts run - 1)%nat
     /\ (forall j, (j < attempts run - 1)%nat -> exists e, fn j = Throw e)
     /\ (forall e, result run = Throw e -> attempts run = S allowed)
     /\ delays run = map nth_delay (seq 0 (attempts run - 1))).

Lemma increment_next calls :
  Z.of_nat calls < MAX_COUNT ->
  increment (Z.of_nat calls) = Z.of_nat (S calls).
Proof.
  intros H. unfold increment.
  destruct (Z.ltb_spec (Z.of_nat calls) MAX_COUNT); lia.
Qed.

(** The loop when [allowed] retries are allowed. *)
Lemma retryWithBackoff_loop_settles allowed :
  Z.of_nat allowed < MAX_COUNT ->
  (forall c, (c < allowed)%nat -> gives_up (Z.of_nat (S c)) = false) ->
  gives_up (Z.of_nat (S allowed)) = true ->
  forall n calls slept,
  (n + calls = allowed)%nat ->
  (forall j, (j < calls)%nat -> exists e, fn j = Throw e) ->
  slept = map nth_delay (seq 0 calls) ->
  exists run,
    (forall extra, rloop (S n + extra) (Z.of_nat calls) calls slept = Some run)
    /\ settles allowed run.
Proof.
  intros Hs Hlow Hhigh.
  induction n as [|n IH]; intros calls slept Hf Hp Hsl.
  - cbn [Nat.add retryWithBackoff_loop].
    rewrite increment_next by lia.
    destruct (fn calls) as [v|e] eqn:F.
    + eexists. split; [reflexivity|]. cbv beta. cbn [attempts delays result].
      replace (S calls - 1)%nat with calls by lia.
      rewrite F, Hsl, length_map, length_seq.
      repeat split; auto; try lia; discriminate.
    + replace calls with allowed in * by lia. cbv beta in Hhigh.
      rewrite Hhigh.
      eexists. split; [reflexivity|]. cbv beta. cbn [attempts delays result].
      replace (S allowed - 1)%nat with allowed by lia.
      rewrite F, Hsl, length_map, length_seq.
      repeat split; auto; lia.
  - cbn [Nat.add retryWithBackoff_loop].
    rewrite increment_next by lia.
    destruct (fn calls) as [v|e] eqn:F.
    + eexists. split; [reflexivity|]. cbv beta. cbn [attempts delays result].
      replace (S calls - 1)%nat with calls by lia.
      rewrite F, Hsl, length_map, length_seq.
      repeat split; auto; try lia; discriminate.
    + pose proof (Hlow calls) as L. cbv beta in L. rewrite L by lia.
      apply IH.
      * lia.
      * intros j Hj. destruct (Nat.eq_dec j calls) as [->|N];
          [now exists e | apply Hp; lia].
      * rewrite seq_S, map_app, Hsl. cbn [map]. do 3 f_equal. lia.
Qed.

Lemma retryWithBackoff_settles allowed :
  Z.of_nat allowed < MAX_COUNT ->
  (forall c, (c < allowed)%nat -> gives_up (Z.of_nat (S c)) = false) ->
  gives_up (Z.of_nat (S allowed)) = true ->
  exists run,
    (forall fuel, (allowed < fuel)%nat ->
       retryWithBackoff fn random maxRetries initialDelay fuel = Some run)
    /\ settles allowed run.
Proof.
  intros Hs Hlow Hhigh.
  destruct (retryWithBackoff_loop_settles allowed Hs Hlow Hhigh
              allowed 0%nat []) as (run & R & Hrun);
    [lia | intros j Hj; lia | reflexivity |].
  exists run. split; [|exact Hrun].
  intros fuel Hf. unfold retryWithBackoff.
  replace fuel with (S allowed + (fuel - S allowed))%nat by lia.
  apply R.
Qed.

(** The counter stays a double. *)
Lemma increment_range retries :
  0 <= retries <= MAX_COUNT -> 0 <= increment retries <= MAX_COUNT.
Proof.
  unfold increment. destruct (Z.ltb_spec retries MAX_COUNT); lia.
Qed.

Lemma retryWithBackoff_loop_forever :
  (forall retries, 0 <= retries <= MAX_COUNT -> gives_up retries = false) ->
  (forall k, exists e, fn k = Throw e) ->
  forall fuel retries calls slept,
    0 <= retries <= MAX_COUNT ->
    rloop fuel retries calls slept = None.
Proof.
  intros Hnever Hfail.
  induction fuel as [|fuel IH]; intros retries calls slept Hr;
    [reflexivity|].
  cbn [retryWithBackoff_loop].
  destruct (Hfail calls) as [e ->].
  pose proof (Hnever (increment retries) (increment_range _ Hr)) as N.
  cbv beta in N. rewrite N.
  apply IH. now apply increment_range.
Qed.

Lemma floor_lt q n : (q < inject_Z n)%Q <-> Qfloor q < n.
Proof.
  split.
  - intros H. destruct (Z.lt_ge_cases (Qfloor q) n) as [L|G]; [exact L|].
    exfalso. apply (Qlt_irrefl q).
    eapply Qlt_le_trans; [exact H|].
    eapply Qle_trans; [|apply Qfloor_le].
    now rewrite <- Zle_Qle.
  - intros H. eapply Qlt_le_trans; [apply Qlt_floor|].
    rewrite <- Zle_Qle. lia.
Qed.

Lemma gives_up_Num q retries :
  maxRetries = Num q ->
  (gives_up retries = true <-> Qfloor q < retries).
Proof.
  intros ->. cbn [less]. rewrite negb_true_iff, <- floor_lt.
  split.
  - intros H. apply Qnot_le_lt. intros L.
    apply Qle_bool_iff in L. congruence.
  - intros H. destruct (Qle_bool (inject_Z retries) q) eqn:L; [|reflexivity].
    apply Qle_bool_iff in L. exfalso. apply (Qlt_irrefl q).
    eapply Qlt_le_trans; eassumption.
Qed.

(** X28. [retryWithBackoff] of the guide calls the operation until a
    call succeeds, retrying after every failure whatever its kind. When
    [maxRetries] is a number below [2^53], or minus infinity, it ends:
    it gives up after [floor(maxRetries) + 1] failed calls (after the
    first one when [maxRetries] is below 1) and raises the error of the
    last call as it is. It sleeps once between two calls; the delay
    asked of the timer after the failure number [k + 1] is
    [initialDelay * 2^k], infinite from [k = 1024] on, plus a jitter
    below 100 ms, and the timer waits 1 ms when that delay is above
    2147483647 ms, below 1 ms or [NaN]. When [maxRetries] is [NaN],
    plus infinity or at least [2^53], the comparison
    [retries > maxRetries] never holds, and the function never returns
    if every call fails. *)
Theorem retryWithBackoff_spec :
  (forall allowed,
     (maxRetries = Infinity true /\ allowed = 0%nat)
     \/ (exists q, maxRetries = Num q /\ (q < inject_Z MAX_COUNT)%Q
                   /\ allowed = Z.to_nat (Qfloor q)) ->
     exists run,
       (forall fuel, (allowed < fuel)%nat ->
          retryWithBackoff fn random maxRetries initialDelay fuel = Some run)
       /\ attempts run = S (List.length (delays run))
       /\ (attempts run <= S allowed)%nat
       /\ result run = fn (attempts run - 1)%nat
       /\ (forall j, (j < attempts run - 1)%nat -> exists e, fn j = Throw e)
       /\ (forall e, result run = Throw e -> attempts run = S allowed)
       /\ delays run
          = map (fun k : nat =>
                   plus (times initialDelay
                               (of_rational (inject_Z (2 ^ Z.of_nat k))))
                        (Num (random k * 100)))
                (seq 0 (attempts run - 1))
       /\ (forall k d, nth_error (delays run) k = Some d ->
             nth_error (waits run) k
             = Some match d with
                    | Num ms =>
                        if Qle_bool 1 ms && Qle_bool ms (inject_Z 2147483647)
                        then Qfloor ms else 1
                    | _ => 1
                    end))
  /\ (maxRetries = NaN \/ maxRetries = Infinity false
      \/ (exists q, maxRetries = Num q /\ (inject_Z MAX_COUNT <= q)%Q) ->
      (forall k, exists e, fn k = Throw e) ->
      forall fuel,
        retryWithBackoff fn random maxRetries initialDelay fuel = None).
Proof.
  split.
  - intros allowed H.
    assert (Hrun : exists run,
               (forall fuel, (allowed < fuel)%nat ->
                  retryWithBackoff fn random maxRetries initialDelay fuel
                  = Some run)
               /\ settles allowed run).
    { destruct H as [[M ->] | (q & M & B & ->)].
      - apply retryWithBackoff_settles.
        + reflexivity.
        + intros c Hc. lia.
        + cbv beta. rewrite M. reflexivity.
      - apply floor_lt in B.
        assert (P : 0 < MAX_COUNT) by reflexivity.
        apply retryWithBackoff_settles.
        + lia.
        + intros c Hc.
          destruct (gives_up (Z.of_nat (S c))) eqn:G; [|reflexivity].
          apply (gives_up_Num q _ M) in G. lia.
        + apply (gives_up_Num q _ M). lia. }
    destruct Hrun as (run & R & A & B & C & D & F & G).
    exists run. split; [exact R|].
    do 5 (split; [assumption|]). split.
    + rewrite G. apply map_ext. intros k. unfold backoff.
      replace (Z.of_nat k + 1 - 1) with (Z.of_nat k) by lia. reflexivity.
    + intros k d Hd. unfold waits. rewrite (map_nth_error setTimeout k _ Hd).
      reflexivity.
  - intros H Hfail fuel. unfold retryWithBackoff.
    apply retryWithBackoff_loop_forever;
      [|exact Hfail | split; [reflexivity | discriminate]].
    intros retries Hr. cbv beta.
    destruct H as [-> | [-> | (q & -> & B)]]; [reflexivity | reflexivity |].
    cbn [less]. apply negb_false_iff, Qle_bool_iff.
    eapply Qle_trans; [|exact B]. rewrite <- Zle_Qle. lia.
Qed.

End GuideRetry.

Section GuideRetryExamples.
Import Js GuideConnector.

Lemma retryWithBackoff_spec_witness :
  (exists run,
     retryWithBackoff always_down (fun _ => 0.5%Q) (Num 3) (Num 1000) 10
     = Some run
     /\ attempts run = 4%nat /\ waits run = [1050; 2050; 4050])
  /\ retryWithBackoff always_down (fun _ => 0.5%Q) NaN (Num 1000) 1000 = None.
Proof.
  split.
  - destruct (retryWithBackoff_spec always_down (fun _ => 0.5%Q) (Num 3)
                (Num 1000)) as [A _].
    destruct (A 3%nat) as (run & R & _).
    { right. exists 3%Q. repeat split; reflexivity. }
    exists run. split; [apply R; lia|].
    assert (L : (3 < 10)%nat) by lia.
    specialize (R 10%nat L). vm_compute in R. injection R as <-.
    split; reflexivity.
  - destruct (retryWithBackoff_spec always_down (fun _ => 0.5%Q) NaN
                (Num 1000)) as [_ B].
    apply B; [now left|]. intros k. eexists. reflexivity.
Defined.

End GuideRetryExamples.

Section GuideFailures.
Import Js GuideConnector.
Import APIErrorHandler (JsError, PlainErr).

Lemma handleAPIError_truthy error : truthy (handleAPIError error) = true.
Proof.
  destruct error as [message [[status data]|] [|] | message |]; cbn;
    try reflexivity;
    repeat match goal with
           | |- context [if ?b then _ else _] => destruct b
           end; reflexivity.
Qed.

(** X29. In the guide, [handleAPIError] never returns the empty string;
    so whatever the HTTP call of [sendChatRequest] raises, the response
    carries an error and an empty message, and [generateCode], when the
    remote service is the source, raises an error with that text: a
    transport failure always reaches the caller. *)
Theorem guide_transport_failure_raises
        config runInference processCode prompt options failure :
  Guide.determineSource config (Guide.source options) = Ok Guide.API ->
  handleAPIError failure <> EmptyString
  /\ Guide.chat_error (sendChatRequest (Throw failure))
     = Some (handleAPIError failure)
  /\ Guide.content (Guide.message (sendChatRequest (Throw failure)))
     = EmptyString
  /\ Guide.generateCode config runInference
       (fun _ => sendChatRequest (Throw failure)) processCode prompt options
     = Throw (PlainErr (handleAPIError failure)).
Proof.
  intros S. pose proof (handleAPIError_truthy failure) as T.
  split; [intros Z; rewrite Z in T; discriminate|].
  split; [reflexivity|]. split; [reflexivity|].
  unfold Guide.generateCode, Guide.generateCode_try. rewrite S.
  cbn [bind sendChatRequest Guide.chat_error Guide.error Guide.message
       Guide.content truthy_opt].
  rewrite T. reflexivity.
Qed.

Lemma guide_transport_failure_raises_witness :
  Guide.generateCode Guide.remote_only Guide.local_answers
    (fun _ => sendChatRequest
                (Throw (AxiosError "Request failed" (Some (503, "{}")) true)))
    Guide.keep_text "sort a list" Guide.auto_options
  = Throw (PlainErr
             "Server error (503): The AI service is experiencing issues").
Proof.
  exact (proj2 (proj2 (proj2
           (guide_transport_failure_raises Guide.remote_only
              Guide.local_answers Guide.keep_text "sort a list"
              Guide.auto_options
              (AxiosError "Request failed" (Some (503, "{}")) true)
              eq_refl)))).
Defined.

End GuideFailures.

(* ================================================================= *)
(** ** A transport failure, from the HTTP call to the chat *)

Section ConnectorFailure.
Import Js APIErrorHandler ExternalLLMConnector.

Context {D : Type}.
Variable ensure_config : Result JsError unit.
Variable post : nat -> Result JsError D.
Variable random : nat -> Q.
Variable complete :
  Models.ChatLLMRequest -> string -> Z -> D ->
  Result JsError Models.ChatLLMResponse.
Variable is_uuid : string -> bool.
Variable zodError : Models.ChatLLMResponse -> JsError.
Variable loadConfig : Result JsError ChatService.EnvConfig.
Variable runChatInference :
  Models.ChatLLMRequest -> Result JsError Models.ChatLLMResponse.

#[local] Abbreviation send :=
  (sendChatRequest ensure_config post random complete is_uuid zodError).

Lemma retry_all_fail :
  (forall k, exists e, post k = Throw e) ->
  exists k e,
    (k <= 3)%nat /\ post k = Throw e
    /\ attempts (retry post random MAX_RETRIES) = S k
    /\ (shouldRetry e = false \/ k = 3%nat)
    /\ result (retry post random MAX_RETRIES) = Throw (finalError 3 e).
Proof.
  intros F.
  destruct (retry_outcome post random MAX_RETRIES) as (k & A & _ & K & _ & O);
    [unfold MAX_RETRIES; lia|].
  unfold MAX_RETRIES in *.
  destruct O as [(v & Pv & _) | (e & Pe & R & Why)].
  - destruct (F k) as [e Pe]. congruence.
  - exists k, e. split; [lia|]. split; [exact Pe|]. split; [exact A|].
    split; [|exact R]. unfold shouldRetry. destruct Why; [now left | right; lia].
Qed.

Lemma errorResponse_valid request id error startTime now1 now2 :
  startTime <= now2 ->
  validateChatLLMResponse is_uuid zodError
    (errorResponse request id error startTime now1 now2)
  = if is_uuid id
    then Ok (errorResponse request id error startTime now1 now2)
    else Throw (zodError (errorResponse request id error startTime now1 now2)).
Proof.
  intros H. unfold validateChatLLMResponse, errorResponse.
  cbn [Models.base Models.tokenUsage Models.response_requestId Models.latency].
  replace (0 <=? now2 - startTime) with true
    by (symmetry; apply Z.leb_le; lia).
  destruct (is_uuid id); reflexivity.
Qed.

(** X30. When the connector is configured and every HTTP call fails,
    [sendChatRequest] makes at most four calls (one only when the first
    error is not retryable) and, for a request whose id is a UUID,
    returns a response with the reason [error], an empty text, the
    conversation as received and the error text
    [Chat API request failed: API request failed after 4 attempts: ...]
    with the message of the last error, whatever the number of calls
    made. For a request whose id is not a UUID the validation of that
    response raises. [processMessage], which sends requests with a fresh
    UUID, then answers with its apology followed by that text. *)
Theorem transport_failure_reported startTime now2 :
  ensure_config = Ok tt ->
  (forall k, exists e, post k = Throw e) ->
  startTime <= now2 ->
  exists k e,
    (k <= 3)%nat /\ post k = Throw e
    /\ attempts (retry post random MAX_RETRIES) = S k
    /\ (shouldRetry e = false \/ k = 3%nat)
    /\ (forall request uuid now1,
          is_uuid (request_id request uuid) = true ->
          exists response,
            send request uuid startTime now1 now2 = Ok response
            /\ Models.response_error (Models.base response)
               = Some ("Chat API request failed: API request failed after 4 attempts: "
                       ++ message (categorizeError e))
            /\ Models.generatedText (Models.base response) = EmptyString
            /\ Models.finishReason (Models.base response) = Some Models.error
            /\ Models.updatedConversation response
               = Models.conversationHistory request
            /\ Models.sourceType response = Models.api)
    /\ (forall request uuid now1,
          is_uuid (request_id request uuid) = false ->
          exists response,
            send request uuid startTime now1 now2 = Throw (zodError response))
    /\ (forall session text config u1 n1 u2 n2 uuid now1,
          loadConfig = Ok config ->
          truthy u1 = true -> is_uuid u1 = true ->
          exists response,
            ChatService.processMessage loadConfig runChatInference
              (fun request => send request uuid startTime now1 now2)
              session text false u1 n1 u2 n2 = Ok response
            /\ Models.generatedText (Models.base response)
               = ChatService.apology
                 ++ "Chat API request failed: API request failed after 4 attempts: "
                 ++ message (categorizeError e)
            /\ Models.finishReason (Models.base response)
               = Some Models.error).
Proof.
  intros C F T.
  destruct (retry_all_fail F) as (k & e & K & P & A & W & R).
  exists k, e. do 4 (split; [assumption|]).
  assert (S : forall request uuid now1,
             send request uuid startTime now1 now2
             = if is_uuid (request_id request uuid)
               then Ok (errorResponse request (request_id request uuid)
                                      (finalError 3 e) startTime now1 now2)
               else Throw (zodError
                             (errorResponse request (request_id request uuid)
                                            (finalError 3 e) startTime now1
                                            now2))).
  { intros request uuid now1. unfold sendChatRequest.
    rewrite C, R. cbn [bind]. now apply errorResponse_valid. }
  split; [|split].
  - intros request uuid now1 U. rewrite S, U. eexists. split; [reflexivity|].
    repeat split.
  - intros request uuid now1 U. rewrite S, U. eexists. reflexivity.
  - intros session text config u1 n1 u2 n2 uuid now1 L Tu U.
    unfold ChatService.processMessage, ChatService.processMessage_try.
    rewrite L. cbn [bind]. rewrite S.
    unfold request_id at 1. cbn [Models.chat_requestId ChatService.createChatRequest].
    unfold or_else. cbn [truthy_opt]. rewrite Tu, U.
    cbn [bind errorResponse Models.base Models.response_error truthy_opt
         truthy append try_catch].
    eexists. split; [reflexivity|]. split; reflexivity.
Qed.

End ConnectorFailure.

Section ConnectorFailureExamples.
Import Js APIErrorHandler ExternalLLMConnector.

Lemma transport_failure_reported_witness :
  exists k e,
    (fun _ : nat =>
       Throw (A:=unit) (AxiosErr "Unauthorized" None
                          (Some (mkAxiosResponse 401 EmptyString [])))) k
    = Throw e
    /\ attempts
         (retry (fun _ : nat =>
                   Throw (A:=unit)
                     (AxiosErr "Unauthorized" None
                        (Some (mkAxiosResponse 401 EmptyString []))))
                (fun _ => 0%Q) MAX_RETRIES) = S k.
Proof.
  destruct (transport_failure_reported (D:=unit) (Ok tt)
              (fun _ => Throw (AxiosErr "Unauthorized" None
                                 (Some (mkAxiosResponse 401 EmptyString []))))
              (fun _ => 0%Q)
              (fun _ _ _ _ => Throw (PlainErr "unused"))
              sample_is_uuid (fun _ => PlainErr "ZodError")
              (Ok (ChatService.mkEnvConfig 150 0.7%Q))
              (fun _ => Throw (PlainErr "unused"))
              1000 1200 eq_refl)
    as (k & e & _ & P & A & _).
  - intros k. eexists. reflexivity.
  - lia.
  - exists k, e. split; [exact P | exact A].
Defined.

End ConnectorFailureExamples.
